(** * Portfolio page scripts: config.js, utils.js, sections.js, main.js

  A shallow embedding of the page's controllers over an explicit model
  of the browser state they act on (the document, the console, the
  pending timers, the visibility observers), followed by the properties
  of the controllers that the specification states. *)

From Stdlib Require Import ZArith QArith String List Bool Lia.
From stdpp Require Import base option list strings pretty gmap.
Import ListNotations.

Set Warnings "-register-all".

Local Open Scope string_scope.
Local Open Scope list_scope.
Local Open Scope Z_scope.

(** ** The host: document store, events, timers *)

Module Dom.

(** CSS selectors, in parsed form.  These are the shapes the scripts use:
    [#id], [.class], [tag], [ancestor descendant] and [a[href^=prefix]]. *)
Inductive Selector :=
| ById (i : string)
| ByClass (c : string)
| ByTag (t : string)
| Descendant (anc sel : Selector)
| TagHrefPrefix (t : string) (prefix : string).

(** Closures registered with [addEventListener], one constructor per
    arrow function of the scripts, carrying what the closure captures. *)
Inductive Handler :=
| OnProfileClick (profilePicture : option nat)
| OnCardHover (card : nat) (isHovering : bool)
| OnProjectClick (index : nat)
| OnSkillClick (tag : nat)
| OnAnchorClick (link : nat).

(** An element: its tag, the attributes and inline styles the scripts read
    or write, its parent, whether it is connected to the document, and its
    listeners.  [data] is the text the element holds itself, in a text node
    that comes before its child elements; [textContent] below adds the text
    of the descendants. *)
Record Element := {
  tagName : string;
  idAttr : option string;
  classList : list string;
  href : option string;
  data : string;
  transform : string;
  opacity : string;
  transition : string;
  offsetTop : Z;
  parentNode : option nat;
  isConnected : bool;
  listeners : list (string * Handler)
}.

(** [document.createElement], with attributes and text set: the element
    is not connected. *)
Definition mkElement (t : string) (i : option string) (cs : list string)
    (h : option string) (txt : string) : Element :=
  {| tagName := t; idAttr := i; classList := cs; href := h;
     data := txt; transform := ""; opacity := ""; transition := "";
     offsetTop := 0; parentNode := None; isConnected := false;
     listeners := [] |}.

Definition set_parent (p : option nat) (e : Element) : Element :=
  {| tagName := tagName e; idAttr := idAttr e; classList := classList e;
     href := href e; data := data e; transform := transform e;
     opacity := opacity e; transition := transition e;
     offsetTop := offsetTop e; parentNode := p;
     isConnected := isConnected e; listeners := listeners e |}.

Definition set_connected (b : bool) (e : Element) : Element :=
  {| tagName := tagName e; idAttr := idAttr e; classList := classList e;
     href := href e; data := data e; transform := transform e;
     opacity := opacity e; transition := transition e;
     offsetTop := offsetTop e; parentNode := parentNode e;
     isConnected := b; listeners := listeners e |}.

Definition set_data (s : string) (e : Element) : Element :=
  {| tagName := tagName e; idAttr := idAttr e; classList := classList e;
     href := href e; data := s; transform := transform e;
     opacity := opacity e; transition := transition e;
     offsetTop := offsetTop e; parentNode := parentNode e;
     isConnected := isConnected e; listeners := listeners e |}.

Definition set_transform (s : string) (e : Element) : Element :=
  {| tagName := tagName e; idAttr := idAttr e; classList := classList e;
     href := href e; data := data e; transform := s;
     opacity := opacity e; transition := transition e;
     offsetTop := offsetTop e; parentNode := parentNode e;
     isConnected := isConnected e; listeners := listeners e |}.

Definition set_opacity (s : string) (e : Element) : Element :=
  {| tagName := tagName e; idAttr := idAttr e; classList := classList e;
     href := href e; data := data e; transform := transform e;
     opacity := s; transition := transition e;
     offsetTop := offsetTop e; parentNode := parentNode e;
     isConnected := isConnected e; listeners := listeners e |}.

Definition set_transition (s : string) (e : Element) : Element :=
  {| tagName := tagName e; idAttr := idAttr e; classList := classList e;
     href := href e; data := data e; transform := transform e;
     opacity := opacity e; transition := s;
     offsetTop := offsetTop e; parentNode := parentNode e;
     isConnected := isConnected e; listeners := listeners e |}.

Definition set_classes (cs : list string) (e : Element) : Element :=
  {| tagName := tagName e; idAttr := idAttr e; classList := cs;
     href := href e; data := data e; transform := transform e;
     opacity := opacity e; transition := transition e;
     offsetTop := offsetTop e; parentNode := parentNode e;
     isConnected := isConnected e; listeners := listeners e |}.

Definition add_listener (ty : string) (h : Handler) (e : Element) : Element :=
  {| tagName := tagName e; idAttr := idAttr e; classList := classList e;
     href := href e; data := data e; transform := transform e;
     opacity := opacity e; transition := transition e;
     offsetTop := offsetTop e; parentNode := parentNode e;
     isConnected := isConnected e; listeners := listeners e ++ [(ty, h)] |}.

(** [e] with the listeners [l] added, in this order. *)
Definition add_listeners (l : list (string * Handler)) (e : Element) : Element :=
  {| tagName := tagName e; idAttr := idAttr e; classList := classList e;
     href := href e; data := data e; transform := transform e;
     opacity := opacity e; transition := transition e;
     offsetTop := offsetTop e; parentNode := parentNode e;
     isConnected := isConnected e; listeners := listeners e ++ l |}.

(** The store of the page's elements; a node is named by its position.  The
    store lists the loaded page in document order, and nodes appended later
    come last; a node comes after its parent.  An element taken out of the
    document stays in the store, not connected. *)
Abbreviation Document := (list Element).

(** A subtree that is not (yet) connected: what [createElement] followed by
    assignments to [className] and [innerHTML] builds. *)
Inductive Tree := Node (e : Element) (kids : list Tree).

(** [attach conn p t d] puts [t] below [p], in preorder; [conn] tells
    whether [p] is connected. *)
Fixpoint attach (conn : bool) (p : option nat) (t : Tree) (d : Document) : Document :=
  match t with
  | Node e kids =>
      let self := List.length d in
      (fix go (ks : list Tree) (acc : Document) : Document :=
         match ks with
         | [] => acc
         | k :: ks' => go ks' (attach conn (Some self) k acc)
         end) kids (d ++ [set_connected conn (set_parent p e)])
  end.

Definition page (t : Tree) : Document := attach true None t [].

Fixpoint ancestors_from (fuel : nat) (d : Document) (n : nat) : list nat :=
  match fuel with
  | O => []
  | S f =>
      match d !! n ≫= parentNode with
      | Some p => p :: ancestors_from f d p
      | None => []
      end
  end.

Definition ancestors (d : Document) (n : nat) : list nat :=
  ancestors_from (List.length d) d n.

(** The child elements of a node, in their order. *)
Definition children (d : Document) (n : nat) : list nat :=
  filter (fun m => (n < m)%nat /\ d !! m ≫= parentNode = Some n)
    (seq 0 (List.length d)).

(** A node and its descendants, in document order. *)
Fixpoint subtree_from (fuel : nat) (d : Document) (n : nat) : list nat :=
  match fuel with
  | O => []
  | S f => n :: flat_map (subtree_from f d) (children d n)
  end.

Definition subtree (d : Document) (n : nat) : list nat :=
  subtree_from (List.length d) d n.

(** [node.textContent]: the text of the node and of its descendants, in
    document order. *)
Definition textContent (d : Document) (n : nat) : string :=
  String.concat ""
    (map (fun m => match d !! m with Some e => data e | None => "" end)
       (subtree d n)).

(** [node.textContent = s]: the children of the node are removed, they and
    their descendants being no longer connected, and the node holds the text
    [s] alone. *)
Definition set_textContent (s : string) (n : nat) (d : Document) : Document :=
  imap (fun m e =>
          if decide (m = n) then set_data s e
          else if decide (m ∈ subtree d n) then
                 set_connected false
                   (if decide (parentNode e = Some n) then set_parent None e
                    else e)
               else e) d.

Definition has_prefix (p s : string) : bool := String.prefix p s.

Definition string_in (s : string) (l : list string) : bool :=
  existsb (String.eqb s) l.

(** Whether the node [n] is what the selector describes, connected or
    not. *)
Fixpoint matches_shape (d : Document) (s : Selector) (n : nat) : bool :=
  match d !! n with
  | None => false
  | Some e =>
      match s with
      | ById i => match idAttr e with Some j => String.eqb i j | None => false end
      | ByClass c => string_in c (classList e)
      | ByTag t => String.eqb t (tagName e)
      | Descendant a s' =>
          matches_shape d s' n && existsb (matches_shape d a) (ancestors d n)
      | TagHrefPrefix t p =>
          String.eqb t (tagName e)
          && match href e with Some h => has_prefix p h | None => false end
      end
  end.

Definition connected (d : Document) (n : nat) : bool :=
  match d !! n with
  | Some e => isConnected e
  | None => false
  end.

(** Whether a query on the document finds the node [n] for the selector:
    the node is connected and is what the selector describes. *)
Definition matches_at (d : Document) (s : Selector) (n : nat) : bool :=
  connected d n && matches_shape d s n.

(** The source text of a selector, for log messages. *)
Fixpoint selector_text (s : Selector) : string :=
  match s with
  | ById i => "#" +:+ i
  | ByClass c => "." +:+ c
  | ByTag t => t
  | Descendant a s' => selector_text a +:+ " " +:+ selector_text s'
  | TagHrefPrefix t p =>
      let q := String (Ascii.ascii_of_nat 34) "" in
      t +:+ "[href^=" +:+ q +:+ p +:+ q +:+ "]"
  end.

Definition select_all (d : Document) (s : Selector) : list nat :=
  filter (fun n => matches_at d s n = true) (seq 0 (List.length d)).

Definition select_first (d : Document) (s : Selector) : option nat :=
  head (select_all d s).

(** [element.querySelector]: the first match among the descendants of the
    element, which need not be connected. *)
Definition select_within (d : Document) (root : nat) (s : Selector) : option nat :=
  head (filter (fun n => existsb (Nat.eqb root) (ancestors d n) = true)
          (filter (fun n => matches_shape d s n = true) (seq 0 (List.length d)))).

End Dom.

(** ** config.js: the data of [PortfolioConfig] *)

Module Config.

Record AnimationConfig := {
  enabled : bool;
  duration : Z;
  easing : string
}.

Record ScrollConfig := {
  smooth : bool;
  offset : Z
}.

Record ThemeConfig := {
  darkModeEnabled : bool;
  primaryColor : string;
  secondaryColor : string
}.

(** A section's slice; [{}] is the record with both fields absent. *)
Record SectionConfig := {
  sectionEnabled : option bool;
  animationDelay : option Z
}.

Definition emptySection : SectionConfig :=
  {| sectionEnabled := None; animationDelay := None |}.

Record PortfolioConfig := {
  animations : AnimationConfig;
  scroll : ScrollConfig;
  theme : ThemeConfig;
  sections : list (string * SectionConfig)
}.

(** The constructor's values. *)
Definition constructor : PortfolioConfig :=
  {| animations := {| enabled := true; duration := 300; easing := "ease-in-out" |};
     scroll := {| smooth := true; offset := 80 |};
     theme := {| darkModeEnabled := false; primaryColor := "#3498db";
                 secondaryColor := "#2ecc71" |};
     sections :=
       [ ("hero", {| sectionEnabled := Some true; animationDelay := Some 100 |});
         ("projects", {| sectionEnabled := Some true; animationDelay := Some 200 |});
         ("skills", {| sectionEnabled := Some true; animationDelay := Some 300 |}) ] |}.

Fixpoint lookup_section (name : string) (l : list (string * SectionConfig))
    : option SectionConfig :=
  match l with
  | [] => None
  | (k, v) :: l' => if String.eqb k name then Some v else lookup_section name l'
  end.

(** [this.sections[sectionName] || {}] *)
Definition getSectionConfig (this : PortfolioConfig) (sectionName : string)
    : SectionConfig :=
  match lookup_section sectionName (sections this) with
  | Some c => c
  | None => emptySection
  end.

(** A partial [animations] record, as passed to [updateAnimationConfig]. *)
Record AnimationPatch := {
  newEnabled : option bool;
  newDuration : option Z;
  newEasing : option string
}.

(** [this.animations = { ...this.animations, ...newConfig }] *)
Definition updateAnimationConfig (this : PortfolioConfig) (newConfig : AnimationPatch)
    : PortfolioConfig :=
  {| animations :=
       {| enabled := default (enabled (animations this)) (newEnabled newConfig);
          duration := default (duration (animations this)) (newDuration newConfig);
          easing := default (easing (animations this)) (newEasing newConfig) |};
     scroll := scroll this; theme := theme this; sections := sections this |}.

End Config.

(** ** The state the scripts run in, and the monad of their effects *)

Module Host.
Import Dom.

(** Callbacks handed to [AnimationUtils.observeElements]. *)
Inductive ObserverCallback :=
| FadeInSection (config : Config.SectionConfig)
| ProfilePulse
| FadeInCard (projectCards : list nat)
| FadeInSkill (skillTags : list nat).

(** Callbacks handed to [setTimeout] and [requestAnimationFrame]. *)
Inductive Callback :=
| FadeInStart (element : nat)
| FadeInEnd (element : nat)
| PulseStart (element : nat)
| SetTransform (element : nat) (value : string).

(** Listeners on [window] and on the reduced-motion media query. *)
Inductive GlobalListener :=
| ResizeDebounced (wait : Z)
| ScrollThrottled (limit : Z)
| MotionPreferenceChange.

Record World := {
  document : Document;
  (** whether the host's selector parser accepts [#i] *)
  identOk : string -> bool;
  (** [window.matchMedia('(prefers-reduced-motion: reduce)').matches] *)
  reducedMotion : bool;
  (** [window.pageYOffset] and [document.documentElement.scrollTop], in
      pixels, which need not be whole *)
  pageYOffset : Q;
  scrollTop : Q;
  (** the singleton exported by config.js *)
  portfolioConfig : Config.PortfolioConfig;
  (** targets under observation, with the observer's callback *)
  observed : list (nat * ObserverCallback);
  (** pending timeouts: delay and callback, in the order they were set *)
  timers : list (Z * Callback);
  (** pending animation frames *)
  frames : list Callback;
  (** the last [window.scrollTo] request *)
  scrollTarget : option Z;
  globalListeners : list GlobalListener;
  console : list string
}.

Definition with_document (d : Document) (w : World) : World :=
  {| document := d; identOk := identOk w; reducedMotion := reducedMotion w;
     pageYOffset := pageYOffset w; scrollTop := scrollTop w;
     portfolioConfig := portfolioConfig w; observed := observed w;
     timers := timers w; frames := frames w;
     scrollTarget := scrollTarget w; globalListeners := globalListeners w;
     console := console w |}.

Definition with_config (c : Config.PortfolioConfig) (w : World) : World :=
  {| document := document w; identOk := identOk w;
     reducedMotion := reducedMotion w; pageYOffset := pageYOffset w;
     scrollTop := scrollTop w; portfolioConfig := c;
     observed := observed w; timers := timers w; frames := frames w;
     scrollTarget := scrollTarget w; globalListeners := globalListeners w;
     console := console w |}.

Definition with_observed (o : list (nat * ObserverCallback)) (w : World) : World :=
  {| document := document w; identOk := identOk w;
     reducedMotion := reducedMotion w; pageYOffset := pageYOffset w;
     scrollTop := scrollTop w; portfolioConfig := portfolioConfig w;
     observed := o; timers := timers w; frames := frames w;
     scrollTarget := scrollTarget w; globalListeners := globalListeners w;
     console := console w |}.

Definition with_timers (t : list (Z * Callback)) (w : World) : World :=
  {| document := document w; identOk := identOk w;
     reducedMotion := reducedMotion w; pageYOffset := pageYOffset w;
     scrollTop := scrollTop w; portfolioConfig := portfolioConfig w;
     observed := observed w; timers := t; frames := frames w;
     scrollTarget := scrollTarget w; globalListeners := globalListeners w;
     console := console w |}.

Definition with_frames (f : list Callback) (w : World) : World :=
  {| document := document w; identOk := identOk w;
     reducedMotion := reducedMotion w; pageYOffset := pageYOffset w;
     scrollTop := scrollTop w; portfolioConfig := portfolioConfig w;
     observed := observed w; timers := timers w; frames := f;
     scrollTarget := scrollTarget w; globalListeners := globalListeners w;
     console := console w |}.

Definition with_scrollTarget (t : option Z) (w : World) : World :=
  {| document := document w; identOk := identOk w;
     reducedMotion := reducedMotion w; pageYOffset := pageYOffset w;
     scrollTop := scrollTop w; portfolioConfig := portfolioConfig w;
     observed := observed w; timers := timers w; frames := frames w;
     scrollTarget := t; globalListeners := globalListeners w;
     console := console w |}.

Definition with_globalListeners (l : list GlobalListener) (w : World) : World :=
  {| document := document w; identOk := identOk w;
     reducedMotion := reducedMotion w; pageYOffset := pageYOffset w;
     scrollTop := scrollTop w; portfolioConfig := portfolioConfig w;
     observed := observed w; timers := timers w; frames := frames w;
     scrollTarget := scrollTarget w; globalListeners := l;
     console := console w |}.

Definition with_console (c : list string) (w : World) : World :=
  {| document := document w; identOk := identOk w;
     reducedMotion := reducedMotion w; pageYOffset := pageYOffset w;
     scrollTop := scrollTop w; portfolioConfig := portfolioConfig w;
     observed := observed w; timers := timers w; frames := frames w;
     scrollTarget := scrollTarget w; globalListeners := globalListeners w;
     console := c |}.

Definition with_reducedMotion (b : bool) (w : World) : World :=
  {| document := document w; identOk := identOk w;
     reducedMotion := b; pageYOffset := pageYOffset w;
     scrollTop := scrollTop w; portfolioConfig := portfolioConfig w;
     observed := observed w; timers := timers w; frames := frames w;
     scrollTarget := scrollTarget w; globalListeners := globalListeners w;
     console := console w |}.

Definition with_scroll (y top : Q) (w : World) : World :=
  {| document := document w; identOk := identOk w;
     reducedMotion := reducedMotion w; pageYOffset := y;
     scrollTop := top; portfolioConfig := portfolioConfig w;
     observed := observed w; timers := timers w; frames := frames w;
     scrollTarget := scrollTarget w; globalListeners := globalListeners w;
     console := console w |}.

(** Plain identifiers: letters, digits, [_], [-] and non-ASCII characters,
    not starting with a digit, nor with a hyphen and a digit, and not the
    single hyphen.  Every selector parser accepts them as names. *)
Definition is_name_start (a : Ascii.ascii) : bool :=
  let n := Ascii.nat_of_ascii a in
  (Nat.leb 65 n && Nat.leb n 90) || (Nat.leb 97 n && Nat.leb n 122)
  || Nat.eqb n 95 || Nat.leb 128 n.

Definition is_name_char (a : Ascii.ascii) : bool :=
  let n := Ascii.nat_of_ascii a in
  is_name_start a || (Nat.leb 48 n && Nat.leb n 57) || Nat.eqb n 45.

Fixpoint all_chars (f : Ascii.ascii -> bool) (s : string) : bool :=
  match s with
  | EmptyString => true
  | String a s' => f a && all_chars f s'
  end.

Definition is_ident (s : string) : bool :=
  match s with
  | EmptyString => false
  | String a s' =>
      if Nat.eqb (Ascii.nat_of_ascii a) 45 then
        match s' with
        | EmptyString => false
        | String b s'' =>
            (is_name_start b || Nat.eqb (Ascii.nat_of_ascii b) 45)
            && all_chars is_name_char s''
        end
      else is_name_start a && all_chars is_name_char s'
  end.

(** A class or tag name in a selector.  A plain identifier is accepted.  A
    name of letters, digits, [_] and [-] that is no identifier (the empty
    name, a name that starts with a digit) is rejected.  For a name with
    other characters the host decides, as it does for [#name]. *)
Definition nameOk (w : World) (c : string) : bool :=
  is_ident c || (negb (all_chars is_name_char c) && identOk w c).

(** A value that can stand between double quotes as it is: no quote, no
    backslash, no line break. *)
Definition quotable (p : string) : bool :=
  all_chars (fun a =>
    let n := Ascii.nat_of_ascii a in
    negb (Nat.eqb n 34 || Nat.eqb n 92 || Nat.eqb n 10 || Nat.eqb n 12
          || Nat.eqb n 13)) p.

(** Whether the host's parser accepts the selector. *)
Fixpoint selectorOk (w : World) (s : Selector) : bool :=
  match s with
  | ById i => identOk w i
  | ByClass c => nameOk w c
  | ByTag t => nameOk w t
  | Descendant a s' => selectorOk w a && selectorOk w s'
  | TagHrefPrefix t p => nameOk w t && quotable p
  end.

(** *** Completions: a call returns a value or throws *)

Inductive JsError :=
| SyntaxError (s : Selector)
| TypeError (what : string)
| DOMException (name : string).

Inductive Completion (A : Type) :=
| Normal (a : A)
| Throw (e : JsError).
Arguments Normal {A} a.
Arguments Throw {A} e.

(** A computation over a state [St]. *)
Definition M (St A : Type) : Type := St -> Completion A * St.

Definition ret {St A} (a : A) : M St A := fun w => (Normal a, w).

Definition bind {St A B} (m : M St A) (k : A -> M St B) : M St B :=
  fun w =>
    match m w with
    | (Normal a, w') => k a w'
    | (Throw e, w') => (Throw e, w')
    end.

Definition throw {St A} (e : JsError) : M St A := fun w => (Throw e, w).

(** [try { m } catch (error) { h error }] *)
Definition try_catch {St A} (m : M St A) (h : JsError -> M St A) : M St A :=
  fun w =>
    match m w with
    | (Normal a, w') => (Normal a, w')
    | (Throw e, w') => h e w'
    end.

Definition get {St} : M St St := fun w => (Normal w, w).
Definition modify {St} (f : St -> St) : M St unit := fun w => (Normal tt, f w).

(** [l.forEach((x, index) => f x index)] *)
Fixpoint forEach_from {St A} (i : nat) (l : list A) (f : A -> nat -> M St unit)
    : M St unit :=
  match l with
  | [] => ret tt
  | x :: l' => bind (f x i) (fun _ => forEach_from (S i) l' f)
  end.

Definition forEach {St A} (l : list A) (f : A -> nat -> M St unit) : M St unit :=
  forEach_from 0 l f.

(** The state a computation ends in, and its result. *)
Definition exec {St A} (m : M St A) (s : St) : St := snd (m s).
Definition eval {St A} (m : M St A) (s : St) : Completion A := fst (m s).

(** The scripts of sections.js, utils.js and config.js act on the [World]. *)
Abbreviation Js := (M World).

End Host.

Notation "'let*' x ':=' m 'in' k" := (Host.bind m (fun x => k))
(at level 10, x name, m at level 100, k at level 200).
Notation "m ';;' k" := (Host.bind m (fun _ => k))
(at level 100, k at level 200, right associativity).

(** ** The browser interfaces the scripts call *)

Module Browser.
Import Dom Host.

(** [document.querySelector]: throws on a selector the host rejects. *)
Definition document_querySelector (s : Selector) : Js (option nat) :=
  fun w =>
    if selectorOk w s then (Normal (select_first (document w) s), w)
    else (Throw (SyntaxError s), w).

Definition document_querySelectorAll (s : Selector) : Js (list nat) :=
  fun w =>
    if selectorOk w s then (Normal (select_all (document w) s), w)
    else (Throw (SyntaxError s), w).

(** [element.querySelector] *)
Definition element_querySelector (root : nat) (s : Selector) : Js (option nat) :=
  fun w =>
    if selectorOk w s then (Normal (select_within (document w) root s), w)
    else (Throw (SyntaxError s), w).

Definition console_log (msg : string) : Js unit :=
  modify (fun w => with_console (console w ++ [msg]) w).

Definition console_warn (msg : string) : Js unit := console_log msg.

(** Reading a property of a node; a reference that names no node is a
    [TypeError], as a property access on [undefined] is. *)
Definition deref (n : nat) : Js Element :=
  fun w =>
    match document w !! n with
    | Some e => (Normal e, w)
    | None => (Throw (TypeError "not an element"), w)
    end.

(** Writing a property of a node. *)
Definition update (n : nat) (f : Element -> Element) : Js unit :=
  let* _ := deref n in
  modify (fun w => with_document (alter f n (document w)) w).

Definition addEventListener (n : nat) (type : string) (h : Handler) : Js unit :=
  update n (add_listener type h).

Definition getAttribute_href (n : nat) : Js (option string) :=
  let* e := deref n in ret (href e).

Definition setTimeout (cb : Callback) (delay : Z) : Js unit :=
  modify (fun w => with_timers (timers w ++ [(delay, cb)]) w).

Definition requestAnimationFrame (cb : Callback) : Js unit :=
  modify (fun w => with_frames (frames w ++ [cb]) w).

(** [parent.appendChild(subtree)]; the result is the node now connected. *)
Definition appendChild (parent : nat) (t : Tree) : Js nat :=
  let* p := deref parent in
  let* w := get in
  modify (fun w =>
    with_document (attach (isConnected p) (Some parent) t (document w)) w) ;;
  ret (List.length (document w)).

(** [node.textContent = s] *)
Definition set_textContent (n : nat) (s : string) : Js unit :=
  let* _ := deref n in
  modify (fun w => with_document (Dom.set_textContent s n (document w)) w).

(** [node.textContent] *)
Definition get_textContent (n : nat) : Js string :=
  let* _ := deref n in
  let* w := get in
  ret (Dom.textContent (document w) n).

(** The class list is an ordered set of tokens. *)
Definition add_token (c : string) (e : Element) : Element :=
  if string_in c (classList e) then e
  else set_classes (classList e ++ [c]) e.

Definition remove_token (c : string) (e : Element) : Element :=
  set_classes (filter (fun x => x <> c) (classList e)) e.

(** ASCII whitespace: tab, line feed, form feed, carriage return, space. *)
Definition is_whitespace (a : Ascii.ascii) : bool :=
  let n := Ascii.nat_of_ascii a in
  Nat.eqb n 9 || Nat.eqb n 10 || Nat.eqb n 12 || Nat.eqb n 13 || Nat.eqb n 32.

Fixpoint has_whitespace (s : string) : bool :=
  match s with
  | EmptyString => false
  | String a s' => is_whitespace a || has_whitespace s'
  end.

(** [classList.add] and [classList.remove] validate the token first: the
    empty token is a [SyntaxError], a token with whitespace an
    [InvalidCharacterError]. *)
Definition validate_token (c : string) : Js unit :=
  if String.eqb c "" then throw (DOMException "SyntaxError")
  else if has_whitespace c then throw (DOMException "InvalidCharacterError")
  else ret tt.

Definition classList_add (n : nat) (c : string) : Js unit :=
  let* _ := deref n in
  validate_token c ;;
  update n (add_token c).

Definition classList_remove (n : nat) (c : string) : Js unit :=
  let* _ := deref n in
  validate_token c ;;
  update n (remove_token c).

(** [classList.contains] validates nothing. *)
Definition classList_contains (c : string) (e : Element) : bool :=
  string_in c (classList e).

(** [observer.observe(element)] *)
Definition observe (cb : ObserverCallback) (n : nat) : Js unit :=
  modify (fun w => with_observed (observed w ++ [(n, cb)]) w).

(** [window.matchMedia('(prefers-reduced-motion: reduce)').matches] *)
Definition matchMedia_reducedMotion : Js bool :=
  fun w => (Normal (reducedMotion w), w).

(** [window.scrollTo({ top, behavior: 'smooth' })] *)
Definition window_scrollTo (top : Z) : Js unit :=
  modify (with_scrollTarget (Some top)).

End Browser.

(** ** config.js: the methods of the exported singleton *)

Module PortfolioConfig.
Import Host Browser.

Definition getSectionConfig (sectionName : string) : Js Config.SectionConfig :=
  let* w := get in
  ret (Config.getSectionConfig (portfolioConfig w) sectionName).

Definition updateAnimationConfig (newConfig : Config.AnimationPatch) : Js unit :=
  modify (fun w =>
    with_config (Config.updateAnimationConfig (portfolioConfig w) newConfig) w).

(** [this.animations.enabled && !window.matchMedia(...).matches] *)
Definition areAnimationsEnabled : Js bool :=
  let* w := get in
  if Config.enabled (Config.animations (portfolioConfig w)) then
    let* m := matchMedia_reducedMotion in
    ret (negb m)
  else ret false.

End PortfolioConfig.

(** ** utils.js *)

Module DOMUtils.
Import Dom Host Browser.

Definition querySelector (selector : Selector) : Js (option nat) :=
  try_catch (document_querySelector selector)
    (fun error =>
       console_warn ("Erro ao selecionar elemento: " +:+ selector_text selector) ;;
       ret None).

Definition querySelectorAll (selector : Selector) : Js (list nat) :=
  try_catch (document_querySelectorAll selector)
    (fun error =>
       console_warn ("Erro ao selecionar elementos: " +:+ selector_text selector) ;;
       ret []).

(** A string is truthy when it is not empty. *)
Definition truthy (s : string) : bool := negb (String.eqb s "").

Definition addClass (element : option nat) (className : string) : Js unit :=
  match element with
  | Some n => if truthy className then classList_add n className else ret tt
  | None => ret tt
  end.

Definition removeClass (element : option nat) (className : string) : Js unit :=
  match element with
  | Some n => if truthy className then classList_remove n className else ret tt
  | None => ret tt
  end.

Definition hasClass (element : option nat) (className : string) : Js bool :=
  match element with
  | Some n =>
      if truthy className then
        let* e := deref n in ret (classList_contains className e)
      else ret false
  | None => ret false
  end.

End DOMUtils.

Module AnimationUtils.
Import Dom Host Browser.

Definition fadeIn (element : option nat) (delay : Z) : Js unit :=
  match element with
  | None => ret tt
  | Some n => setTimeout (FadeInStart n) delay
  end.

(** The body of the timeout set by [fadeIn], and of its animation frame. *)
Definition fadeIn_start (n : nat) : Js unit :=
  update n (set_opacity "0") ;;
  update n (set_transform "translateY(20px)") ;;
  update n (set_transition "opacity 0.6s ease, transform 0.6s ease") ;;
  requestAnimationFrame (FadeInEnd n).

Definition fadeIn_end (n : nat) : Js unit :=
  update n (set_opacity "1") ;;
  update n (set_transform "translateY(0)").

Definition observeElements (selector : Selector) (callback : ObserverCallback)
    : Js unit :=
  let* elements := DOMUtils.querySelectorAll selector in
  match elements with
  | [] => ret tt
  | _ => forEach elements (fun element _ => observe callback element)
  end.

End AnimationUtils.

Module ScrollUtils.
Import Dom Host Browser.

Definition smoothScrollTo (selector : Selector) (offset : Z) : Js unit :=
  let* element := DOMUtils.querySelector selector in
  match element with
  | None => ret tt
  | Some n =>
      let* e := deref n in
      let elementPosition := offsetTop e - offset in
      window_scrollTo elementPosition
  end.

(** [window.pageYOffset || document.documentElement.scrollTop]: a number
    is falsy when it is zero. *)
Definition getScrollPosition : Js Q :=
  let* w := get in
  ret (if Qeq_bool (pageYOffset w) 0 then scrollTop w else pageYOffset w).

End ScrollUtils.

(** ** sections.js *)

Module Sections.
Import Dom Host Browser.

(** *** [BaseSection] *)

Record BaseSection := {
  sectionId : string;
  element : option nat;
  config : Config.SectionConfig;
  isInitialized : bool
}.

Definition BaseSection_constructor (sectionId : string) : Js BaseSection :=
  let* element := DOMUtils.querySelector (ById sectionId) in
  let* config := PortfolioConfig.getSectionConfig sectionId in
  ret {| sectionId := sectionId; element := element; config := config;
         isInitialized := false |}.

Definition set_isInitialized (b : bool) (this : BaseSection) : BaseSection :=
  {| sectionId := sectionId this; element := element this;
     config := config this; isInitialized := b |}.

(** The two methods a subclass overrides, and access to the inherited
    fields. *)
Class Section (S : Type) := {
  base : S -> BaseSection;
  with_base : BaseSection -> S -> S;
  setupEventListeners : S -> Js unit;
  setupAnimations : S -> Js unit;
  base_with_base : forall b this, base (with_base b this) = b
}.

Definition init {S} `{Section S} (this : S) : Js S :=
  match element (base this) with
  | None => ret this
  | Some _ =>
      if isInitialized (base this) then ret this
      else
        setupEventListeners this ;;
        setupAnimations this ;;
        ret (with_base (set_isInitialized true (base this)) this)
  end.

Definition BaseSection_setupEventListeners (this : BaseSection) : Js unit :=
  ret tt.

Definition BaseSection_setupAnimations (this : BaseSection) : Js unit :=
  let* on := PortfolioConfig.areAnimationsEnabled in
  if on then
    AnimationUtils.observeElements (ById (sectionId this))
      (FadeInSection (config this))
  else ret tt.

(** [(element) => AnimationUtils.fadeIn(element, this.config.animationDelay || 0)] *)
Definition fadeInSection (config : Config.SectionConfig) (element : nat) : Js unit :=
  AnimationUtils.fadeIn (Some element)
    (match Config.animationDelay config with
     | Some d => if Z.eqb d 0 then 0 else d
     | None => 0
     end).

#[export] Instance BaseSection_Section : Section BaseSection := {
  base := fun this => this;
  with_base := fun b _ => b;
  setupEventListeners := BaseSection_setupEventListeners;
  setupAnimations := BaseSection_setupAnimations;
  base_with_base := fun _ _ => eq_refl
}.

Record Event := {
  type : string;
  target : nat;
  defaultPrevented : bool
}.

Definition preventDefault (e : Event) : Event :=
  {| type := type e; target := target e; defaultPrevented := true |}.

(** *** [HeroSection] *)

Record HeroSection := {
  hero_base : BaseSection;
  profilePicture : option nat
}.

Definition HeroSection_constructor : Js HeroSection :=
  let* b := BaseSection_constructor "hero" in
  let* profilePicture := DOMUtils.querySelector (ByClass "profile-picture-container") in
  ret {| hero_base := b; profilePicture := profilePicture |}.

Definition HeroSection_setupEventListeners (this : HeroSection) : Js unit :=
  match profilePicture this with
  | Some p => addEventListener p "click" (OnProfileClick (profilePicture this))
  | None => ret tt
  end.

Definition HeroSection_setupAnimations (this : HeroSection) : Js unit :=
  BaseSection_setupAnimations (hero_base this) ;;
  let* on := PortfolioConfig.areAnimationsEnabled in
  if on then
    AnimationUtils.observeElements (ByClass "profile-picture-container") ProfilePulse
  else ret tt.

(** The observer callback of the profile picture and its first timeout. *)
Definition profilePulse (element : nat) : Js unit :=
  setTimeout (PulseStart element) 500.

Definition profilePulse_start (element : nat) : Js unit :=
  update element (set_transform "scale(1.05)") ;;
  setTimeout (SetTransform element "scale(1)") 200.

Definition handleProfileClick (profilePicture : option nat) : Js unit :=
  let* on := PortfolioConfig.areAnimationsEnabled in
  if on then
    match profilePicture with
    | Some p =>
        update p (set_transform "scale(0.95)") ;;
        setTimeout (SetTransform p "scale(1)") 150
    | None => throw (TypeError "profilePicture is null")
    end
  else ret tt.

Record UserInfo := {
  name : option string;
  tagline : option string;
  summary : option string
}.

(** The value of a field when it is truthy: present and not empty. *)
Definition provided (field : option string) : option string :=
  match field with
  | Some s => if DOMUtils.truthy s then Some s else None
  | None => None
  end.

Definition updateUserInfo (userInfo : UserInfo) : Js unit :=
  let* nameElement := DOMUtils.querySelector (Descendant (ByClass "hero-content") (ByTag "h1")) in
  let* taglineElement := DOMUtils.querySelector (ByClass "tagline") in
  let* summaryElement := DOMUtils.querySelector (ByClass "summary-text") in
  match nameElement, provided (name userInfo) with
  | Some n, Some s => set_textContent n ("Olá, eu sou " +:+ s)
  | _, _ => ret tt
  end ;;
  match taglineElement, provided (tagline userInfo) with
  | Some n, Some s => set_textContent n s
  | _, _ => ret tt
  end ;;
  match summaryElement, provided (summary userInfo) with
  | Some n, Some s => set_textContent n s
  | _, _ => ret tt
  end.

#[export] Instance HeroSection_Section : Section HeroSection := {
  base := hero_base;
  with_base := fun b this => {| hero_base := b; profilePicture := profilePicture this |};
  setupEventListeners := HeroSection_setupEventListeners;
  setupAnimations := HeroSection_setupAnimations;
  base_with_base := fun _ _ => eq_refl
}.

(** *** [ProjectsSection] *)

Record ProjectsSection := {
  projects_base : BaseSection;
  projectCards : list nat
}.

Definition ProjectsSection_constructor : Js ProjectsSection :=
  let* b := BaseSection_constructor "projects" in
  let* projectCards := DOMUtils.querySelectorAll (ByClass "project-card") in
  ret {| projects_base := b; projectCards := projectCards |}.

Definition ProjectsSection_setupEventListeners (this : ProjectsSection) : Js unit :=
  forEach (projectCards this) (fun card index =>
    addEventListener card "mouseenter" (OnCardHover card true) ;;
    addEventListener card "mouseleave" (OnCardHover card false) ;;
    let* link := element_querySelector card (ByClass "project-link") in
    match link with
    | Some l => addEventListener l "click" (OnProjectClick index)
    | None => ret tt
    end).

Definition ProjectsSection_setupAnimations (this : ProjectsSection) : Js unit :=
  BaseSection_setupAnimations (projects_base this) ;;
  let* on := PortfolioConfig.areAnimationsEnabled in
  if on then
    AnimationUtils.observeElements (ByClass "project-card")
      (FadeInCard (projectCards this))
  else ret tt.

(** [Array.from(list).indexOf(x)]: the first position of [x], or [-1]. *)
Fixpoint indexOf_from (i : Z) (l : list nat) (x : nat) : Z :=
  match l with
  | [] => -1
  | y :: l' => if Nat.eqb y x then i else indexOf_from (i + 1) l' x
  end.

Definition indexOf (l : list nat) (x : nat) : Z := indexOf_from 0 l x.

(** The observer callback of the cards. *)
Definition fadeInCard (projectCards : list nat) (element : nat) : Js unit :=
  let index := indexOf projectCards element in
  AnimationUtils.fadeIn (Some element) (index * 100).

Definition handleCardHover (card : nat) (isHovering : bool) : Js unit :=
  let* on := PortfolioConfig.areAnimationsEnabled in
  if negb on then ret tt
  else if isHovering then update card (set_transform "translateY(-10px) scale(1.02)")
  else update card (set_transform "translateY(0) scale(1)").

(** [href === '#'], for the value of [getAttribute('href')]. *)
Definition is_placeholder (href : option string) : bool :=
  match href with
  | Some h => String.eqb h "#"
  | None => false
  end.

Definition handleProjectClick (event : Event) (projectIndex : nat) : Js Event :=
  let link := target event in
  let* href := getAttribute_href link in
  if is_placeholder href then
    let event := preventDefault event in
    console_log ("Projeto " +:+ pretty (projectIndex + 1)%nat
                   +:+ " clicado - Configure o link real") ;;
    ret event
  else ret event.

Definition setupProjectCard (card : nat) : Js unit :=
  addEventListener card "mouseenter" (OnCardHover card true) ;;
  addEventListener card "mouseleave" (OnCardHover card false).

Record ProjectData := {
  title : string;
  description : string;
  link : string
}.

(** The card [addProject] builds.  The markup assigned to [innerHTML] is
    taken as parsed, with the three fields standing in it as plain text. *)
Definition projectCard (projectData : ProjectData) : Tree :=
  Node (mkElement "article" None ["project-card"] None "")
    [ Node (mkElement "h3" None [] None (title projectData)) [];
      Node (mkElement "p" None ["project-description"] None
              (description projectData)) [];
      Node (mkElement "a" None ["project-link"] (Some (link projectData))
              "Ver Projeto") [] ].

Definition addProject (projectData : ProjectData) : Js unit :=
  let* projectsGrid := DOMUtils.querySelector (ByClass "projects-grid") in
  match projectsGrid with
  | None => ret tt
  | Some grid =>
      let* card := appendChild grid (projectCard projectData) in
      setupProjectCard card
  end.

#[export] Instance ProjectsSection_Section : Section ProjectsSection := {
  base := projects_base;
  with_base := fun b this => {| projects_base := b; projectCards := projectCards this |};
  setupEventListeners := ProjectsSection_setupEventListeners;
  setupAnimations := ProjectsSection_setupAnimations;
  base_with_base := fun _ _ => eq_refl
}.

(** *** [SkillsSection] *)

Record SkillsSection := {
  skills_base : BaseSection;
  skillTags : list nat
}.

Definition SkillsSection_constructor : Js SkillsSection :=
  let* b := BaseSection_constructor "skills" in
  let* skillTags := DOMUtils.querySelectorAll (ByClass "skill-tag") in
  ret {| skills_base := b; skillTags := skillTags |}.

Definition SkillsSection_setupEventListeners (this : SkillsSection) : Js unit :=
  forEach (skillTags this) (fun tag _ =>
    addEventListener tag "click" (OnSkillClick tag)).

Definition SkillsSection_setupAnimations (this : SkillsSection) : Js unit :=
  BaseSection_setupAnimations (skills_base this) ;;
  let* on := PortfolioConfig.areAnimationsEnabled in
  if on then
    AnimationUtils.observeElements (ByClass "skill-tag")
      (FadeInSkill (skillTags this))
  else ret tt.

(** The observer callback of the tags. *)
Definition fadeInSkill (skillTags : list nat) (element : nat) : Js unit :=
  let index := indexOf skillTags element in
  AnimationUtils.fadeIn (Some element) (index * 50).

Definition handleSkillClick (tag : nat) : Js unit :=
  let* skillName := get_textContent tag in
  console_log ("Habilidade clicada: " +:+ skillName) ;;
  let* on := PortfolioConfig.areAnimationsEnabled in
  if on then
    update tag (set_transform "scale(0.95)") ;;
    setTimeout (SetTransform tag "scale(1)") 150
  else ret tt.

Definition setupSkillTag (tag : nat) : Js unit :=
  addEventListener tag "click" (OnSkillClick tag).

Definition addSkill (skillName : string) : Js unit :=
  let* skillsGrid := DOMUtils.querySelector (ByClass "skills-grid") in
  match skillsGrid with
  | None => ret tt
  | Some grid =>
      let* tag := appendChild grid
                    (Node (mkElement "span" None ["skill-tag"] None skillName) []) in
      setupSkillTag tag
  end.

#[export] Instance SkillsSection_Section : Section SkillsSection := {
  base := skills_base;
  with_base := fun b this => {| skills_base := b; skillTags := skillTags this |};
  setupEventListeners := SkillsSection_setupEventListeners;
  setupAnimations := SkillsSection_setupAnimations;
  base_with_base := fun _ _ => eq_refl
}.

End Sections.

(** ** main.js *)

Module App.
Import Dom Host Browser Sections.

Inductive AnySection :=
| IsHero (s : HeroSection)
| IsProjects (s : ProjectsSection)
| IsSkills (s : SkillsSection).

Inductive SectionClass := HeroClass | ProjectsClass | SkillsClass.

(** [new SectionClass()] *)
Definition construct (c : SectionClass) : Js AnySection :=
  match c with
  | HeroClass => let* s := HeroSection_constructor in ret (IsHero s)
  | ProjectsClass => let* s := ProjectsSection_constructor in ret (IsProjects s)
  | SkillsClass => let* s := SkillsSection_constructor in ret (IsSkills s)
  end.

(** [section.init()], dispatched on the object's class. *)
Definition section_init (section : AnySection) : Js AnySection :=
  match section with
  | IsHero s => let* s := init s in ret (IsHero s)
  | IsProjects s => let* s := init s in ret (IsProjects s)
  | IsSkills s => let* s := init s in ret (IsSkills s)
  end.

(** The id each class passes to [super]. *)
Definition class_id (c : SectionClass) : string :=
  match c with
  | HeroClass => "hero"
  | ProjectsClass => "projects"
  | SkillsClass => "skills"
  end.

(** The inherited part of a section object. *)
Definition section_base (section : AnySection) : BaseSection :=
  match section with
  | IsHero s => base s
  | IsProjects s => base s
  | IsSkills s => base s
  end.

Record PortfolioApp := {
  sections : gmap string AnySection;
  isInitialized : bool
}.

Definition constructor : PortfolioApp :=
  {| sections := ∅; isInitialized := false |}.

Inductive ReadyState := Loading | Interactive | Complete.

(** An [async] call suspended at its [await]. *)
Inductive Continuation := InitAfterWait.

(** The page: the world of the sections, the instance [app] that main.js
    creates, and the host's queues of suspended calls. *)
Record Page := {
  world : World;
  app : PortfolioApp;
  readyState : ReadyState;
  (** calls waiting for the [DOMContentLoaded] event *)
  domContentLoaded : list Continuation;
  (** calls whose awaited promise is resolved *)
  microtasks : list Continuation
}.

Definition with_world (w : World) (p : Page) : Page :=
  {| world := w; app := app p; readyState := readyState p;
     domContentLoaded := domContentLoaded p; microtasks := microtasks p |}.

Definition with_app (a : PortfolioApp) (p : Page) : Page :=
  {| world := world p; app := a; readyState := readyState p;
     domContentLoaded := domContentLoaded p; microtasks := microtasks p |}.

Definition with_readyState (r : ReadyState) (p : Page) : Page :=
  {| world := world p; app := app p; readyState := r;
     domContentLoaded := domContentLoaded p; microtasks := microtasks p |}.

Definition with_domContentLoaded (l : list Continuation) (p : Page) : Page :=
  {| world := world p; app := app p; readyState := readyState p;
     domContentLoaded := l; microtasks := microtasks p |}.

Definition with_microtasks (l : list Continuation) (p : Page) : Page :=
  {| world := world p; app := app p; readyState := readyState p;
     domContentLoaded := domContentLoaded p; microtasks := l |}.

Abbreviation Task := (M Page).

Definition lift {A} (m : Js A) : Task A :=
  fun p => let '(r, w) := m (world p) in (r, with_world w p).

Definition sections_set (name : string) (section : AnySection) : Task unit :=
  modify (fun p =>
    with_app {| sections := <[name := section]> (sections (app p));
                isInitialized := isInitialized (app p) |} p).

Definition set_isInitialized (b : bool) : Task unit :=
  modify (fun p =>
    with_app {| sections := sections (app p); isInitialized := b |} p).

Definition initializeSections : Task unit :=
  let sectionClasses :=
    [ ("hero", HeroClass); ("projects", ProjectsClass); ("skills", SkillsClass) ] in
  forEach sectionClasses (fun entry _ =>
    let name := fst entry in
    let SectionClass := snd entry in
    try_catch
      (let* section := lift (construct SectionClass) in
       let* section := lift (section_init section) in
       sections_set name section)
      (fun error => lift (console_warn ("Erro ao inicializar seção " +:+ name)))).

Definition addGlobalListener (l : GlobalListener) : Js unit :=
  modify (fun w => with_globalListeners (globalListeners w ++ [l]) w).

Definition setupGlobalEventListeners : Js unit :=
  addGlobalListener (ResizeDebounced 250) ;;
  addGlobalListener (ScrollThrottled 16) ;;
  addGlobalListener MotionPreferenceChange.

Definition setupScrollBehavior : Js unit :=
  let* w := get in
  if Config.smooth (Config.scroll (portfolioConfig w)) then
    let* internalLinks := DOMUtils.querySelectorAll (TagHrefPrefix "a" "#") in
    forEach internalLinks (fun link _ =>
      addEventListener link "click" (OnAnchorClick link))
  else ret tt.

(** The click listener [setupScrollBehavior] gives an in-page link. *)
Definition anchorClick (link : nat) (e : Event) : Js Event :=
  let e := preventDefault e in
  let* href := getAttribute_href link in
  match href with
  | Some h =>
      let targetId := String.substring 1 (String.length h - 1) h in
      let* w := get in
      ScrollUtils.smoothScrollTo (ById targetId)
        (Config.offset (Config.scroll (portfolioConfig w))) ;;
      ret e
  | None => throw (TypeError "href is null")
  end.

(** [x > y] *)
Definition above (x y : Q) : bool := negb (Qle_bool x y).

Definition handleWindowResize : Js unit :=
  console_log "Janela redimensionada".

Definition handleScroll : Js unit :=
  let* scrollPosition := ScrollUtils.getScrollPosition in
  let* header := DOMUtils.querySelector (ByTag "header") in
  match header with
  | Some _ =>
      if above scrollPosition 100 then DOMUtils.addClass header "scrolled"
      else DOMUtils.removeClass header "scrolled"
  | None => ret tt
  end.

Definition handleMotionPreferenceChange (prefersReducedMotion : bool) : Js unit :=
  PortfolioConfig.updateAnimationConfig
    {| Config.newEnabled := Some (negb prefersReducedMotion);
       Config.newDuration := None; Config.newEasing := None |}.

(** [this.sections.get(sectionName) || null] *)
Definition getSection (sectionName : string) : Task (option AnySection) :=
  let* p := get in ret (sections (app p) !! sectionName).

Definition updateUserData (userData : option UserInfo) : Task unit :=
  let* heroSection := getSection "hero" in
  match heroSection, userData with
  | Some (IsHero _), Some u => lift (updateUserInfo u)
  | Some _, Some _ => throw (TypeError "updateUserInfo is not a function")
  | _, _ => ret tt
  end.

Definition addProject (projectData : option ProjectData) : Task unit :=
  let* projectsSection := getSection "projects" in
  match projectsSection, projectData with
  | Some (IsProjects _), Some d => lift (Sections.addProject d)
  | Some _, Some _ => throw (TypeError "addProject is not a function")
  | _, _ => ret tt
  end.

Definition addSkill (skillName : string) : Task unit :=
  let* skillsSection := getSection "skills" in
  match skillsSection with
  | Some (IsSkills _) =>
      if DOMUtils.truthy skillName then lift (Sections.addSkill skillName) else ret tt
  | Some _ =>
      if DOMUtils.truthy skillName then throw (TypeError "addSkill is not a function")
      else ret tt
  | None => ret tt
  end.

(** [await this.waitForDOM()] with [k] the rest of the caller: the promise
    is resolved at once unless the document is still loading, and the
    caller resumes as a microtask once it is resolved. *)
Definition waitForDOM (k : Continuation) : Task unit :=
  let* p := get in
  match readyState p with
  | Loading => modify (fun p => with_domContentLoaded (domContentLoaded p ++ [k]) p)
  | _ => modify (fun p => with_microtasks (microtasks p ++ [k]) p)
  end.

(** [init()] up to its [await]. *)
Definition init : Task unit :=
  let* p := get in
  if isInitialized (app p) then ret tt
  else waitForDOM InitAfterWait.

(** [init()] from its [await] on. *)
Definition init_resume : Task unit :=
  try_catch
    (initializeSections ;;
     lift setupGlobalEventListeners ;;
     lift setupScrollBehavior ;;
     set_isInitialized true ;;
     lift (console_log "Portfólio inicializado com sucesso!"))
    (fun error => lift (console_log "Erro ao inicializar portfólio:")).

Definition resume (k : Continuation) : Task unit :=
  match k with
  | InitAfterWait => init_resume
  end.

(** The host empties the microtask queue when the running script returns. *)
Definition runMicrotasks : Task unit :=
  let* p := get in
  modify (with_microtasks []) ;;
  forEach (microtasks p) (fun k _ => resume k).

(** The [DOMContentLoaded] event. *)
Definition fireDOMContentLoaded : Task unit :=
  modify (with_readyState Interactive) ;;
  modify (fun p => with_microtasks (microtasks p ++ domContentLoaded p) p) ;;
  modify (with_domContentLoaded []) ;;
  runMicrotasks.

End App.

(** ** What the host does with the registered callbacks *)

Module Run.
Import Dom Host Browser Sections.

Definition runHandler (h : Handler) (e : Event) : Js Event :=
  match h with
  | OnProfileClick profilePicture => handleProfileClick profilePicture ;; ret e
  | OnCardHover card isHovering => handleCardHover card isHovering ;; ret e
  | OnProjectClick index => handleProjectClick e index
  | OnSkillClick tag => handleSkillClick tag ;; ret e
  | OnAnchorClick link => App.anchorClick link e
  end.

(** The listeners of one node for the event's type, in registration order;
    an exception in a listener is reported and the next listener runs. *)
Fixpoint invoke (hs : list (string * Handler)) (e : Event) : Js Event :=
  match hs with
  | [] => ret e
  | (ty, h) :: hs' =>
      if String.eqb ty (type e) then
        let* e := try_catch (runHandler h e)
                    (fun error => console_log "Uncaught exception in listener" ;; ret e) in
        invoke hs' e
      else invoke hs' e
  end.

Fixpoint propagate (path : list nat) (e : Event) : Js Event :=
  match path with
  | [] => ret e
  | n :: path' =>
      let* w := get in
      let hs := match document w !! n with
                | Some el => listeners el
                | None => []
                end in
      let* e := invoke hs e in
      propagate path' e
  end.

(** [click] bubbles to the ancestors; [mouseenter] and [mouseleave] do not. *)
Definition bubbles (ty : string) : bool := String.eqb ty "click".

Definition dispatchEvent (ty : string) (target : nat) : Js Event :=
  let e := {| type := ty; target := target; defaultPrevented := false |} in
  let* w := get in
  propagate
    (target :: (if bubbles ty then ancestors (document w) target else [])) e.

Definition runObserverCallback (cb : ObserverCallback) (element : nat) : Js unit :=
  match cb with
  | FadeInSection config => fadeInSection config element
  | ProfilePulse => profilePulse element
  | FadeInCard projectCards => fadeInCard projectCards element
  | FadeInSkill skillTags => fadeInSkill skillTags element
  end.

(** [element] becomes visible: every observer watching it calls back with it
    and stops observing it. *)
Definition intersect (element : nat) : Js unit :=
  let* w := get in
  forEach (filter (fun o => fst o = element) (observed w))
    (fun o _ => runObserverCallback (snd o) element) ;;
  modify (fun w => with_observed (filter (fun o => fst o <> element) (observed w)) w).

Definition runCallback (cb : Callback) : Js unit :=
  match cb with
  | FadeInStart n => AnimationUtils.fadeIn_start n
  | FadeInEnd n => AnimationUtils.fadeIn_end n
  | PulseStart n => profilePulse_start n
  | SetTransform n v => update n (set_transform v)
  end.

End Run.

(** ** Views of the state used in the statements *)

Module Targets.
Import Dom Host Browser.

Definition nameElement (w : World) : option nat :=
  select_first (document w) (Descendant (ByClass "hero-content") (ByTag "h1")).

Definition taglineElement (w : World) : option nat :=
  select_first (document w) (ByClass "tagline").

Definition summaryElement (w : World) : option nat :=
  select_first (document w) (ByClass "summary-text").

(** [areAnimationsEnabled()] as a function of the state. *)
Definition animated (w : World) : bool :=
  Config.enabled (Config.animations (portfolioConfig w)) && negb (reducedMotion w).

(** Called with [element], the observer callback [cb] sets one timeout:
    the start of the element's fade-in, after [delay]. *)
Definition schedules (cb : ObserverCallback) (element : nat) (delay : Z) : Prop :=
  forall w,
    Run.runObserverCallback cb element w
    = (Normal tt, with_timers (timers w ++ [(delay, FadeInStart element)]) w).

(** In [w] every element of [elements] is observed with [cb], and the
    fade-in of the one at position [N] is delayed by [base + N * step]. *)
Definition staggered_from (base step : Z) (cb : ObserverCallback)
    (elements : list nat) (w : World) : Prop :=
  forall (N : nat) (element : nat),
    elements !! N = Some element ->
    (element, cb) ∈ observed w
    /\ schedules cb element (base + Z.of_nat N * step).

(** An element as it is once put below the connected node [p]. *)
Definition connect (p : option nat) (e : Element) : Element :=
  set_connected true (set_parent p e).

(** The part of an element that selectors read. *)
Definition shape (e : Element)
    : string * option string * list string * option string * option nat * bool :=
  (tagName e, idAttr e, classList e, href e, parentNode e, isConnected e).

Definition same_shapes (d d' : Document) : Prop :=
  shape <$> d = shape <$> d'.

(** [w] differs from [w0] by listeners only. *)
Definition listeners_only (w0 w : World) : Prop :=
  w = with_document (document w) w0 /\ same_shapes (document w) (document w0).

(** What [observeElements] adds to the observed targets. *)
Definition observing (w : World) (s : Selector) (cb : ObserverCallback)
    : list (nat * ObserverCallback) :=
  if selectorOk w s then map (fun e => (e, cb)) (select_all (document w) s) else [].

(** The nodes [updateUserInfo] assigns a text to: the targets of the fields
    that are provided. *)
Definition written_to (el : option nat) (value : option string) : list nat :=
  match el, value with
  | Some n, Some _ => [n]
  | _, _ => []
  end.

Definition written (userInfo : Sections.UserInfo) (w : World) : list nat :=
  written_to (nameElement w) (Sections.provided (Sections.name userInfo))
  ++ written_to (taglineElement w) (Sections.provided (Sections.tagline userInfo))
  ++ written_to (summaryElement w) (Sections.provided (Sections.summary userInfo)).

(** The nodes [n] and [t] are apart: neither is the other or one of its
    descendants. *)
Definition apart (d : Document) (n t : nat) : Prop :=
  (n ∉ subtree d t) /\ (t ∉ subtree d n).

(** One of the three guarded assignments of [updateUserInfo]. *)
Definition assign (el : option nat) (v : option string) : Js unit :=
  match el, v with
  | Some n, Some s => set_textContent n s
  | _, _ => ret tt
  end.

Definition in_document (w : World) (el : option nat) : Prop :=
  forall n, el = Some n -> exists e, document w !! n = Some e.

(** The nodes [addProject] leaves at the end of the document, when the grid
    is the node [grid] and the card becomes the node [card]. *)
Definition appended_card (grid card : nat) (projectData : Sections.ProjectData)
    : list Element :=
  [ add_listener "mouseleave" (OnCardHover card false)
      (add_listener "mouseenter" (OnCardHover card true)
         (connect (Some grid) (mkElement "article" None ["project-card"] None "")));
    connect (Some card)
      (mkElement "h3" None [] None (Sections.title projectData));
    connect (Some card)
      (mkElement "p" None ["project-description"] None
         (Sections.description projectData));
    connect (Some card)
      (mkElement "a" None ["project-link"] (Some (Sections.link projectData))
         "Ver Projeto") ].

(** The text of a node. *)
Definition text (w : World) (n : nat) : string :=
  textContent (document w) n.

(** From [w] to [w'] the node [n] is still in the document, with the text
    it had. *)
Definition kept (w w' : World) (n : nat) : Prop :=
  connected (document w') n = true /\ text w' n = text w n.

(** What the specification says of [updateUserInfo]: the target of a field
    that is omitted keeps its text. *)
Definition omitted_kept (userInfo : Sections.UserInfo) (w w' : World) : Prop :=
  (Sections.provided (Sections.name userInfo) = None ->
   forall n, nameElement w = Some n -> kept w w' n)
  /\ (Sections.provided (Sections.tagline userInfo) = None ->
      forall n, taglineElement w = Some n -> kept w w' n)
  /\ (Sections.provided (Sections.summary userInfo) = None ->
      forall n, summaryElement w = Some n -> kept w w' n).

End Targets.

(** ** A sample page *)

Module Sample.
Import Dom Host Browser Sections.

Definition leaf (e : Element) : Tree := Node e [].

(** Nodes, in document order:
    0 html, 1 header, 2 a, 3 section#hero, 4 .profile-picture-container,
    5 .hero-content, 6 h1, 7 .tagline, 8 .summary-text, 9 section#projects,
    10 .projects-grid, 11 .project-card, 12 .project-link,
    13 .project-card, 14 .project-link, 15 section#skills,
    16 .skills-grid, 17 .skill-tag, 18 .skill-tag. *)
Definition markup : Tree :=
  Node (mkElement "html" None [] None "")
    [ Node (mkElement "header" None [] None "")
        [ leaf (mkElement "a" None [] (Some "#projects") "Projetos") ];
      Node (mkElement "section" (Some "hero") [] None "")
        [ leaf (mkElement "div" None ["profile-picture-container"] None "");
          Node (mkElement "div" None ["hero-content"] None "")
            [ leaf (mkElement "h1" None [] None "Nome");
              leaf (mkElement "p" None ["tagline"] None "Desenvolvedor");
              leaf (mkElement "p" None ["summary-text"] None "Resumo") ] ];
      Node (mkElement "section" (Some "projects") [] None "")
        [ Node (mkElement "div" None ["projects-grid"] None "")
            [ Node (mkElement "article" None ["project-card"] None "")
                [ leaf (mkElement "a" None ["project-link"] (Some "#") "Ver Projeto") ];
              Node (mkElement "article" None ["project-card"] None "")
                [ leaf (mkElement "a" None ["project-link"]
                          (Some "https://example.org") "Ver Projeto") ] ] ];
      Node (mkElement "section" (Some "skills") [] None "")
        [ Node (mkElement "div" None ["skills-grid"] None "")
            [ leaf (mkElement "span" None ["skill-tag"] None "HTML");
              leaf (mkElement "span" None ["skill-tag"] None "CSS") ] ] ].

Definition world_of (d : Document) : World :=
  {| document := d; identOk := is_ident; reducedMotion := false;
     pageYOffset := 0%Q; scrollTop := 0%Q;
     portfolioConfig := Config.constructor;
     observed := []; timers := []; frames := []; scrollTarget := None;
     globalListeners := []; console := [] |}.

Definition world0 : World := world_of (page markup).

(** The node [n] of a page, for a node that is there. *)
Definition node (w : World) (n : nat) : Element :=
  default (mkElement "" None [] None "") (document w !! n).

(** A projects section whose one card has a placeholder link that wraps
    its label in an element.  Nodes: 0 html, 1 section#projects,
    2 .projects-grid, 3 .project-card, 4 .project-link, 5 span. *)
Definition wrapped : Tree :=
  Node (mkElement "html" None [] None "")
    [ Node (mkElement "section" (Some "projects") [] None "")
        [ Node (mkElement "div" None ["projects-grid"] None "")
            [ Node (mkElement "article" None ["project-card"] None "")
                [ Node (mkElement "a" None ["project-link"] (Some "#") "")
                    [ leaf (mkElement "span" None [] None "Ver Projeto") ] ] ] ] ].

Definition world1 : World := world_of (page wrapped).

(** A hero whose targets are nested: the summary holds the heading, and
    the heading holds the tagline.  Nodes: 0 html,
    1 .hero-content.summary-text, 2 h1, 3 .tagline. *)
Definition nested : Tree :=
  Node (mkElement "html" None [] None "")
    [ Node (mkElement "div" None ["hero-content"; "summary-text"] None "Resumo: ")
        [ Node (mkElement "h1" None [] None "Nome")
            [ leaf (mkElement "span" None ["tagline"] None "Dev") ] ] ].

Definition world2 : World := world_of (page nested).

(** A hero whose heading is also the tagline.  Nodes: 0 html,
    1 .hero-content, 2 h1.tagline. *)
Definition shared : Tree :=
  Node (mkElement "html" None [] None "")
    [ Node (mkElement "div" None ["hero-content"] None "")
        [ leaf (mkElement "h1" None ["tagline"] None "Nome") ] ].

Definition world3 : World := world_of (page shared).

(** A page with no section at all. *)
Definition bare : World := world_of (page (leaf (mkElement "html" None [] None ""))).

Definition page0 : App.Page :=
  {| App.world := world0; App.app := App.constructor;
     App.readyState := App.Interactive;
     App.domContentLoaded := []; App.microtasks := [] |}.

End Sample.

(** ** main.js: [debounce] against the host's timers *)

Module Timing.

Section Debounce.

(** The arguments of one call of the debounced function. *)
Context {A : Type}.
Variable wait : Z.

(** A pending timeout of the closure [later], which holds the arguments of
    the call that set it. *)
Record Timer := {
  id : nat;
  due : Z;
  args : A
}.

Record State := {
  now : Z;
  nextId : nat;
  pending : list Timer;
  (** the variable [timeout] of the closure, [undefined] at first *)
  timeout : option nat;
  (** the calls of [func]: when, and with which arguments *)
  invoked : list (Z * A)
}.

Definition start : State :=
  {| now := 0; nextId := 1; pending := []; timeout := None; invoked := [] |}.

Definition clearTimeout (t : option nat) (s : State) : State :=
  match t with
  | None => s
  | Some i =>
      {| now := now s; nextId := nextId s;
         pending := filter (fun tm => id tm <> i) (pending s);
         timeout := timeout s; invoked := invoked s |}
  end.

Definition setTimeout (a : A) (delay : Z) (s : State) : nat * State :=
  (nextId s,
   {| now := now s; nextId := S (nextId s);
      pending := pending s ++ [{| id := nextId s; due := now s + Z.max 0 delay; args := a |}];
      timeout := timeout s; invoked := invoked s |}).

(** [func(...args)] *)
Definition func (a : A) (s : State) : State :=
  {| now := now s; nextId := nextId s; pending := pending s;
     timeout := timeout s; invoked := invoked s ++ [(now s, a)] |}.

Definition later (a : A) (s : State) : State :=
  func a (clearTimeout (timeout s) s).

Definition executedFunction (a : A) (s : State) : State :=
  let s := clearTimeout (timeout s) s in
  let (t, s) := setTimeout a wait s in
  {| now := now s; nextId := nextId s; pending := pending s;
     timeout := Some t; invoked := invoked s |}.

(** The pending timer that fires first: the least due time, and among
    equals the one set first. *)
Fixpoint earliest (l : list Timer) : option Timer :=
  match l with
  | [] => None
  | tm :: l' =>
      match earliest l' with
      | Some tm' => if due tm' <? due tm then Some tm' else Some tm
      | None => Some tm
      end
  end.

(** The host fires the timers that are due by [t], one at a time. *)
Fixpoint fire_due (fuel : nat) (t : Z) (s : State) : State :=
  match fuel with
  | O => s
  | S fuel' =>
      match earliest (pending s) with
      | Some tm =>
          if due tm <=? t then
            fire_due fuel' t
              (later (args tm)
                 {| now := Z.max (now s) (due tm); nextId := nextId s;
                    pending := filter (fun x => id x <> id tm) (pending s);
                    timeout := timeout s; invoked := invoked s |})
          else s
      | None => s
      end
  end.

(** Time passes until [t]. *)
Definition advance (t : Z) (s : State) : State :=
  let s := fire_due (List.length (pending s)) t s in
  {| now := Z.max (now s) t; nextId := nextId s; pending := pending s;
     timeout := timeout s; invoked := invoked s |}.

(** The debounced function is called at the given times with the given
    arguments. *)
Fixpoint calls (l : list (Z * A)) (s : State) : State :=
  match l with
  | [] => s
  | (t, a) :: l' => calls l' (executedFunction a (advance t s))
  end.

(** Consecutive calls are less than [gap] apart. *)
Fixpoint burst (gap : Z) (t : Z) (l : list (Z * A)) : Prop :=
  match l with
  | [] => True
  | (t', _) :: l' => t <= t' < t + gap /\ burst gap t' l'
  end.

(** The last call of a burst that starts with [first]. *)
Fixpoint final (first : Z * A) (l : list (Z * A)) : Z * A :=
  match l with
  | [] => first
  | x :: l' => final x l'
  end.

(** One timeout is pending: that of the call made at [t] with [a]; [func]
    has not been called. *)
Definition armed (s : State) (t : Z) (a : A) : Prop :=
  exists i,
    pending s = [{| id := i; due := t + wait; args := a |}]
    /\ timeout s = Some i /\ invoked s = [] /\ now s = t.

End Debounce.

End Timing.

(** ** main.js: what [debounce] lets through, for any sequence of calls *)

Module Settling.
Import Timing.

Section Settled.
Context {A : Type}.
Variable wait : Z.

(** The calls come in the order of their times, none before [t]. *)
Fixpoint ascending (t : Z) (l : list (Z * A)) : Prop :=
  match l with
  | [] => True
  | (t', _) :: l' => t <= t' /\ ascending t' l'
  end.

(** The calls that are not followed by another call before [wait] has
    passed, each moved to the time its timeout fires. *)
Fixpoint settled (l : list (Z * A)) : list (Z * A) :=
  match l with
  | [] => []
  | (t, a) :: l' =>
      match l' with
      | [] => [(t + wait, a)]
      | (t', _) :: _ =>
          if t + wait <=? t' then (t + wait, a) :: settled l' else settled l'
      end
  end.

(** One timeout is pending, that of the call made at [t] with [a], and
    [func] has been called as [log] tells. *)
Definition armed_with (log : list (Z * A)) (s : State) (t : Z) (a : A) : Prop :=
  exists i,
    pending s = [{| id := i; due := t + wait; args := a |}]
    /\ timeout s = Some i /\ invoked s = log /\ now s = t.

End Settled.

End Settling.

(** ** main.js: [throttle] against the host's timers *)

Module Throttling.

Section Throttle.

(** The arguments of one call of the throttled function. *)
Context {A : Type}.
Variable limit : Z.

Record State := {
  now : Z;
  (** the due times of the pending timeouts; each one runs
      [() => inThrottle = false] *)
  pending : list Z;
  (** the variable [inThrottle] of the closure, [undefined] at first *)
  inThrottle : bool;
  (** the calls of [func]: when, and with which arguments *)
  invoked : list (Z * A)
}.

Definition start : State :=
  {| now := 0; pending := []; inThrottle := false; invoked := [] |}.

Definition setTimeout (delay : Z) (s : State) : State :=
  {| now := now s; pending := pending s ++ [now s + Z.max 0 delay];
     inThrottle := inThrottle s; invoked := invoked s |}.

(** [func.apply(this, args)] *)
Definition func (a : A) (s : State) : State :=
  {| now := now s; pending := pending s; inThrottle := inThrottle s;
     invoked := invoked s ++ [(now s, a)] |}.

Definition set_inThrottle (b : bool) (s : State) : State :=
  {| now := now s; pending := pending s; inThrottle := b; invoked := invoked s |}.

(** The function [throttle] returns. *)
Definition throttled (a : A) (s : State) : State :=
  if inThrottle s then s
  else setTimeout limit (set_inThrottle true (func a s)).

(** The least of the due times. *)
Fixpoint earliest (l : list Z) : option Z :=
  match l with
  | [] => None
  | d :: l' =>
      match earliest l' with
      | Some d' => if d' <? d then Some d' else Some d
      | None => Some d
      end
  end.

Fixpoint remove_first (d : Z) (l : list Z) : list Z :=
  match l with
  | [] => []
  | x :: l' => if Z.eqb x d then l' else x :: remove_first d l'
  end.

(** The host fires the timers that are due by [t], one at a time. *)
Fixpoint fire_due (fuel : nat) (t : Z) (s : State) : State :=
  match fuel with
  | O => s
  | S fuel' =>
      match earliest (pending s) with
      | Some d =>
          if d <=? t then
            fire_due fuel' t
              (set_inThrottle false
                 {| now := Z.max (now s) d; pending := remove_first d (pending s);
                    inThrottle := inThrottle s; invoked := invoked s |})
          else s
      | None => s
      end
  end.

(** Time passes until [t]. *)
Definition advance (t : Z) (s : State) : State :=
  let s := fire_due (List.length (pending s)) t s in
  {| now := Z.max (now s) t; pending := pending s;
     inThrottle := inThrottle s; invoked := invoked s |}.

(** The throttled function is called at the given times with the given
    arguments. *)
Fixpoint calls (l : list (Z * A)) (s : State) : State :=
  match l with
  | [] => s
  | (t, a) :: l' => calls l' (throttled a (advance t s))
  end.

(** The calls that get through when the next one is accepted from
    [ready] on: a call at [t] that gets through closes the gate until
    [t + limit]. *)
Fixpoint passed (ready : Z) (l : list (Z * A)) : list (Z * A) :=
  match l with
  | [] => []
  | (t, a) :: l' =>
      if ready <=? t then (t, a) :: passed (t + limit) l' else passed ready l'
  end.

(** Consecutive entries are at least [limit] apart. *)
Fixpoint spaced (l : list (Z * A)) : Prop :=
  match l with
  | [] => True
  | (t, _) :: l' =>
      match l' with
      | [] => True
      | (t', _) :: _ => t + limit <= t'
      end /\ spaced l'
  end.

(** The gate opens at [r]: either a timeout due at [r] is pending, or the
    gate is open and [r] has passed. *)
Definition gate (s : State) (r : Z) : Prop :=
  (inThrottle s = true /\ pending s = [r])
  \/ (inThrottle s = false /\ pending s = [] /\ r <= now s).

End Throttle.

End Throttling.

(** ** Notions used in the further statements *)

Module Notions.
Import Dom Host Browser Targets.

(** The patch that has the fields of [later] where it has them, and those
    of [earlier] elsewhere. *)
Definition patch_over (later earlier : Config.AnimationPatch) : Config.AnimationPatch :=
  {| Config.newEnabled :=
       match Config.newEnabled later with
       | Some b => Some b
       | None => Config.newEnabled earlier
       end;
     Config.newDuration :=
       match Config.newDuration later with
       | Some d => Some d
       | None => Config.newDuration earlier
       end;
     Config.newEasing :=
       match Config.newEasing later with
       | Some e => Some e
       | None => Config.newEasing earlier
       end |}.

(** The node [addSkill] leaves at the end of the document, when the grid is
    the node [grid] and the tag becomes the node [tag]. *)
Definition appended_tag (grid tag : nat) (skillName : string) : Element :=
  add_listener "click" (OnSkillClick tag)
    (connect (Some grid) (mkElement "span" None ["skill-tag"] None skillName)).

(** The message [DOMUtils.querySelector] logs for a selector the host
    rejects, and that of [DOMUtils.querySelectorAll]. *)
Definition warning (s : Selector) : string :=
  "Erro ao selecionar elemento: " +:+ selector_text s.

Definition warning_all (s : Selector) : string :=
  "Erro ao selecionar elementos: " +:+ selector_text s.

(** From [w1] to [w2] every node is still there and is as it was, but for
    listeners added after those it had. *)
Definition grown (w1 w2 : World) : Prop :=
  forall n e1,
    document w1 !! n = Some e1 ->
    exists more, document w2 !! n = Some (add_listeners more e1).

(** The node [n] has the listener [h] for events of type [ty]. *)
Definition listens (w : World) (n : nat) (ty : string) (h : Handler) : Prop :=
  exists e, document w !! n = Some e /\ (ty, h) ∈ listeners e.

(** The class of a section object. *)
Definition kind (section : App.AnySection) : App.SectionClass :=
  match section with
  | App.IsHero _ => App.HeroClass
  | App.IsProjects _ => App.ProjectsClass
  | App.IsSkills _ => App.SkillsClass
  end.

(** The nodes a section object holds are nodes of the document. *)
Definition holds_nodes (w : World) (section : App.AnySection) : Prop :=
  match section with
  | App.IsHero s =>
      forall p, Sections.profilePicture s = Some p -> exists e, document w !! p = Some e
  | App.IsProjects s =>
      Forall (fun n => exists e, document w !! n = Some e) (Sections.projectCards s)
  | App.IsSkills s =>
      Forall (fun n => exists e, document w !! n = Some e) (Sections.skillTags s)
  end.

(** From [w] to [w'] only listeners and observations were added, and
    possibly lines of the console: the document has the same nodes, each as
    it was but for listeners added; the observations and the console have
    grown at their ends; everything else is as it was. *)
Definition wired_only (w w' : World) : Prop :=
  w' = with_console (console w')
         (with_observed (observed w') (with_document (document w') w))
  /\ same_shapes (document w') (document w)
  /\ grown w w'
  /\ (exists more, observed w' = observed w ++ more)
  /\ (exists lines, console w' = console w ++ lines).

(** A computation that, however it ends, leaves what selectors read of
    every node as it was. *)
Definition tame {X} (m : Js X) : Prop :=
  forall w, same_shapes (document (snd (m w))) (document w).

(** Every value a computation returns satisfies [Q]. *)
Definition returns {X} (m : Js X) (Q : X -> Prop) : Prop :=
  forall w x w', m w = (Normal x, w') -> Q x.

(** A computation that never throws. *)
Definition total {X} (m : Js X) : Prop :=
  forall w, exists x w', m w = (Normal x, w').

(** [e'] is the event [e], possibly with its default action prevented
    meanwhile. *)
Definition later_event (e e' : Sections.Event) : Prop :=
  Sections.type e' = Sections.type e
  /\ Sections.target e' = Sections.target e
  /\ (Sections.defaultPrevented e = true -> Sections.defaultPrevented e' = true).

(** Everything of an element but its inline styles. *)
Definition unstyled (e : Element)
    : string * option string * list string * option string * string
      * Z * option nat * bool * list (string * Handler) :=
  (tagName e, idAttr e, classList e, href e, data e,
   offsetTop e, parentNode e, isConnected e, listeners e).

End Notions.

(** * Properties *)

Import Dom Host Browser Sections.

Ltac js_unfold :=
  unfold bind, ret, get, modify, try_catch, throw, exec, eval.

(** ** config.js *)

(** C3. [areAnimationsEnabled()] returns [animations.enabled] and not
    reduced-motion, for every stored flag and every state of the media
    query, and leaves the state alone; when the media query matches, the
    result is [false] whatever the stored flag is. *)
Theorem C3_areAnimationsEnabled (w : World) :
  PortfolioConfig.areAnimationsEnabled w
  = (Normal (Config.enabled (Config.animations (portfolioConfig w))
             && negb (reducedMotion w)), w)
  /\ (reducedMotion w = true ->
      eval PortfolioConfig.areAnimationsEnabled w = Normal false).
Proof.
  unfold PortfolioConfig.areAnimationsEnabled, matchMedia_reducedMotion.
  js_unfold.
  destruct (Config.enabled (Config.animations (portfolioConfig w))) eqn:He;
    simpl; rewrite ?He; simpl; split; auto.
  intros ->. reflexivity.
Qed.

Lemma C3_areAnimationsEnabled_witness :
  reducedMotion (with_reducedMotion true Sample.world0) = true
  /\ eval PortfolioConfig.areAnimationsEnabled
       (with_reducedMotion true Sample.world0) = Normal false.
Proof.
  split; [reflexivity |].
  apply (proj2 (C3_areAnimationsEnabled (with_reducedMotion true Sample.world0))).
  reflexivity.
Defined.

(** ** The document store *)

Lemma select_all_lookup (d : Document) (s : Selector) (n : nat) :
  n ∈ select_all d s -> exists e, d !! n = Some e.
Proof.
  unfold select_all. intros Hn.
  apply list_elem_of_filter in Hn as [_ Hn].
  apply elem_of_seq in Hn.
  apply lookup_lt_is_Some. lia.
Qed.

Lemma select_first_lookup (d : Document) (s : Selector) (n : nat) :
  select_first d s = Some n -> exists e, d !! n = Some e.
Proof.
  unfold select_first. intros Hn.
  apply (select_all_lookup d s). apply head_Some_elem_of. exact Hn.
Qed.

Lemma select_all_NoDup (d : Document) (s : Selector) : NoDup (select_all d s).
Proof. unfold select_all. apply NoDup_filter, NoDup_seq. Qed.

Lemma update_found (n : nat) (f : Element -> Element) (w : World) (e : Element) :
  document w !! n = Some e ->
  update n f w = (Normal tt, with_document (alter f n (document w)) w).
Proof.
  intros He. unfold update, deref. js_unfold. rewrite He. reflexivity.
Qed.

Lemma update_missing (n : nat) (f : Element -> Element) (w : World) :
  document w !! n = None ->
  update n f w = (Throw (TypeError "not an element"), w).
Proof.
  intros He. unfold update, deref. js_unfold. rewrite He. reflexivity.
Qed.

Lemma validate_token_ok (c : string) (w : World) :
  c <> "" -> has_whitespace c = false -> validate_token c w = (Normal tt, w).
Proof.
  intros Hc Hws. unfold validate_token.
  destruct (String.eqb_spec c "") as [-> | _]; [contradiction |].
  rewrite Hws. reflexivity.
Qed.

Lemma validate_token_whitespace (c : string) (w : World) :
  c <> "" -> has_whitespace c = true ->
  validate_token c w = (Throw (DOMException "InvalidCharacterError"), w).
Proof.
  intros Hc Hws. unfold validate_token.
  destruct (String.eqb_spec c "") as [-> | _]; [contradiction |].
  rewrite Hws. reflexivity.
Qed.

Lemma classList_add_run (n : nat) (c : string) (w : World) (e : Element) :
  document w !! n = Some e -> c <> "" -> has_whitespace c = false ->
  classList_add n c w
  = (Normal tt, with_document (alter (add_token c) n (document w)) w).
Proof.
  intros He Hc Hws. unfold classList_add, bind. unfold deref at 1. rewrite He.
  rewrite (validate_token_ok c w Hc Hws). apply (update_found n _ w e He).
Qed.

Lemma classList_remove_run (n : nat) (c : string) (w : World) (e : Element) :
  document w !! n = Some e -> c <> "" -> has_whitespace c = false ->
  classList_remove n c w
  = (Normal tt, with_document (alter (remove_token c) n (document w)) w).
Proof.
  intros He Hc Hws. unfold classList_remove, bind. unfold deref at 1. rewrite He.
  rewrite (validate_token_ok c w Hc Hws). apply (update_found n _ w e He).
Qed.

Lemma classList_add_whitespace (n : nat) (c : string) (w : World) (e : Element) :
  document w !! n = Some e -> c <> "" -> has_whitespace c = true ->
  classList_add n c w = (Throw (DOMException "InvalidCharacterError"), w).
Proof.
  intros He Hc Hws. unfold classList_add, bind. unfold deref at 1. rewrite He.
  rewrite (validate_token_whitespace c w Hc Hws). reflexivity.
Qed.

Lemma classList_remove_whitespace (n : nat) (c : string) (w : World) (e : Element) :
  document w !! n = Some e -> c <> "" -> has_whitespace c = true ->
  classList_remove n c w = (Throw (DOMException "InvalidCharacterError"), w).
Proof.
  intros He Hc Hws. unfold classList_remove, bind. unfold deref at 1. rewrite He.
  rewrite (validate_token_whitespace c w Hc Hws). reflexivity.
Qed.

Lemma string_in_spec (c : string) (l : list string) :
  string_in c l = true <-> c ∈ l.
Proof.
  unfold string_in. rewrite existsb_exists. split.
  - intros (x & Hx & Heq). apply String.eqb_eq in Heq. subst.
    apply list_elem_of_In. exact Hx.
  - intros Hc. exists c. split; [apply list_elem_of_In; exact Hc |].
    apply String.eqb_refl.
Qed.

Lemma classList_add_contains (c : string) (e : Element) :
  classList_contains c (add_token c e) = true.
Proof.
  unfold classList_contains, add_token.
  destruct (string_in c (classList e)) eqn:Hin; [exact Hin |].
  simpl. apply string_in_spec. apply elem_of_app. right. apply list_elem_of_singleton.
  reflexivity.
Qed.

Lemma classList_remove_contains (c : string) (e : Element) :
  classList_contains c (remove_token c e) = false.
Proof.
  unfold classList_contains, remove_token. simpl.
  destruct (string_in c _) eqn:Hin; [| reflexivity].
  apply string_in_spec in Hin. apply list_elem_of_filter in Hin as [Hne _].
  congruence.
Qed.

(** ** main.js: the scroll handler *)

(** C8. With a header in the page, after the scroll handler has run the
    header has the class "scrolled" exactly when the scroll position is
    above 100, where the scroll position is [window.pageYOffset], or
    [document.documentElement.scrollTop] when that is 0.  In a state whose
    scroll position is [p], the header has the class if and only if
    [100 < p]: at 101 it has it, at 100 it does not. *)
Theorem C8_handleScroll_threshold (w : World) (h : nat) :
  select_first (document w) (ByTag "header") = Some h ->
  exists w',
    App.handleScroll w = (Normal tt, w')
    /\ eval (DOMUtils.hasClass (Some h) "scrolled") w'
       = Normal (App.above (if Qeq_bool (pageYOffset w) 0 then scrollTop w
                            else pageYOffset w) 100)
    /\ (forall p, Qeq (pageYOffset w) p -> Qeq (scrollTop w) p ->
        (eval (DOMUtils.hasClass (Some h) "scrolled") w' = Normal true
         <-> Qlt 100 p)
        /\ (eval (DOMUtils.hasClass (Some h) "scrolled") w' = Normal false
            <-> Qle p 100))
    /\ (Qeq (pageYOffset w) 101 ->
        eval (DOMUtils.hasClass (Some h) "scrolled") w' = Normal true)
    /\ (Qeq (pageYOffset w) 100 ->
        eval (DOMUtils.hasClass (Some h) "scrolled") w' = Normal false).
Proof.
  intros Hh.
  destruct (select_first_lookup _ _ _ Hh) as [e He].
  set (p := if Qeq_bool (pageYOffset w) 0 then scrollTop w else pageYOffset w).
  assert (Hstep : forall f,
             eval (DOMUtils.hasClass (Some h) "scrolled")
               (with_document (alter f h (document w)) w)
             = Normal (classList_contains "scrolled" (f e))).
  { intros f. unfold DOMUtils.hasClass, deref. js_unfold. simpl.
    rewrite list_lookup_alter_eq, He. reflexivity. }
  assert (Hrun : App.handleScroll w
                 = (Normal tt,
                    with_document
                      (alter (if App.above p 100 then add_token "scrolled"
                              else remove_token "scrolled") h (document w)) w)).
  { unfold App.handleScroll, ScrollUtils.getScrollPosition, DOMUtils.querySelector,
      document_querySelector.
    js_unfold. simpl. rewrite Hh. fold p.
    destruct (App.above p 100) eqn:Hp.
    - unfold DOMUtils.addClass. simpl.
      apply (classList_add_run h _ w e He); [discriminate | reflexivity].
    - unfold DOMUtils.removeClass. simpl.
      apply (classList_remove_run h _ w e He); [discriminate | reflexivity]. }
  assert (Hhas : eval (DOMUtils.hasClass (Some h) "scrolled")
                   (with_document
                      (alter (if App.above p 100 then add_token "scrolled"
                              else remove_token "scrolled") h (document w)) w)
                 = Normal (App.above p 100)).
  { rewrite Hstep. destruct (App.above p 100).
    - rewrite classList_add_contains. reflexivity.
    - rewrite classList_remove_contains. reflexivity. }
  assert (Habove : forall q, Qeq p q ->
             (App.above p 100 = true <-> Qlt 100 q)
             /\ (App.above p 100 = false <-> Qle q 100)).
  { intros q Hq. unfold App.above.
    destruct (Qle_bool p 100) eqn:Hle; simpl.
    - apply Qle_bool_iff in Hle. rewrite Hq in Hle. split; split; intros H.
      + discriminate.
      + exfalso. apply (Qlt_not_le _ _ H). exact Hle.
      + exact Hle.
      + reflexivity.
    - assert (Hnle : ~ Qle q 100).
      { intros H. rewrite <- Hq in H. apply Qle_bool_iff in H. congruence. }
      split; split; intros H.
      + apply Qnot_le_lt. exact Hnle.
      + reflexivity.
      + discriminate.
      + contradiction. }
  assert (Hp_of : forall q, Qeq (pageYOffset w) q ->
                            (Qeq q 0 -> Qeq (scrollTop w) q) -> Qeq p q).
  { intros q Hy Ht. unfold p. destruct (Qeq_bool (pageYOffset w) 0) eqn:Hz.
    - apply Qeq_bool_iff in Hz. apply Ht. rewrite <- Hy. exact Hz.
    - exact Hy. }
  eexists. split; [exact Hrun |]. split; [exact Hhas |].
  split; [| split].
  - intros q Hy Ht. rewrite Hhas.
    destruct (Habove q (Hp_of q Hy (fun _ => Ht))) as [[H1 H2] [H3 H4]].
    split; split; intros H.
    + apply H1. inversion H. reflexivity.
    + f_equal. apply H2. exact H.
    + apply H3. inversion H. reflexivity.
    + f_equal. apply H4. exact H.
  - intros Hy. rewrite Hhas. f_equal.
    apply (proj1 (Habove 101%Q (Hp_of 101%Q Hy
                                  (fun H => ltac:(exfalso; discriminate H))))).
    reflexivity.
  - intros Hy. rewrite Hhas. f_equal.
    apply (proj2 (Habove 100%Q (Hp_of 100%Q Hy
                                  (fun H => ltac:(exfalso; discriminate H))))).
    discriminate.
Qed.

(** On the sample page: scrolled to 101 the header gets the class, scrolled
    to 100.5 too, and scrolled to 100 a header that has the class loses
    it. *)
Lemma C8_handleScroll_threshold_witness :
  (exists w',
      App.handleScroll (with_scroll 101 101 Sample.world0) = (Normal tt, w')
      /\ eval (DOMUtils.hasClass (Some 1%nat) "scrolled") w' = Normal true)
  /\ (exists w',
         App.handleScroll (with_scroll (201 # 2) (201 # 2) Sample.world0)
         = (Normal tt, w')
         /\ eval (DOMUtils.hasClass (Some 1%nat) "scrolled") w' = Normal true)
  /\ (exists w',
         App.handleScroll
           (with_scroll 100 100 (exec (DOMUtils.addClass (Some 1%nat) "scrolled")
                                   Sample.world0))
         = (Normal tt, w')
         /\ eval (DOMUtils.hasClass (Some 1%nat) "scrolled") w' = Normal false).
Proof.
  split; [| split].
  - destruct (C8_handleScroll_threshold (with_scroll 101 101 Sample.world0) 1%nat
                eq_refl) as (w' & Hrun & _ & _ & Hset & _).
    exists w'. split; [exact Hrun | apply Hset; reflexivity].
  - destruct (C8_handleScroll_threshold
                (with_scroll (201 # 2) (201 # 2) Sample.world0) 1%nat
                eq_refl) as (w' & Hrun & _ & Hiff & _).
    exists w'. split; [exact Hrun |].
    apply (Hiff (201 # 2)); reflexivity.
  - destruct (C8_handleScroll_threshold
                (with_scroll 100 100 (exec (DOMUtils.addClass (Some 1%nat) "scrolled")
                                        Sample.world0)) 1%nat
                eq_refl) as (w' & Hrun & _ & _ & _ & Hunset).
    exists w'. split; [exact Hrun | apply Hunset; reflexivity].
Defined.

(** ** sections.js: clicks on project links *)

Lemma is_placeholder_spec (href : option string) :
  is_placeholder href = true <-> href = Some "#".
Proof.
  destruct href as [h |]; simpl.
  - rewrite String.eqb_eq. split; congruence.
  - split; congruence.
Qed.

(** The project click handler prevents the default action of a click, and
    logs, if and only if the [href] attribute of the event's target is
    exactly "#"; for any other [href], or none, it leaves the event and the
    page as they are. *)
Lemma handleProjectClick_target (event : Event) (projectIndex : nat)
    (w : World) (clicked : Element) :
  document w !! target event = Some clicked ->
  defaultPrevented event = false ->
  exists event' w',
    handleProjectClick event projectIndex w = (Normal event', w')
    /\ (defaultPrevented event' = true <-> href clicked = Some "#")
    /\ (href clicked = Some "#" ->
        console w' = console w ++ ["Projeto " +:+ pretty (projectIndex + 1)%nat
                                     +:+ " clicado - Configure o link real"])
    /\ (href clicked <> Some "#" -> event' = event /\ w' = w).
Proof.
  intros Hlink Hdef.
  unfold handleProjectClick, getAttribute_href, deref, console_log. js_unfold.
  rewrite Hlink.
  destruct (is_placeholder (href clicked)) eqn:Hp.
  - apply is_placeholder_spec in Hp.
    eexists _, _. split; [reflexivity |]. simpl.
    repeat split; auto; congruence.
  - assert (Hne : href clicked <> Some "#").
    { intros Heq. apply is_placeholder_spec in Heq. congruence. }
    eexists _, _. split; [reflexivity |].
    repeat split; auto; congruence.
Qed.

(** C7, on a page whose placeholder link wraps its label in an element.
    After [init()] the link, with [href] "#", has the click listener.  A
    click on the link itself is prevented and logged.  A click on the
    element inside the link reaches the same listener, which reads the
    [href] of [event.target], the inner element: the click is not
    prevented and nothing is logged, though the [href] of the link is
    exactly "#". *)
Theorem C7_click_inside_placeholder_link :
  let w := exec (let* s := ProjectsSection_constructor in init s) Sample.world1 in
  href <$> document w !! 4%nat = Some (Some "#")
  /\ listeners <$> document w !! 4%nat = Some [("click", OnProjectClick 0)]
  /\ console w = []
  /\ eval (Run.dispatchEvent "click" 4) w
     = Normal {| type := "click"; target := 4; defaultPrevented := true |}
  /\ console (exec (Run.dispatchEvent "click" 4) w)
     = ["Projeto 1 clicado - Configure o link real"]
  /\ ancestors (document w) 5 = [4; 3; 2; 1; 0]%nat
  /\ listeners <$> document w !! 5%nat = Some []
  /\ eval (Run.dispatchEvent "click" 5) w
     = Normal {| type := "click"; target := 5; defaultPrevented := false |}
  /\ console (exec (Run.dispatchEvent "click" 5) w) = [].
Proof. vm_compute. repeat split; reflexivity. Qed.

(** ** sections.js: construction and [init] *)

(** [DOMUtils.querySelector] never throws: it answers with the first match,
    or with [null] after a warning when the host rejects the selector. *)
Lemma querySelector_cases (s : Selector) (w : World) :
  DOMUtils.querySelector s w
  = if selectorOk w s then (Normal (select_first (document w) s), w)
    else (Normal None,
          with_console
            (console w ++ ["Erro ao selecionar elemento: " +:+ selector_text s]) w).
Proof.
  unfold DOMUtils.querySelector, document_querySelector, console_warn, console_log.
  js_unfold. destruct (selectorOk w s); reflexivity.
Qed.

Lemma querySelectorAll_cases (s : Selector) (w : World) :
  DOMUtils.querySelectorAll s w
  = if selectorOk w s then (Normal (select_all (document w) s), w)
    else (Normal [],
          with_console
            (console w ++ ["Erro ao selecionar elementos: " +:+ selector_text s]) w).
Proof.
  unfold DOMUtils.querySelectorAll, document_querySelectorAll, console_warn, console_log.
  js_unfold. destruct (selectorOk w s); reflexivity.
Qed.

(** C5. When no element of the document has the section's id, constructing
    the section controller returns normally (for the base class with any
    id, and for each of the three classes), it changes nothing but possibly
    the console, and [init()] then returns at once: the state is as before,
    no listener or observer is added, and [isInitialized] is still false. *)
Theorem C5_absent_section (sectionId : string) (w : World) :
  select_first (document w) (ById sectionId) = None ->
  (exists this w',
      BaseSection_constructor sectionId w = (Normal this, w')
      /\ w' = with_console (console w') w
      /\ init this w' = (Normal this, w')
      /\ isInitialized this = false)
  /\ (forall c, App.class_id c = sectionId ->
      exists section w',
        App.construct c w = (Normal section, w')
        /\ w' = with_console (console w') w
        /\ App.section_init section w' = (Normal section, w')
        /\ isInitialized (App.section_base section) = false).
Proof.
  intros Habs.
  assert (Hbase : exists w',
             BaseSection_constructor sectionId w
             = (Normal {| sectionId := sectionId; element := None;
                          config := Config.getSectionConfig (portfolioConfig w) sectionId;
                          isInitialized := false |}, w')
             /\ w' = with_console (console w') w).
  { unfold BaseSection_constructor, PortfolioConfig.getSectionConfig.
    unfold bind at 1. rewrite querySelector_cases. simpl.
    destruct (identOk w sectionId).
    - rewrite Habs. js_unfold. exists w. split; [reflexivity |].
      destruct w; reflexivity.
    - js_unfold. eexists. split; [reflexivity |]. reflexivity. }
  destruct Hbase as (w' & Hctor & Hw').
  split.
  - eexists _, w'. split; [exact Hctor |]. split; [exact Hw' |].
    split; reflexivity.
  - intros c Hc.
    destruct c; simpl in Hc; subst sectionId; unfold App.construct.
    + unfold HeroSection_constructor, bind. rewrite Hctor.
      rewrite querySelector_cases. simpl. js_unfold.
      eexists _, w'. split; [reflexivity |]. split; [exact Hw' |].
      split; reflexivity.
    + unfold ProjectsSection_constructor, bind. rewrite Hctor.
      rewrite querySelectorAll_cases. simpl. js_unfold.
      eexists _, w'. split; [reflexivity |]. split; [exact Hw' |].
      split; reflexivity.
    + unfold SkillsSection_constructor, bind. rewrite Hctor.
      rewrite querySelectorAll_cases. simpl. js_unfold.
      eexists _, w'. split; [reflexivity |]. split; [exact Hw' |].
      split; reflexivity.
Qed.

Lemma C5_absent_section_witness :
  (exists this w',
      BaseSection_constructor "hero" Sample.bare = (Normal this, w')
      /\ w' = with_console (console w') Sample.bare
      /\ init this w' = (Normal this, w')
      /\ isInitialized this = false)
  /\ (forall c, App.class_id c = "hero" ->
      exists section w',
        App.construct c Sample.bare = (Normal section, w')
        /\ w' = with_console (console w') Sample.bare
        /\ App.section_init section w' = (Normal section, w')
        /\ isInitialized (App.section_base section) = false).
Proof. apply (C5_absent_section "hero" Sample.bare). reflexivity. Defined.

(** ** sections.js: [updateUserInfo] *)

Import Targets.

(** *** Subtrees and their text *)

Lemma children_elem (d : Document) (n m : nat) :
  m ∈ children d n <-> (n < m)%nat /\ d !! m ≫= parentNode = Some n.
Proof.
  unfold children. rewrite list_elem_of_filter, elem_of_seq. split.
  - intros [H _]. exact H.
  - intros [Hlt Hp]. split; [split; assumption |].
    destruct (d !! m) as [e |] eqn:He; [| discriminate].
    apply lookup_lt_Some in He. lia.
Qed.

Lemma subtree_from_self (f : nat) (d : Document) (n : nat) :
  n ∈ subtree_from (S f) d n.
Proof. simpl. left. Qed.

Lemma subtree_self (d : Document) (n : nat) (e : Element) :
  d !! n = Some e -> n ∈ subtree d n.
Proof.
  intros He. unfold subtree. apply lookup_lt_Some in He.
  destruct (List.length d) as [| f]; [lia |]. apply subtree_from_self.
Qed.

Lemma subtree_child (d : Document) (n m : nat) :
  m ∈ children d n -> m ∈ subtree d n.
Proof.
  intros Hm. pose proof Hm as Hm'. apply children_elem in Hm' as [Hlt Hp].
  assert (Hlen : (m < List.length d)%nat).
  { destruct (d !! m) as [e |] eqn:He; [| discriminate].
    apply lookup_lt_Some in He. exact He. }
  unfold subtree. destruct (List.length d) as [| [| f]]; [lia | lia |].
  simpl. right. apply list_elem_of_In, in_flat_map. exists m. split.
  - apply list_elem_of_In. exact Hm.
  - left. reflexivity.
Qed.

Lemma subtree_from_ext (d d' : Document) (f : nat) :
  forall n,
    (forall m, m ∈ subtree_from f d n -> children d' m = children d m) ->
    subtree_from f d' n = subtree_from f d n.
Proof.
  induction f as [| f IH]; intros n H; [reflexivity |]. simpl.
  rewrite (H n) by apply subtree_from_self. f_equal.
  rewrite !flat_map_concat_map. f_equal. apply map_ext_in.
  intros k Hk. apply IH. intros m Hm. apply H.
  simpl. right. apply list_elem_of_In, in_flat_map. exists k.
  split; [exact Hk | apply list_elem_of_In; exact Hm].
Qed.

Lemma subtree_from_sub (d d' : Document) (f : nat) :
  (forall x, children d' x ⊆ children d x) ->
  forall n, subtree_from f d' n ⊆ subtree_from f d n.
Proof.
  intros Hsub. induction f as [| f IH]; intros n m Hm; [inversion Hm |].
  simpl in *. apply elem_of_cons in Hm as [-> | Hm]; [left |]. right.
  apply list_elem_of_In, in_flat_map in Hm as (k & Hk & Hm).
  apply list_elem_of_In, in_flat_map. exists k. split.
  - apply list_elem_of_In, Hsub, list_elem_of_In. exact Hk.
  - apply list_elem_of_In, IH, list_elem_of_In. exact Hm.
Qed.

Lemma subtree_sub (d d' : Document) :
  List.length d' = List.length d ->
  (forall x, children d' x ⊆ children d x) ->
  forall n, subtree d' n ⊆ subtree d n.
Proof.
  intros Hlen Hsub n. unfold subtree. rewrite Hlen. apply subtree_from_sub, Hsub.
Qed.

Lemma textContent_ext (d d' : Document) (n : nat) :
  List.length d' = List.length d ->
  (forall m, m ∈ subtree d n ->
             children d' m = children d m
             /\ data <$> d' !! m = data <$> d !! m) ->
  textContent d' n = textContent d n.
Proof.
  intros Hlen H. unfold textContent.
  assert (Hsame : subtree d' n = subtree d n).
  { unfold subtree. rewrite Hlen. apply subtree_from_ext.
    intros m Hm. apply H. exact Hm. }
  rewrite Hsame. f_equal. apply map_ext_in. intros m Hm.
  apply list_elem_of_In in Hm. destruct (H m Hm) as [_ Hd].
  destruct (d' !! m), (d !! m); simpl in Hd; congruence.
Qed.

(** *** Assigning [textContent] *)

Lemma set_textContent_length (s : string) (t : nat) (d : Document) :
  List.length (Dom.set_textContent s t d) = List.length d.
Proof. unfold Dom.set_textContent. apply length_imap. Qed.

Lemma set_textContent_self (s : string) (t : nat) (d : Document) (e : Element) :
  d !! t = Some e -> Dom.set_textContent s t d !! t = Some (set_data s e).
Proof.
  intros He. unfold Dom.set_textContent. rewrite list_lookup_imap, He. simpl.
  destruct (decide (t = t)); [reflexivity | congruence].
Qed.

Lemma set_textContent_outside (s : string) (t : nat) (d : Document) (n : nat) :
  n ∉ subtree d t -> Dom.set_textContent s t d !! n = d !! n.
Proof.
  intros Hout. unfold Dom.set_textContent. rewrite list_lookup_imap.
  destruct (d !! n) as [e |] eqn:He; [| reflexivity]. simpl.
  destruct (decide (n = t)) as [-> | Hne].
  - exfalso. apply Hout. apply (subtree_self d t e He).
  - destruct (decide (n ∈ subtree d t)); [contradiction | reflexivity].
Qed.

Lemma set_textContent_data (s : string) (t : nat) (d : Document) (m : nat) :
  m <> t -> data <$> Dom.set_textContent s t d !! m = data <$> d !! m.
Proof.
  intros Hne. unfold Dom.set_textContent. rewrite list_lookup_imap.
  destruct (d !! m) as [e |]; [| reflexivity]. simpl.
  destruct (decide (m = t)); [contradiction |].
  destruct (decide (m ∈ subtree d t)); [| reflexivity].
  destruct (decide (parentNode e = Some t)); reflexivity.
Qed.

Lemma set_textContent_parent (s : string) (t : nat) (d : Document) (m : nat) :
  Dom.set_textContent s t d !! m ≫= parentNode
  = if decide (m <> t /\ m ∈ subtree d t /\ d !! m ≫= parentNode = Some t)
    then None else d !! m ≫= parentNode.
Proof.
  unfold Dom.set_textContent. rewrite list_lookup_imap.
  destruct (d !! m) as [e |]; simpl.
  - destruct (decide (m = t)) as [-> | Hne].
    + destruct (decide _) as [[Habs _] | _]; [congruence | reflexivity].
    + destruct (decide (m ∈ subtree d t)) as [Hin | Hout].
      * destruct (decide (parentNode e = Some t)) as [Hp | Hp].
        -- destruct (decide _) as [_ | Habs]; [reflexivity |].
           exfalso. apply Habs. auto.
        -- destruct (decide _) as [(_ & _ & Habs) | _]; [contradiction | reflexivity].
      * destruct (decide _) as [(_ & Habs & _) | _]; [contradiction | reflexivity].
  - destruct (decide _); reflexivity.
Qed.

Lemma set_textContent_children_other (s : string) (t : nat) (d : Document) (x : nat) :
  x <> t -> children (Dom.set_textContent s t d) x = children d x.
Proof.
  intros Hne. unfold children. rewrite set_textContent_length.
  apply list_filter_iff. intros m. rewrite set_textContent_parent.
  destruct (decide _) as [(_ & _ & Hp) | _]; [| reflexivity].
  split; intros [_ H]; [discriminate | congruence].
Qed.

Lemma set_textContent_children_self (s : string) (t : nat) (d : Document) :
  children (Dom.set_textContent s t d) t = [].
Proof.
  destruct (children (Dom.set_textContent s t d) t) as [| m l] eqn:Hc; [reflexivity |].
  exfalso.
  assert (Hm : m ∈ children (Dom.set_textContent s t d) t) by (rewrite Hc; left).
  apply children_elem in Hm as [Hlt Hp]. rewrite set_textContent_parent in Hp.
  destruct (decide _) as [_ | Hno]; [discriminate |].
  apply Hno. split; [lia |]. split; [| exact Hp].
  apply subtree_child. apply children_elem. split; assumption.
Qed.

Lemma set_textContent_children_sub (s : string) (t : nat) (d : Document) (x : nat) :
  children (Dom.set_textContent s t d) x ⊆ children d x.
Proof.
  destruct (decide (x = t)) as [-> | Hne].
  - rewrite set_textContent_children_self. intros m Hm. inversion Hm.
  - rewrite (set_textContent_children_other s t d x Hne). reflexivity.
Qed.

Lemma set_textContent_text_other (s : string) (t : nat) (d : Document) (n : nat) :
  t ∉ subtree d n ->
  textContent (Dom.set_textContent s t d) n = textContent d n.
Proof.
  intros Hout. apply textContent_ext; [apply set_textContent_length |].
  intros m Hm. assert (Hne : m <> t) by (intros ->; contradiction).
  split.
  - apply set_textContent_children_other. exact Hne.
  - apply set_textContent_data. exact Hne.
Qed.

Lemma set_textContent_text_self (s : string) (t : nat) (d : Document) (e : Element) :
  d !! t = Some e -> textContent (Dom.set_textContent s t d) t = s.
Proof.
  intros He. unfold textContent, subtree. rewrite set_textContent_length.
  pose proof (lookup_lt_Some _ _ _ He) as Hlt.
  destruct (List.length d) as [| f]; [lia |]. simpl.
  rewrite set_textContent_children_self. simpl.
  rewrite (set_textContent_self s t d e He). simpl.
  destruct s; reflexivity.
Qed.

Lemma set_textContent_run (n : nat) (s : string) (w : World) (e : Element) :
  document w !! n = Some e ->
  Browser.set_textContent n s w
  = (Normal tt, with_document (Dom.set_textContent s n (document w)) w).
Proof.
  intros He. unfold Browser.set_textContent, deref. js_unfold. rewrite He.
  reflexivity.
Qed.

(** *** The three assignments *)

Lemma subtree_leaf (d : Document) (n : nat) (e : Element) :
  d !! n = Some e -> children d n = [] -> subtree d n = [n].
Proof.
  intros He Hc. unfold subtree. apply lookup_lt_Some in He.
  destruct (List.length d) as [| f]; [lia |]. simpl. rewrite Hc. reflexivity.
Qed.

Lemma assign_run (el : option nat) (v : option string) (w : World) :
  in_document w el ->
  exists d,
    assign el v w = (Normal tt, with_document d w)
    /\ List.length d = List.length (document w)
    /\ (forall x, children d x ⊆ children (document w) x)
    /\ (forall n, (forall t, t ∈ written_to el v -> n ∉ subtree (document w) t) ->
                  d !! n = document w !! n)
    /\ (forall n, (forall t, t ∈ written_to el v -> t ∉ subtree (document w) n) ->
                  textContent d n = textContent (document w) n)
    /\ (forall t s, el = Some t -> v = Some s ->
                    textContent d t = s /\ subtree d t = [t]).
Proof.
  intros Hin.
  assert (Hnone : written_to el v = [] ->
            exists d,
              assign el v w = (Normal tt, with_document d w)
              /\ List.length d = List.length (document w)
              /\ (forall x, children d x ⊆ children (document w) x)
              /\ (forall n, (forall t, t ∈ written_to el v ->
                                       n ∉ subtree (document w) t) ->
                            d !! n = document w !! n)
              /\ (forall n, (forall t, t ∈ written_to el v ->
                                       t ∉ subtree (document w) n) ->
                            textContent d n = textContent (document w) n)
              /\ (forall t s, el = Some t -> v = Some s ->
                              textContent d t = s /\ subtree d t = [t])).
  { intros Hw. exists (document w). split.
    { destruct el, v; try discriminate; js_unfold; destruct w; reflexivity. }
    split; [reflexivity |]. split; [reflexivity |].
    split; [reflexivity |]. split; [reflexivity |].
    intros t s -> ->. discriminate. }
  destruct el as [t |]; [| apply Hnone; reflexivity].
  destruct v as [s |]; [| apply Hnone; reflexivity].
  destruct (Hin t eq_refl) as [e He]. simpl.
  exists (Dom.set_textContent s t (document w)).
  split; [apply (set_textContent_run t s w e He) |].
  split; [apply set_textContent_length |].
  split; [intros x; apply set_textContent_children_sub |].
  split; [| split].
  - intros n Hn. apply set_textContent_outside. apply Hn. left.
  - intros n Hn. apply set_textContent_text_other. apply Hn. left.
  - intros t' s' Ht Hs. inversion Ht; inversion Hs; subst. split.
    + apply (set_textContent_text_self s' t' _ e He).
    + apply (subtree_leaf _ _ (set_data s' e)).
      * apply set_textContent_self. exact He.
      * apply set_textContent_children_self.
Qed.

Lemma in_document_same_length (w : World) (d : Document) (el : option nat) :
  List.length d = List.length (document w) ->
  in_document w el -> in_document (with_document d w) el.
Proof.
  intros Hlen Hin n Hn. destruct (Hin n Hn) as [e He]. simpl.
  apply lookup_lt_is_Some. rewrite Hlen. apply lookup_lt_is_Some. eauto.
Qed.

Lemma updateUserInfo_assigns (userInfo : UserInfo) (w : World) :
  updateUserInfo userInfo w
  = (assign (nameElement w)
       (String.append "Olá, eu sou " <$> provided (name userInfo)) ;;
     assign (taglineElement w) (provided (tagline userInfo)) ;;
     assign (summaryElement w) (provided (summary userInfo))) w.
Proof.
  unfold updateUserInfo, nameElement, taglineElement, summaryElement.
  unfold bind at 1. rewrite querySelector_cases. simpl.
  unfold bind at 1. rewrite querySelector_cases. simpl.
  unfold bind at 1. rewrite querySelector_cases. simpl.
  destruct (select_first (document w) (Descendant _ _)),
    (select_first (document w) (ByClass "tagline")),
    (select_first (document w) (ByClass "summary-text")),
    (provided (name userInfo)), (provided (tagline userInfo)),
    (provided (summary userInfo)); reflexivity.
Qed.

Lemma written_to_fmap (el : option nat) (f : string -> string) (v : option string) :
  written_to el (f <$> v) = written_to el v.
Proof. destruct el, v; reflexivity. Qed.

Lemma updateUserInfo_run (userInfo : UserInfo) (w : World) :
  exists d,
    updateUserInfo userInfo w = (Normal tt, with_document d w)
    /\ List.length d = List.length (document w)
    /\ (forall n, (forall t, t ∈ written userInfo w -> n ∉ subtree (document w) t) ->
                  d !! n = document w !! n)
    /\ (forall n, (forall t, t ∈ written userInfo w -> t ∉ subtree (document w) n) ->
                  textContent d n = textContent (document w) n)
    /\ (forall h s,
          nameElement w = Some h -> provided (name userInfo) = Some s ->
          h ∉ written_to (taglineElement w) (provided (tagline userInfo)) ->
          h ∉ written_to (summaryElement w) (provided (summary userInfo)) ->
          textContent d h = "Olá, eu sou " +:+ s).
Proof.
  assert (Hn : in_document w (nameElement w)).
  { intros n Hn. apply (select_first_lookup _ _ _ Hn). }
  assert (Ht : in_document w (taglineElement w)).
  { intros n Hn'. apply (select_first_lookup _ _ _ Hn'). }
  assert (Hs : in_document w (summaryElement w)).
  { intros n Hn'. apply (select_first_lookup _ _ _ Hn'). }
  destruct (assign_run (nameElement w)
              (String.append "Olá, eu sou " <$> provided (name userInfo)) w Hn)
    as (d1 & Hrun1 & Hlen1 & Hsub1 & Hkeep1 & Htext1 & Hset1).
  destruct (assign_run (taglineElement w) (provided (tagline userInfo))
              (with_document d1 w) (in_document_same_length w d1 _ Hlen1 Ht))
    as (d2 & Hrun2 & Hlen2 & Hsub2 & Hkeep2 & Htext2 & _).
  simpl in Hlen2, Hsub2, Hkeep2, Htext2.
  assert (Hlen12 : List.length d2 = List.length (document w)) by congruence.
  destruct (assign_run (summaryElement w) (provided (summary userInfo))
              (with_document d2 (with_document d1 w))
              (in_document_same_length w d2 _ Hlen12 Hs))
    as (d3 & Hrun3 & Hlen3 & Hsub3 & Hkeep3 & Htext3 & _).
  simpl in Hlen3, Hsub3, Hkeep3, Htext3.
  rewrite written_to_fmap in Hkeep1, Htext1.
  assert (Hs1 : forall n, subtree d1 n ⊆ subtree (document w) n).
  { apply subtree_sub; assumption. }
  assert (Hs2 : forall n, subtree d2 n ⊆ subtree d1 n).
  { apply subtree_sub; assumption. }
  exists d3. split.
  { rewrite updateUserInfo_assigns. unfold bind.
    rewrite Hrun1, Hrun2, Hrun3. reflexivity. }
  split; [congruence |]. unfold written. split; [| split].
  - intros n Hout.
    rewrite Hkeep3, Hkeep2, Hkeep1; [reflexivity | | |].
    + intros t Hin. apply Hout. apply elem_of_app. left. exact Hin.
    + intros t Hin Hsubt. apply (Hout t).
      * apply elem_of_app. right. apply elem_of_app. left. exact Hin.
      * apply Hs1. exact Hsubt.
    + intros t Hin Hsubt. apply (Hout t).
      * apply elem_of_app. right. apply elem_of_app. right. exact Hin.
      * apply Hs1, Hs2. exact Hsubt.
  - intros n Hout.
    rewrite Htext3, Htext2, Htext1; [reflexivity | | |].
    + intros t Hin. apply Hout. apply elem_of_app. left. exact Hin.
    + intros t Hin Hsubt. apply (Hout t).
      * apply elem_of_app. right. apply elem_of_app. left. exact Hin.
      * apply Hs1. exact Hsubt.
    + intros t Hin Hsubt. apply (Hout t).
      * apply elem_of_app. right. apply elem_of_app. right. exact Hin.
      * apply Hs1, Hs2. exact Hsubt.
  - intros h s Hh Hprov Hnt Hns.
    destruct (Hset1 h ("Olá, eu sou " +:+ s) Hh) as [Hgreet Hleaf].
    { rewrite Hprov. reflexivity. }
    rewrite Htext3, Htext2; [exact Hgreet | |].
    + intros t Hin Hsubt. rewrite Hleaf in Hsubt.
      apply list_elem_of_singleton in Hsubt. subst. contradiction.
    + intros t Hin Hsubt. apply Hs2 in Hsubt. rewrite Hleaf in Hsubt.
      apply list_elem_of_singleton in Hsubt. subst. contradiction.
Qed.

(** C6.  [updateUserInfo] returns normally and changes nothing but the
    document, which keeps its nodes.  A node is left exactly as it was, with
    the text it had, when no field that is provided (present and not empty)
    is written to the node itself, to one of its ancestors or to one of its
    descendants.  In particular, with [tagline] and [summary] omitted, the
    nodes that are neither the name heading nor above or below it are
    unchanged. *)
Theorem C6_updateUserInfo_frame (userInfo : UserInfo) (w : World) :
  exists w',
    updateUserInfo userInfo w = (Normal tt, w')
    /\ w' = with_document (document w') w
    /\ List.length (document w') = List.length (document w)
    /\ (forall n,
          (forall t, t ∈ written userInfo w -> apart (document w) n t) ->
          document w' !! n = document w !! n /\ text w' n = text w n)
    /\ (tagline userInfo = None -> summary userInfo = None ->
        forall n,
          (forall h, nameElement w = Some h -> apart (document w) n h) ->
          document w' !! n = document w !! n /\ text w' n = text w n).
Proof.
  destruct (updateUserInfo_run userInfo w) as (d & Hrun & Hlen & Hkeep & Htext & _).
  assert (Hframe : forall n,
             (forall t, t ∈ written userInfo w -> apart (document w) n t) ->
             document (with_document d w) !! n = document w !! n
             /\ text (with_document d w) n = text w n).
  { intros n Hn. split.
    - apply Hkeep. intros t Ht. apply (Hn t Ht).
    - apply Htext. intros t Ht. apply (Hn t Ht). }
  exists (with_document d w). split; [exact Hrun |].
  split; [reflexivity |]. split; [exact Hlen |]. split; [exact Hframe |].
  intros Ht Hs n Hn. apply Hframe. intros t Hin. unfold written in Hin.
  rewrite Ht, Hs in Hin. simpl in Hin.
  destruct (taglineElement w), (summaryElement w); simpl in Hin;
    rewrite app_nil_r in Hin;
    (destruct (nameElement w) as [h |], (provided (name userInfo));
     simpl in Hin; try (inversion Hin; fail);
     apply list_elem_of_singleton in Hin; subst; apply Hn; reflexivity).
Qed.

(** With only the name given, on the sample page: the tagline and the
    summary are as they were. *)
Lemma C6_updateUserInfo_frame_witness :
  exists w',
    updateUserInfo {| name := Some "X"; tagline := None; summary := None |}
      Sample.world0 = (Normal tt, w')
    /\ document w' !! 7%nat = document Sample.world0 !! 7%nat
    /\ text w' 7 = "Desenvolvedor"
    /\ document w' !! 8%nat = document Sample.world0 !! 8%nat
    /\ text w' 8 = "Resumo".
Proof.
  destruct (C6_updateUserInfo_frame
              {| name := Some "X"; tagline := None; summary := None |} Sample.world0)
    as (w' & Hrun & _ & _ & _ & Honly).
  assert (H7 : forall h, nameElement Sample.world0 = Some h ->
                         apart (document Sample.world0) 7 h).
  { intros h Hh. vm_compute in Hh. inversion Hh; subst. split; vm_compute;
      intros Hin; repeat (apply elem_of_cons in Hin as [Hin | Hin];
                          [discriminate |]); inversion Hin. }
  assert (H8 : forall h, nameElement Sample.world0 = Some h ->
                         apart (document Sample.world0) 8 h).
  { intros h Hh. vm_compute in Hh. inversion Hh; subst. split; vm_compute;
      intros Hin; repeat (apply elem_of_cons in Hin as [Hin | Hin];
                          [discriminate |]); inversion Hin. }
  destruct (Honly eq_refl eq_refl 7%nat H7) as [Hd7 Ht7].
  destruct (Honly eq_refl eq_refl 8%nat H8) as [Hd8 Ht8].
  exists w'. split; [exact Hrun |].
  split; [exact Hd7 |]. split; [rewrite Ht7; reflexivity |].
  split; [exact Hd8 |]. rewrite Ht8. reflexivity.
Defined.

(** C6, as the specification has it, fails where the targets are nested.  On
    a page whose summary holds the heading and whose heading holds the
    tagline, [updateUserInfo({name: "X"})] changes the text of the summary
    and takes the tagline out of the document, though both fields are
    omitted. *)
Lemma C6_nested_targets_change :
  let userInfo := {| name := Some "X"; tagline := None; summary := None |} in
  let w' := exec (updateUserInfo userInfo) Sample.world2 in
  nameElement Sample.world2 = Some 2%nat
  /\ taglineElement Sample.world2 = Some 3%nat
  /\ summaryElement Sample.world2 = Some 1%nat
  /\ text Sample.world2 1 = "Resumo: NomeDev"
  /\ text w' 1 = "Resumo: Olá, eu sou X"
  /\ connected (document w') 3 = false
  /\ taglineElement w' = None
  /\ ~ omitted_kept userInfo Sample.world2 w'.
Proof.
  split; [reflexivity |]. split; [reflexivity |]. split; [reflexivity |].
  split; [reflexivity |]. split; [reflexivity |]. split; [reflexivity |].
  split; [reflexivity |].
  intros (_ & _ & Hsum).
  destruct (Hsum eq_refl 1%nat eq_refl) as [_ Htext]. vm_compute in Htext.
  discriminate.
Qed.

Lemma append_length (a b : string) :
  String.length (a +:+ b) = (String.length a + String.length b)%nat.
Proof. induction a as [| c a IH]; simpl; [reflexivity | rewrite IH; reflexivity]. Qed.

Lemma greeting_differs (s : string) : "Olá, eu sou " +:+ s <> s.
Proof.
  intros Heq. apply (f_equal String.length) in Heq.
  rewrite append_length in Heq. simpl in Heq. lia.
Qed.

(** C10.  When the name heading is in the page, a name is provided (present
    and not empty), and the heading is not also the node that a provided
    tagline or summary is written to, [updateUserInfo] leaves the heading
    with the text "Olá, eu sou " followed by the name, which is never the
    name itself. *)
Theorem C10_updateUserInfo_greeting (userInfo : UserInfo) (w : World)
    (n : nat) (s : string) :
  nameElement w = Some n ->
  name userInfo = Some s ->
  s <> "" ->
  (taglineElement w = Some n -> provided (tagline userInfo) = None) ->
  (summaryElement w = Some n -> provided (summary userInfo) = None) ->
  exists w',
    updateUserInfo userInfo w = (Normal tt, w')
    /\ text w' n = "Olá, eu sou " +:+ s
    /\ text w' n <> s.
Proof.
  intros Hel Hname Hne Ht Hs.
  assert (Hprov : provided (name userInfo) = Some s).
  { unfold provided, DOMUtils.truthy. rewrite Hname.
    destruct (String.eqb s "") eqn:He; [| reflexivity].
    apply String.eqb_eq in He. contradiction. }
  destruct (updateUserInfo_run userInfo w) as (d & Hrun & _ & _ & _ & Hgreet).
  assert (Htext : text (with_document d w) n = "Olá, eu sou " +:+ s).
  { apply (Hgreet n s Hel Hprov).
    - intros Hin. destruct (taglineElement w) as [t |]; [| inversion Hin].
      destruct (provided (tagline userInfo)) eqn:Hp; [| inversion Hin].
      apply list_elem_of_singleton in Hin. subst t. specialize (Ht eq_refl).
      discriminate.
    - intros Hin. destruct (summaryElement w) as [t |]; [| inversion Hin].
      destruct (provided (summary userInfo)) eqn:Hp; [| inversion Hin].
      apply list_elem_of_singleton in Hin. subst t. specialize (Hs eq_refl).
      discriminate. }
  exists (with_document d w). split; [exact Hrun |]. split; [exact Htext |].
  rewrite Htext. apply greeting_differs.
Qed.

Lemma C10_updateUserInfo_greeting_witness :
  exists w',
    updateUserInfo {| name := Some "Matheus Sales"; tagline := Some "Dev";
                      summary := Some "Resumo novo" |}
      Sample.world0 = (Normal tt, w')
    /\ text w' 6 = "Olá, eu sou Matheus Sales"
    /\ text w' 6 <> "Matheus Sales".
Proof.
  apply (C10_updateUserInfo_greeting
           {| name := Some "Matheus Sales"; tagline := Some "Dev";
              summary := Some "Resumo novo" |}
           Sample.world0 6 "Matheus Sales").
  - reflexivity.
  - reflexivity.
  - discriminate.
  - intros Habs. vm_compute in Habs. discriminate.
  - intros Habs. vm_compute in Habs. discriminate.
Defined.

(** C10, as the specification has it, fails where the name heading is also
    the tagline: the tagline is assigned after the name and overwrites the
    greeting, and a tagline equal to the name leaves the heading with the
    name itself. *)
Lemma C10_heading_overwritten :
  let w1 := exec (updateUserInfo {| name := Some "X"; tagline := Some "Dev";
                                    summary := None |}) Sample.world3 in
  let w2 := exec (updateUserInfo {| name := Some "X"; tagline := Some "X";
                                    summary := None |}) Sample.world3 in
  nameElement Sample.world3 = Some 2%nat
  /\ taglineElement Sample.world3 = Some 2%nat
  /\ text w1 2 = "Dev"
  /\ text w1 2 <> "Olá, eu sou X"
  /\ text w2 2 = "X".
Proof.
  split; [reflexivity |]. split; [reflexivity |]. split; [reflexivity |].
  split; [vm_compute; discriminate | reflexivity].
Qed.

(** ** main.js: [debounce] *)

Section DebounceProofs.
Import Timing.
Context {A : Type}.
Variable wait : Z.
Hypothesis wait_nonneg : 0 <= wait.

Lemma filter_same_id (i : nat) (d : Z) (a : A) :
  filter (fun x : Timer => id x <> i) [{| id := i; due := d; args := a |}] = [].
Proof.
  rewrite filter_cons. simpl. destruct (decide (i <> i)); [congruence | reflexivity].
Qed.

Lemma advance_before_due (s : State) (t : Z) (a : A) (t' : Z) :
  armed wait s t a -> t <= t' < t + wait ->
  advance t' s
  = {| now := t'; nextId := nextId s; pending := pending s;
       timeout := timeout s; invoked := invoked s |}.
Proof.
  intros (i & Hp & Ht & Hi & Hn) Hgap.
  destruct s as [n ni p to inv]. simpl in *. subst.
  unfold advance. simpl.
  assert (Hdue : (t + wait <=? t') = false) by (apply Z.leb_gt; lia).
  rewrite Hdue. simpl. f_equal. lia.
Qed.

Lemma call_keeps_armed (s : State) (t : Z) (a : A) (t' : Z) (a' : A) :
  armed wait s t a -> t <= t' < t + wait ->
  armed wait (executedFunction wait a' (advance t' s)) t' a'.
Proof.
  intros Harmed Hgap.
  rewrite (advance_before_due s t a t' Harmed Hgap).
  destruct Harmed as (i & Hp & Ht & Hi & Hn).
  destruct s as [n ni p to inv]. simpl in *. subst.
  unfold executedFunction, clearTimeout, setTimeout. simpl.
  exists ni. simpl.
  rewrite filter_same_id. simpl.
  rewrite Z.max_r by lia. auto.
Qed.

Lemma first_call_armed (t : Z) (a : A) :
  0 <= t -> armed wait (executedFunction wait a (advance t start)) t a.
Proof.
  intros Ht. unfold advance, executedFunction, clearTimeout, setTimeout, start.
  simpl. exists 1%nat. simpl.
  rewrite (Z.max_r 0 t) by lia. rewrite (Z.max_r 0 wait) by lia. auto.
Qed.

Lemma calls_keep_armed (rest : list (Z * A)) :
  forall (s : State) (t : Z) (a : A),
    armed wait s t a -> burst wait t rest ->
    armed wait (calls wait rest s) (fst (final (t, a) rest)) (snd (final (t, a) rest)).
Proof.
  induction rest as [| [t' a'] rest IH]; intros s t a Harmed Hburst; simpl.
  - exact Harmed.
  - destruct Hburst as [Hgap Hburst].
    apply IH; [| exact Hburst].
    apply (call_keeps_armed s t a t' a' Harmed Hgap).
Qed.

Lemma armed_fires_once (s : State) (t : Z) (a : A) (horizon : Z) :
  armed wait s t a -> t + wait <= horizon ->
  invoked (advance horizon s) = [(t + wait, a)]
  /\ pending (advance horizon s) = [].
Proof.
  intros (i & Hp & Ht & Hi & Hn) Hh.
  destruct s as [n ni p to inv]. simpl in *. subst.
  unfold advance. simpl.
  assert (Hdue : (t + wait <=? horizon) = true) by (apply Z.leb_le; lia).
  rewrite Hdue. unfold later, func, clearTimeout. simpl.
  rewrite filter_same_id. simpl.
  rewrite Z.max_r by lia. auto.
Qed.

Lemma armed_silent (s : State) (t : Z) (a : A) (h : Z) :
  armed wait s t a -> t <= h < t + wait -> invoked (advance h s) = [].
Proof.
  intros Harmed Hh. rewrite (advance_before_due s t a h Harmed Hh). simpl.
  destruct Harmed as (i & _ & _ & Hi & _). exact Hi.
Qed.

(** A burst of calls, each less than [wait] after the one before, calls
    [func] once: [wait] after the last call, with the last call's
    arguments. *)
Lemma debounce_burst (t1 : Z) (a1 : A) (rest : list (Z * A)) (horizon : Z) :
  0 <= t1 ->
  burst wait t1 rest ->
  fst (final (t1, a1) rest) + wait <= horizon ->
  invoked (advance horizon (calls wait ((t1, a1) :: rest) start))
  = [(fst (final (t1, a1) rest) + wait, snd (final (t1, a1) rest))].
Proof.
  intros Ht1 Hburst Hh. simpl.
  apply armed_fires_once; [| exact Hh].
  apply calls_keep_armed; [| exact Hburst].
  apply first_call_armed. exact Ht1.
Qed.

Lemma debounce_burst_silent (t1 : Z) (a1 : A) (rest : list (Z * A)) (h : Z) :
  0 <= t1 ->
  burst wait t1 rest ->
  fst (final (t1, a1) rest) <= h < fst (final (t1, a1) rest) + wait ->
  invoked (advance h (calls wait ((t1, a1) :: rest) start)) = [].
Proof.
  intros Ht1 Hburst Hh. simpl.
  apply (armed_silent _ (fst (final (t1, a1) rest)) (snd (final (t1, a1) rest)));
    [| exact Hh].
  apply calls_keep_armed; [| exact Hburst].
  apply first_call_armed. exact Ht1.
Qed.

End DebounceProofs.

(** C9. The resize listener is [debounce(..., 250)].  When the debounced
    function is called in a burst (every call less than 250ms after the one
    before, as with 5 calls within 100ms), the underlying function is not
    called until 250ms after the last call of the burst, and by then it has
    been called exactly once, at that time and with the last call's
    arguments. *)
Theorem C9_debounce_250 (A : Type) (t1 : Z) (a1 : A) (rest : list (Z * A))
    (horizon : Z) :
  0 <= t1 ->
  Timing.burst 250 t1 rest ->
  fst (Timing.final (t1, a1) rest) + 250 <= horizon ->
  Timing.invoked
    (Timing.advance horizon (Timing.calls 250 ((t1, a1) :: rest) Timing.start))
  = [(fst (Timing.final (t1, a1) rest) + 250, snd (Timing.final (t1, a1) rest))]
  /\ (forall h,
        fst (Timing.final (t1, a1) rest) <= h
        < fst (Timing.final (t1, a1) rest) + 250 ->
        Timing.invoked
          (Timing.advance h (Timing.calls 250 ((t1, a1) :: rest) Timing.start))
        = []).
Proof.
  intros Ht1 Hburst Hh. split.
  - apply (debounce_burst 250); [lia | assumption ..].
  - intros h Hq. apply (debounce_burst_silent 250); [lia | assumption ..].
Qed.

(** Five calls within 100ms: one call of the handler, at 350ms, with the
    arguments of the fifth. *)
Lemma C9_debounce_250_witness :
  Timing.invoked
    (Timing.advance 1000
       (Timing.calls 250
          [(0, "e1"); (20, "e2"); (50, "e3"); (70, "e4"); (100, "e5")]
          Timing.start))
  = [(350, "e5")]
  /\ (forall h, 100 <= h < 350 ->
        Timing.invoked
          (Timing.advance h
             (Timing.calls 250
                [(0, "e1"); (20, "e2"); (50, "e3"); (70, "e4"); (100, "e5")]
                Timing.start))
        = []).
Proof.
  apply (C9_debounce_250 string 0 "e1"
           [(20, "e2"); (50, "e3"); (70, "e4"); (100, "e5")] 1000).
  - lia.
  - simpl. lia.
  - simpl. lia.
Defined.

(** ** Listeners do not change what selectors match *)

Lemma same_shapes_lookup (d d' : Document) (n : nat) :
  same_shapes d d' -> shape <$> d !! n = shape <$> d' !! n.
Proof.
  intros H. rewrite <- !list_lookup_fmap. unfold same_shapes in H. rewrite H.
  reflexivity.
Qed.

Lemma same_shapes_length (d d' : Document) :
  same_shapes d d' -> List.length d = List.length d'.
Proof.
  intros H. apply (f_equal (@List.length _)) in H.
  rewrite !length_fmap in H. exact H.
Qed.

Lemma same_shapes_parent (d d' : Document) (n : nat) :
  same_shapes d d' -> d !! n ≫= parentNode = d' !! n ≫= parentNode.
Proof.
  intros H. pose proof (same_shapes_lookup d d' n H) as Hn.
  destruct (d !! n) as [e |], (d' !! n) as [e' |]; simpl in *;
    try discriminate; [| reflexivity].
  inversion Hn. reflexivity.
Qed.

Lemma ancestors_from_shapes (d d' : Document) :
  same_shapes d d' ->
  forall fuel n, ancestors_from fuel d n = ancestors_from fuel d' n.
Proof.
  intros H fuel. induction fuel as [| fuel IH]; intros n; simpl; [reflexivity |].
  rewrite (same_shapes_parent d d' n H).
  destruct (d' !! n ≫= parentNode); [| reflexivity].
  rewrite IH. reflexivity.
Qed.

Lemma ancestors_shapes (d d' : Document) (n : nat) :
  same_shapes d d' -> ancestors d n = ancestors d' n.
Proof.
  intros H. unfold ancestors. rewrite (same_shapes_length d d' H).
  apply ancestors_from_shapes. exact H.
Qed.

Lemma existsb_pointwise {X} (f g : X -> bool) (l : list X) :
  (forall x, f x = g x) -> existsb f l = existsb g l.
Proof.
  intros H. induction l as [| x l IH]; simpl; [reflexivity |].
  rewrite H, IH. reflexivity.
Qed.

Lemma matches_shape_shapes (d d' : Document) (s : Selector) :
  same_shapes d d' -> forall n, matches_shape d s n = matches_shape d' s n.
Proof.
  intros H. induction s as [i | c | t | a IHa s IHs | t p]; intros n;
    pose proof (same_shapes_lookup d d' n H) as Hn; simpl;
    destruct (d !! n) as [e |], (d' !! n) as [e' |]; simpl in Hn;
    try discriminate; try reflexivity; inversion Hn as [[Ht Hi Hc Hh Hp Hconn]].
  - rewrite Hi. reflexivity.
  - rewrite Hc. reflexivity.
  - rewrite Ht. reflexivity.
  - rewrite IHs, (ancestors_shapes d d' n H). f_equal.
    apply existsb_pointwise. intros m. apply IHa.
  - rewrite Ht, Hh. reflexivity.
Qed.

Lemma connected_shapes (d d' : Document) (n : nat) :
  same_shapes d d' -> connected d n = connected d' n.
Proof.
  intros H. pose proof (same_shapes_lookup d d' n H) as Hn. unfold connected.
  destruct (d !! n) as [e |], (d' !! n) as [e' |]; simpl in Hn;
    try discriminate; [| reflexivity].
  inversion Hn. reflexivity.
Qed.

Lemma matches_at_shapes (d d' : Document) (s : Selector) :
  same_shapes d d' -> forall n, matches_at d s n = matches_at d' s n.
Proof.
  intros H n. unfold matches_at.
  rewrite (connected_shapes d d' n H), (matches_shape_shapes d d' s H n).
  reflexivity.
Qed.

Lemma select_all_shapes (d d' : Document) (s : Selector) :
  same_shapes d d' -> select_all d s = select_all d' s.
Proof.
  intros H. unfold select_all. rewrite (same_shapes_length d d' H).
  apply list_filter_iff. intros n. rewrite (matches_at_shapes d d' s H n).
  reflexivity.
Qed.

Lemma alter_same_shapes (f : Element -> Element) (n : nat) (d : Document) :
  (forall e, shape (f e) = shape e) -> same_shapes (alter f n d) d.
Proof.
  intros Hf. unfold same_shapes. apply list_eq. intros i.
  rewrite !list_lookup_fmap.
  destruct (decide (n = i)) as [-> | Hne].
  - rewrite list_lookup_alter_eq. destruct (d !! i); simpl; [| reflexivity].
    rewrite Hf. reflexivity.
  - rewrite list_lookup_alter_ne by exact Hne. reflexivity.
Qed.

(** ** Running [forEach], listeners and observers *)

Lemma forEach_from_invariant {X} (P : World -> Prop) (Q : X -> Prop)
    (f : X -> nat -> Js unit) :
  (forall x i w, Q x -> P w -> exists w', f x i w = (Normal tt, w') /\ P w') ->
  forall l i w, Forall Q l -> P w ->
    exists w', forEach_from i l f w = (Normal tt, w') /\ P w'.
Proof.
  intros Hstep l. induction l as [| x l IH]; intros i w Hl Hw; simpl.
  - exists w. split; [reflexivity | exact Hw].
  - inversion Hl as [| ? ? Hx Hl']; subst.
    destruct (Hstep x i w Hx Hw) as (w1 & Hrun & Hw1).
    unfold bind. rewrite Hrun. apply IH; assumption.
Qed.

Lemma listeners_only_refl (w : World) : listeners_only w w.
Proof. split; [destruct w; reflexivity | reflexivity]. Qed.

Lemma listeners_only_lookup (w0 w : World) (n : nat) :
  listeners_only w0 w ->
  (exists e, document w0 !! n = Some e) -> exists e, document w !! n = Some e.
Proof.
  intros [_ Hs] He. apply lookup_lt_is_Some.
  rewrite (same_shapes_length _ _ Hs). apply lookup_lt_is_Some. exact He.
Qed.

Lemma add_listener_shape (ty : string) (h : Handler) (e : Element) :
  shape (add_listener ty h e) = shape e.
Proof. reflexivity. Qed.

Lemma addEventListener_run (w0 w : World) (n : nat) (ty : string) (h : Handler) :
  listeners_only w0 w ->
  (exists e, document w0 !! n = Some e) ->
  exists w', addEventListener n ty h w = (Normal tt, w') /\ listeners_only w0 w'.
Proof.
  intros Hw Hn. destruct (listeners_only_lookup w0 w n Hw Hn) as [e He].
  unfold addEventListener. rewrite (update_found n _ w e He).
  eexists. split; [reflexivity |]. destruct Hw as [Heq Hs]. split.
  - simpl. rewrite Heq at 2. reflexivity.
  - simpl. unfold same_shapes in *. rewrite <- Hs.
    apply alter_same_shapes. apply add_listener_shape.
Qed.

Lemma select_within_lookup (d : Document) (root : nat) (s : Selector) (n : nat) :
  select_within d root s = Some n -> exists e, d !! n = Some e.
Proof.
  unfold select_within. intros Hn. apply head_Some_elem_of in Hn.
  apply list_elem_of_filter in Hn as [_ Hn].
  apply list_elem_of_filter in Hn as [_ Hn]. apply elem_of_seq in Hn.
  apply lookup_lt_is_Some. lia.
Qed.

Lemma setupEventListeners_projects (this : ProjectsSection) (w : World) :
  Forall (fun n => exists e, document w !! n = Some e) (projectCards this) ->
  exists w',
    ProjectsSection_setupEventListeners this w = (Normal tt, w')
    /\ listeners_only w w'.
Proof.
  intros Hcards. unfold ProjectsSection_setupEventListeners, forEach.
  apply (forEach_from_invariant (listeners_only w)
           (fun n => exists e, document w !! n = Some e));
    [| exact Hcards | apply listeners_only_refl].
  intros card i w1 Hcard Hw1.
  destruct (addEventListener_run w w1 card "mouseenter" (OnCardHover card true) Hw1 Hcard)
    as (w2 & Hrun2 & Hw2).
  destruct (addEventListener_run w w2 card "mouseleave" (OnCardHover card false) Hw2 Hcard)
    as (w3 & Hrun3 & Hw3).
  unfold bind. rewrite Hrun2, Hrun3.
  unfold element_querySelector. simpl.
  destruct (select_within (document w3) card (ByClass "project-link")) as [l |] eqn:Hl.
  - apply (addEventListener_run w w3 l "click" (OnProjectClick i) Hw3).
    apply lookup_lt_is_Some. destruct Hw3 as [_ Hs].
    rewrite <- (same_shapes_length _ _ Hs). apply lookup_lt_is_Some.
    apply (select_within_lookup _ _ _ _ Hl).
  - exists w3. split; [reflexivity | exact Hw3].
Qed.

Lemma setupEventListeners_skills (this : SkillsSection) (w : World) :
  Forall (fun n => exists e, document w !! n = Some e) (skillTags this) ->
  exists w',
    SkillsSection_setupEventListeners this w = (Normal tt, w')
    /\ listeners_only w w'.
Proof.
  intros Htags. unfold SkillsSection_setupEventListeners, forEach.
  apply (forEach_from_invariant (listeners_only w)
           (fun n => exists e, document w !! n = Some e));
    [| exact Htags | apply listeners_only_refl].
  intros tag i w1 Htag Hw1.
  apply (addEventListener_run w w1 tag "click" (OnSkillClick tag) Hw1 Htag).
Qed.

Lemma areAnimationsEnabled_run (w : World) :
  PortfolioConfig.areAnimationsEnabled w
  = (Normal (Config.enabled (Config.animations (portfolioConfig w))
             && negb (reducedMotion w)), w).
Proof.
  unfold PortfolioConfig.areAnimationsEnabled, matchMedia_reducedMotion.
  js_unfold.
  destruct (Config.enabled (Config.animations (portfolioConfig w))); reflexivity.
Qed.

Lemma forEach_observe (cb : ObserverCallback) (l : list nat) :
  forall i w,
    forEach_from i l (fun element _ => observe cb element) w
    = (Normal tt, with_observed (observed w ++ map (fun e => (e, cb)) l) w).
Proof.
  induction l as [| x l IH]; intros i w; simpl.
  - js_unfold. rewrite app_nil_r. destruct w; reflexivity.
  - unfold bind, observe, modify. rewrite IH. simpl.
    rewrite <- app_assoc. reflexivity.
Qed.

Lemma observeElements_run (s : Selector) (cb : ObserverCallback) (w : World) :
  exists w',
    AnimationUtils.observeElements s cb w = (Normal tt, w')
    /\ w' = with_console (console w') (with_observed (observed w') w)
    /\ observed w' = observed w ++ observing w s cb
    /\ exists lines, console w' = console w ++ lines.
Proof.
  unfold AnimationUtils.observeElements, observing. unfold bind.
  rewrite querySelectorAll_cases.
  destruct (selectorOk w s).
  - destruct (select_all (document w) s) as [| x l] eqn:Hsel.
    + exists w. js_unfold. simpl. rewrite app_nil_r.
      split; [reflexivity |]. split; [destruct w; reflexivity |].
      split; [reflexivity |]. exists []. rewrite app_nil_r. reflexivity.
    + unfold forEach. rewrite forEach_observe. eexists. split; [reflexivity |].
      simpl. split; [destruct w; reflexivity |]. split; [reflexivity |].
      exists []. rewrite app_nil_r. reflexivity.
  - eexists. js_unfold. split; [reflexivity |]. simpl. rewrite app_nil_r.
    split; [reflexivity |]. split; [reflexivity |]. eexists. reflexivity.
Qed.

Lemma selectorOk_same (w w' : World) (s : Selector) :
  identOk w' = identOk w -> selectorOk w' s = selectorOk w s.
Proof.
  intros H. induction s as [i | c | t | a IHa s IHs | t p]; simpl;
    unfold nameOk; rewrite ?H; try reflexivity.
  rewrite IHa, IHs. reflexivity.
Qed.

Lemma observing_same (w w' : World) (s : Selector) (cb : ObserverCallback) :
  identOk w' = identOk w -> same_shapes (document w') (document w) ->
  observing w' s cb = observing w s cb.
Proof.
  intros Hi Hs. unfold observing.
  rewrite (selectorOk_same w w' s Hi), (select_all_shapes _ _ s Hs). reflexivity.
Qed.

Lemma BaseSection_setupAnimations_run (this : BaseSection) (w : World) :
  exists w',
    BaseSection_setupAnimations this w = (Normal tt, w')
    /\ w' = with_console (console w') (with_observed (observed w') w)
    /\ observed w' = observed w ++
         (if animated w
          then observing w (ById (sectionId this)) (FadeInSection (config this))
          else [])
    /\ exists lines, console w' = console w ++ lines.
Proof.
  unfold BaseSection_setupAnimations. unfold bind.
  rewrite areAnimationsEnabled_run. fold (animated w).
  destruct (animated w).
  - apply observeElements_run.
  - exists w. js_unfold. rewrite app_nil_r.
    split; [reflexivity |]. split; [destruct w; reflexivity |].
    split; [reflexivity |]. exists []. rewrite app_nil_r. reflexivity.
Qed.

(** A subclass's [setupAnimations]: the inherited part, then the elements
    matching [s] observed with [cb]. *)
Lemma setupAnimations_then_observe (this : BaseSection) (s : Selector)
    (cb : ObserverCallback) (w : World) :
  exists w',
    (BaseSection_setupAnimations this ;;
     let* on := PortfolioConfig.areAnimationsEnabled in
     if on then AnimationUtils.observeElements s cb else ret tt) w
    = (Normal tt, w')
    /\ w' = with_console (console w') (with_observed (observed w') w)
    /\ observed w' = observed w ++
         (if animated w
          then observing w (ById (sectionId this)) (FadeInSection (config this))
               ++ observing w s cb
          else [])
    /\ exists lines, console w' = console w ++ lines.
Proof.
  destruct (BaseSection_setupAnimations_run this w)
    as (w1 & Hrun1 & Hw1 & Hobs1 & [c1 Hc1]).
  unfold bind at 1. rewrite Hrun1.
  unfold bind. rewrite areAnimationsEnabled_run.
  assert (Hanim : animated w1 = animated w).
  { rewrite Hw1. reflexivity. }
  fold (animated w1). rewrite Hanim.
  destruct (animated w).
  - destruct (observeElements_run s cb w1) as (w2 & Hrun2 & Hw2 & Hobs2 & [c2 Hc2]).
    exists w2. split; [exact Hrun2 |]. split; [| split].
    + rewrite Hw2. rewrite Hw1. reflexivity.
    + rewrite Hobs2, Hobs1, <- app_assoc. f_equal. f_equal.
      apply observing_same; rewrite Hw1; reflexivity.
    + exists (c1 ++ c2). rewrite Hc2, Hc1, app_assoc. reflexivity.
  - exists w1. js_unfold. split; [reflexivity |]. split; [assumption |].
    split; [assumption |]. exists c1. exact Hc1.
Qed.

Lemma indexOf_from_position (l : list nat) :
  forall (i : Z) (N e : nat),
    NoDup l -> l !! N = Some e -> indexOf_from i l e = i + Z.of_nat N.
Proof.
  induction l as [| y l IH]; intros i N e Hnd HN; [discriminate |].
  apply NoDup_cons in Hnd as [Hy Hnd]. simpl.
  destruct N as [| N]; simpl in HN.
  - inversion HN; subst. rewrite Nat.eqb_refl. lia.
  - assert (Hne : y <> e).
    { intros ->. apply Hy. apply list_elem_of_lookup. eauto. }
    apply Nat.eqb_neq in Hne. rewrite Hne.
    rewrite (IH (i + 1) N e Hnd HN). lia.
Qed.

Lemma indexOf_position (l : list nat) (N e : nat) :
  NoDup l -> l !! N = Some e -> indexOf l e = Z.of_nat N.
Proof.
  intros Hnd HN. unfold indexOf. rewrite (indexOf_from_position l 0 N e Hnd HN). lia.
Qed.

(** ** sections.js: what [init] sets up *)

Lemma ProjectsSection_constructor_run (w : World) :
  identOk w "projects" = true ->
  ProjectsSection_constructor w
  = (Normal
       {| projects_base :=
            {| sectionId := "projects";
               element := select_first (document w) (ById "projects");
               config := Config.getSectionConfig (portfolioConfig w) "projects";
               isInitialized := false |};
          projectCards := select_all (document w) (ByClass "project-card") |}, w).
Proof.
  intros Hok. unfold ProjectsSection_constructor, BaseSection_constructor,
    PortfolioConfig.getSectionConfig, bind.
  rewrite querySelector_cases. simpl. rewrite Hok. reflexivity.
Qed.

Lemma SkillsSection_constructor_run (w : World) :
  identOk w "skills" = true ->
  SkillsSection_constructor w
  = (Normal
       {| skills_base :=
            {| sectionId := "skills";
               element := select_first (document w) (ById "skills");
               config := Config.getSectionConfig (portfolioConfig w) "skills";
               isInitialized := false |};
          skillTags := select_all (document w) (ByClass "skill-tag") |}, w).
Proof.
  intros Hok. unfold SkillsSection_constructor, BaseSection_constructor,
    PortfolioConfig.getSectionConfig, bind.
  rewrite querySelector_cases. simpl. rewrite Hok. reflexivity.
Qed.

Lemma select_all_in_document (d : Document) (s : Selector) :
  Forall (fun n => exists e, d !! n = Some e) (select_all d s).
Proof. apply Forall_forall. intros n Hn. apply (select_all_lookup d s n Hn). Qed.

Lemma ProjectsSection_init_run (this : ProjectsSection) (w : World) (r : nat) :
  element (projects_base this) = Some r ->
  isInitialized (projects_base this) = false ->
  Forall (fun n => exists e, document w !! n = Some e) (projectCards this) ->
  exists w',
    init this w
    = (Normal (with_base (set_isInitialized true (base this)) this), w')
    /\ same_shapes (document w') (document w)
    /\ observed w' = observed w ++
         (if animated w
          then observing w (ById (sectionId (projects_base this)))
                 (FadeInSection (config (projects_base this)))
               ++ observing w (ByClass "project-card")
                    (FadeInCard (projectCards this))
          else []).
Proof.
  intros Hel Hinit Hcards. unfold init. simpl. rewrite Hel, Hinit.
  destruct (setupEventListeners_projects this w Hcards) as (w1 & Hrun1 & Heq1 & Hs1).
  unfold bind at 1. rewrite Hrun1.
  unfold bind at 1. unfold ProjectsSection_setupAnimations.
  destruct (setupAnimations_then_observe (projects_base this)
              (ByClass "project-card") (FadeInCard (projectCards this)) w1)
    as (w2 & Hrun2 & Heq2 & Hobs2 & _).
  rewrite Hrun2. js_unfold. exists w2. split; [reflexivity |].
  assert (Hi : identOk w1 = identOk w) by (rewrite Heq1; reflexivity).
  split.
  - rewrite Heq2. simpl. exact Hs1.
  - rewrite Hobs2.
    replace (animated w1) with (animated w) by (rewrite Heq1; reflexivity).
    replace (observed w1) with (observed w) by (rewrite Heq1; reflexivity).
    rewrite !(observing_same w w1) by assumption. reflexivity.
Qed.

Lemma SkillsSection_init_run (this : SkillsSection) (w : World) (r : nat) :
  element (skills_base this) = Some r ->
  isInitialized (skills_base this) = false ->
  Forall (fun n => exists e, document w !! n = Some e) (skillTags this) ->
  exists w',
    init this w
    = (Normal (with_base (set_isInitialized true (base this)) this), w')
    /\ same_shapes (document w') (document w)
    /\ observed w' = observed w ++
         (if animated w
          then observing w (ById (sectionId (skills_base this)))
                 (FadeInSection (config (skills_base this)))
               ++ observing w (ByClass "skill-tag") (FadeInSkill (skillTags this))
          else []).
Proof.
  intros Hel Hinit Htags. unfold init. simpl. rewrite Hel, Hinit.
  destruct (setupEventListeners_skills this w Htags) as (w1 & Hrun1 & Heq1 & Hs1).
  unfold bind at 1. rewrite Hrun1.
  unfold bind at 1. unfold SkillsSection_setupAnimations.
  destruct (setupAnimations_then_observe (skills_base this)
              (ByClass "skill-tag") (FadeInSkill (skillTags this)) w1)
    as (w2 & Hrun2 & Heq2 & Hobs2 & _).
  rewrite Hrun2. js_unfold. exists w2. split; [reflexivity |].
  assert (Hi : identOk w1 = identOk w) by (rewrite Heq1; reflexivity).
  split.
  - rewrite Heq2. simpl. exact Hs1.
  - rewrite Hobs2.
    replace (animated w1) with (animated w) by (rewrite Heq1; reflexivity).
    replace (observed w1) with (observed w) by (rewrite Heq1; reflexivity).
    rewrite !(observing_same w w1) by assumption. reflexivity.
Qed.

(** ** sections.js: the stagger of the fade-ins *)

Lemma fadeInSection_schedules (cfg : Config.SectionConfig) (r : nat) :
  schedules (FadeInSection cfg) r (default 0 (Config.animationDelay cfg)).
Proof.
  intros w. simpl. unfold fadeInSection, AnimationUtils.fadeIn, setTimeout, modify.
  destruct (Config.animationDelay cfg) as [d |]; simpl; [| reflexivity].
  destruct (Z.eqb_spec d 0) as [-> | _]; reflexivity.
Qed.

Lemma fadeInCard_schedules (cards : list nat) (N e : nat) :
  NoDup cards -> cards !! N = Some e ->
  schedules (FadeInCard cards) e (0 + Z.of_nat N * 100).
Proof.
  intros Hnd HN w. simpl. unfold fadeInCard, AnimationUtils.fadeIn, setTimeout, modify.
  rewrite (indexOf_position cards N e Hnd HN). reflexivity.
Qed.

Lemma fadeInSkill_schedules (tags : list nat) (N e : nat) :
  NoDup tags -> tags !! N = Some e ->
  schedules (FadeInSkill tags) e (0 + Z.of_nat N * 50).
Proof.
  intros Hnd HN w. simpl. unfold fadeInSkill, AnimationUtils.fadeIn, setTimeout, modify.
  rewrite (indexOf_position tags N e Hnd HN). reflexivity.
Qed.

Lemma observing_literal (w : World) (s : Selector) (cb : ObserverCallback) (e : nat) :
  selectorOk w s = true -> e ∈ select_all (document w) s ->
  (e, cb) ∈ observing w s cb.
Proof.
  intros Hok He. unfold observing. rewrite Hok.
  apply (list_elem_of_fmap_2 (fun e => (e, cb))). exact He.
Qed.

(** C2, as the code has it.  With animations enabled, [init] of the projects
    section observes every card, and the fade-in of the card at position N
    is delayed by N times 100ms; for the skills section, every tag, by N
    times 50ms.  The section's own delay ([animationDelay || 0]) is not
    added to these: it is the delay of the fade-in of the section element
    itself. *)
Theorem C2_stagger_by_position (w : World) (r : nat) :
  animated w = true ->
  (identOk w "projects" = true ->
   select_first (document w) (ById "projects") = Some r ->
   exists this this' w',
     ProjectsSection_constructor w = (Normal this, w)
     /\ init this w = (Normal this', w')
     /\ staggered_from 0 100 (FadeInCard (projectCards this)) (projectCards this) w'
     /\ (r, FadeInSection (config (projects_base this))) ∈ observed w'
     /\ schedules (FadeInSection (config (projects_base this))) r
          (default 0 (Config.animationDelay (config (projects_base this)))))
  /\ (identOk w "skills" = true ->
      select_first (document w) (ById "skills") = Some r ->
      exists this this' w',
        SkillsSection_constructor w = (Normal this, w)
        /\ init this w = (Normal this', w')
        /\ staggered_from 0 50 (FadeInSkill (skillTags this)) (skillTags this) w'
        /\ (r, FadeInSection (config (skills_base this))) ∈ observed w'
        /\ schedules (FadeInSection (config (skills_base this))) r
             (default 0 (Config.animationDelay (config (skills_base this))))).
Proof.
  intros Hanim. split; intros Hok Hr.
  - pose proof (ProjectsSection_constructor_run w Hok) as Hctor.
    set (this := {| projects_base := _; projectCards := _ |}) in Hctor.
    destruct (ProjectsSection_init_run this w r Hr eq_refl
                (select_all_in_document _ _)) as (w' & Hinit & _ & Hobs).
    rewrite Hanim in Hobs.
    eexists this, _, w'. split; [exact Hctor |]. split; [exact Hinit |].
    split; [| split].
    + intros N e HN. split.
      * rewrite Hobs. apply elem_of_app. right. apply elem_of_app. right.
        apply observing_literal; [reflexivity |].
        apply list_elem_of_lookup. eauto.
      * apply fadeInCard_schedules; [apply select_all_NoDup | exact HN].
    + rewrite Hobs. apply elem_of_app. right. apply elem_of_app. left.
      apply observing_literal; [exact Hok |].
      apply head_Some_elem_of. exact Hr.
    + apply fadeInSection_schedules.
  - pose proof (SkillsSection_constructor_run w Hok) as Hctor.
    set (this := {| skills_base := _; skillTags := _ |}) in Hctor.
    destruct (SkillsSection_init_run this w r Hr eq_refl
                (select_all_in_document _ _)) as (w' & Hinit & _ & Hobs).
    rewrite Hanim in Hobs.
    eexists this, _, w'. split; [exact Hctor |]. split; [exact Hinit |].
    split; [| split].
    + intros N e HN. split.
      * rewrite Hobs. apply elem_of_app. right. apply elem_of_app. right.
        apply observing_literal; [reflexivity |].
        apply list_elem_of_lookup. eauto.
      * apply fadeInSkill_schedules; [apply select_all_NoDup | exact HN].
    + rewrite Hobs. apply elem_of_app. right. apply elem_of_app. left.
      apply observing_literal; [exact Hok |].
      apply head_Some_elem_of. exact Hr.
    + apply fadeInSection_schedules.
Qed.

Lemma C2_stagger_by_position_witness :
  exists this this' w',
    ProjectsSection_constructor Sample.world0 = (Normal this, Sample.world0)
    /\ init this Sample.world0 = (Normal this', w')
    /\ staggered_from 0 100 (FadeInCard (projectCards this)) (projectCards this) w'
    /\ (9%nat, FadeInSection (config (projects_base this))) ∈ observed w'
    /\ schedules (FadeInSection (config (projects_base this))) 9
         (default 0 (Config.animationDelay (config (projects_base this)))).
Proof.
  apply (proj1 (C2_stagger_by_position Sample.world0 9 eq_refl)); reflexivity.
Defined.

(** C2, as the specification has it, fails on the sample page: the second
    project card (position 1) fades in after 100ms, not after the section's
    200ms plus 100ms. *)
Lemma C2_base_delay_not_added :
  let w' := exec (let* s := ProjectsSection_constructor in init s)
              Sample.world0 in
  let base := default 0
                (Config.animationDelay
                   (Config.getSectionConfig (portfolioConfig Sample.world0)
                      "projects")) in
  base = 200
  /\ select_all (document Sample.world0) (ByClass "project-card") !! 1%nat = Some 13%nat
  /\ timers (exec (Run.intersect 13) w') = [(100, FadeInStart 13)]
  /\ ~ staggered_from base 100 (FadeInCard [11; 13]%nat) [11; 13]%nat w'.
Proof.
  split; [reflexivity |]. split; [reflexivity |]. split; [reflexivity |].
  intros Hclaim.
  destruct (Hclaim 1%nat 13%nat eq_refl) as [_ Hsched].
  specialize (Hsched Sample.world0). vm_compute in Hsched. discriminate.
Qed.

(** ** sections.js: [addProject] *)

Lemma filter_agree {X} (P Q : X -> Prop) `{!forall x, Decision (P x)}
    `{!forall x, Decision (Q x)} (l : list X) :
  (forall x, x ∈ l -> (P x <-> Q x)) -> filter P l = filter Q l.
Proof.
  induction l as [| x l IH]; intros Hag; [reflexivity |].
  rewrite !filter_cons.
  assert (Hx : P x <-> Q x) by (apply Hag; left).
  rewrite IH by (intros y Hy; apply Hag; right; exact Hy).
  destruct (decide (P x)), (decide (Q x)); tauto.
Qed.

Lemma select_all_class_snoc (d : Document) (e : Element) (k : string) :
  select_all (d ++ [e]) (ByClass k)
  = select_all d (ByClass k)
    ++ (if isConnected e && string_in k (classList e) then [List.length d] else []).
Proof.
  unfold select_all. rewrite length_app. simpl.
  rewrite Nat.add_1_r, seq_S, filter_app. f_equal.
  - apply filter_agree. intros n Hn. apply elem_of_seq in Hn.
    unfold matches_at, connected. simpl.
    rewrite lookup_app_l by lia. reflexivity.
  - simpl. rewrite filter_cons, filter_nil. unfold matches_at, connected. simpl.
    rewrite (list_lookup_middle d [] e (List.length d) eq_refl).
    destruct (isConnected e && string_in k (classList e)); simpl.
    + destruct (decide (true = true)); [reflexivity | congruence].
    + destruct (decide (false = true)); [discriminate | reflexivity].
Qed.

Lemma select_first_connected (d : Document) (s : Selector) (n : nat) (e : Element) :
  select_first d s = Some n -> d !! n = Some e -> isConnected e = true.
Proof.
  intros Hn He. unfold select_first in Hn. apply head_Some_elem_of in Hn.
  unfold select_all in Hn. apply list_elem_of_filter in Hn as [Hm _].
  unfold matches_at, connected in Hm. rewrite He in Hm.
  apply andb_true_iff in Hm as [Hc _]. exact Hc.
Qed.

(** Whatever the project and the page: with a grid in the page, [addProject]
    returns normally and changes the document only by appending four nodes,
    a card with the two hover listeners and its title, description and link;
    the link has the given [href] and no listener. *)
Lemma addProject_run (projectData : ProjectData) (w : World) (grid : nat) :
  select_first (document w) (ByClass "projects-grid") = Some grid ->
  addProject projectData w
  = (Normal tt,
     with_document
       (document w ++ appended_card grid (List.length (document w)) projectData) w).
Proof.
  intros Hgrid. destruct (select_first_lookup _ _ _ Hgrid) as [g Hg].
  unfold addProject. unfold bind at 1. rewrite querySelector_cases. simpl.
  rewrite Hgrid. unfold appendChild, deref, setupProjectCard, addEventListener.
  js_unfold. rewrite Hg. simpl.
  rewrite (select_first_connected _ _ _ _ Hgrid Hg).
  set (c := List.length (document w)).
  set (d1 := (((document w ++ _) ++ _) ++ _) ++ _).
  assert (Hd1 : d1 = document w
                     ++ [ connect (Some grid)
                            (mkElement "article" None ["project-card"] None "");
                          connect (Some c)
                            (mkElement "h3" None [] None (title projectData));
                          connect (Some c)
                            (mkElement "p" None ["project-description"] None
                               (description projectData));
                          connect (Some c)
                            (mkElement "a" None ["project-link"]
                               (Some (link projectData)) "Ver Projeto") ]).
  { unfold d1. rewrite <- !app_assoc. reflexivity. }
  assert (Hc : forall f (x : Element) l,
             alter f c (document w ++ x :: l) = document w ++ f x :: l).
  { intros f x l. rewrite alter_app_r_alt by (unfold c; lia).
    unfold c. rewrite Nat.sub_diag. reflexivity. }
  assert (Hl : forall (x : Element) l, (document w ++ x :: l) !! c = Some x).
  { intros x l. apply list_lookup_middle. reflexivity. }
  clearbody d1. subst d1.
  erewrite update_found by (simpl; apply Hl).
  simpl. rewrite Hc.
  erewrite update_found by (simpl; apply Hl).
  simpl. rewrite Hc. reflexivity.
Qed.

Lemma addProject_one_more_card (projectData : ProjectData) (w : World) (grid : nat) :
  select_first (document w) (ByClass "projects-grid") = Some grid ->
  select_all (document (exec (addProject projectData) w)) (ByClass "project-card")
  = select_all (document w) (ByClass "project-card") ++ [List.length (document w)].
Proof.
  intros Hgrid. unfold exec. rewrite (addProject_run projectData w grid Hgrid).
  simpl. unfold appended_card.
  set (c := List.length (document w)).
  change (document w ++ [?a; ?b; ?c0; ?e])
    with (document w ++ [a] ++ [b] ++ [c0] ++ [e]).
  rewrite !app_assoc. rewrite !select_all_class_snoc. simpl.
  rewrite !app_nil_r. reflexivity.
Qed.

(** The new card is wired for hover, and its link, which has the given
    [href], has no listener at all. *)
Lemma addProject_wiring (projectData : ProjectData) (w : World) (grid : nat) :
  select_first (document w) (ByClass "projects-grid") = Some grid ->
  let w' := exec (addProject projectData) w in
  let card := List.length (document w) in
  listeners <$> document w' !! card
  = Some [("mouseenter", OnCardHover card true); ("mouseleave", OnCardHover card false)]
  /\ parentNode <$> document w' !! (card + 3)%nat = Some (Some card)
  /\ href <$> document w' !! (card + 3)%nat = Some (Some (link projectData))
  /\ listeners <$> document w' !! (card + 3)%nat = Some [].
Proof.
  intros Hgrid w' card. unfold w', exec.
  rewrite (addProject_run projectData w grid Hgrid). simpl. fold card.
  assert (H0 : forall l : Document, (document w ++ l) !! card = l !! 0%nat).
  { intros l. rewrite lookup_app_r by (unfold card; lia).
    unfold card. rewrite Nat.sub_diag. reflexivity. }
  assert (H3 : forall l : Document, (document w ++ l) !! (card + 3)%nat = l !! 3%nat).
  { intros l. rewrite lookup_app_r by (unfold card; lia).
    replace (card + 3 - List.length (document w))%nat with 3%nat by (unfold card; lia).
    reflexivity. }
  rewrite H0, H3. repeat split; reflexivity.
Qed.

(** C1, on the sample page with the placeholder link "#".  [addProject]
    adds exactly one card, its link has the given [href], and the card has
    the two hover listeners, which toggle the transform; but its link has no
    click listener, while the links of the cards present at initialization
    have one: a click on the new link is not intercepted, a click on the
    first card's link, with the same [href], is. *)
Theorem C1_addProject_link_click_unwired :
  let w1 := exec (let* s := ProjectsSection_constructor in init s)
              Sample.world0 in
  let w2 := exec
              (addProject {| title := "T"; description := "D"; link := "#" |}) w1 in
  select_all (document w1) (ByClass "project-card") = [11; 13]%nat
  /\ select_all (document w2) (ByClass "project-card") = [11; 13; 19]%nat
  /\ select_within (document w2) 19 (ByClass "project-link") = Some 22%nat
  /\ href <$> document w2 !! 22%nat = Some (Some "#")
  /\ listeners <$> document w2 !! 19%nat
     = Some [("mouseenter", OnCardHover 19 true); ("mouseleave", OnCardHover 19 false)]
  /\ transform <$> document (exec (Run.dispatchEvent "mouseenter" 19) w2) !! 19%nat
     = Some "translateY(-10px) scale(1.02)"
  /\ listeners <$> document w2 !! 12%nat = Some [("click", OnProjectClick 0)]
  /\ listeners <$> document w2 !! 22%nat = Some []
  /\ eval (Run.dispatchEvent "click" 12) w2
     = Normal {| type := "click"; target := 12; defaultPrevented := true |}
  /\ eval (Run.dispatchEvent "click" 22) w2
     = Normal {| type := "click"; target := 22; defaultPrevented := false |}.
Proof. vm_compute. repeat split; reflexivity. Qed.

(** ** [init] twice *)

(** A section's [init()] that has returned is a no-op when called again. *)
Lemma init_again {S} `{Section S} (this this' : S) (w w' : World) :
  init this w = (Normal this', w') ->
  init this' w' = (Normal this', w').
Proof.
  unfold init. destruct (element (base this)) as [r |] eqn:Hel.
  - destruct (isInitialized (base this)) eqn:Hinit.
    + js_unfold. intros Heq. inversion Heq; subst. rewrite Hel, Hinit. reflexivity.
    + unfold bind.
      destruct (setupEventListeners this w) as [[[] | e1] w1]; [| discriminate].
      destruct (setupAnimations this w1) as [[[] | e2] w2]; [| discriminate].
      js_unfold. intros Heq. inversion Heq; subst.
      rewrite base_with_base. simpl. rewrite Hel. reflexivity.
  - js_unfold. intros Heq. inversion Heq; subst. rewrite Hel. reflexivity.
Qed.

Lemma section_init_again (section section' : App.AnySection) (w w' : World) :
  App.section_init section w = (Normal section', w') ->
  App.section_init section' w' = (Normal section', w').
Proof.
  destruct section as [s | s | s]; simpl; unfold bind;
    destruct (init s w) as [[s' | e] w1] eqn:Hinit; try discriminate;
    js_unfold; intros Heq; inversion Heq; subst; simpl; unfold bind;
    rewrite (init_again s s' w w' Hinit); reflexivity.
Qed.

(** On the sample page, a second [init()] of the application made after the
    first has finished is a no-op. *)
Lemma app_init_after_finished :
  let once := exec (App.init ;; App.runMicrotasks) Sample.page0 in
  App.isInitialized (App.app once) = true
  /\ exec (App.init ;; App.runMicrotasks) once = once.
Proof. vm_compute. split; reflexivity. Qed.

(** Whatever the page: two calls of [init()] in a row both pass the guard,
    and both are left waiting to resume. *)
Lemma app_init_twice_both_wait (p : App.Page) :
  App.isInitialized (App.app p) = false ->
  App.readyState p <> App.Loading ->
  App.microtasks (exec (App.init ;; App.init) p)
  = App.microtasks p ++ [App.InitAfterWait; App.InitAfterWait].
Proof.
  intros Hflag Hready. unfold App.init, App.waitForDOM. js_unfold. rewrite Hflag.
  destruct (App.readyState p) eqn:Hr; [contradiction | |].
  - simpl. rewrite Hflag. simpl. rewrite Hr. simpl.
    rewrite <- app_assoc. reflexivity.
  - simpl. rewrite Hflag. simpl. rewrite Hr. simpl.
    rewrite <- app_assoc. reflexivity.
Qed.

(** C4, for the application controller on the sample page.  [init()] is
    called twice in a row, the second time before the first call has resumed
    from its [await]: both calls find [isInitialized] false, and the setup
    runs twice.  The global listeners and the listeners of the first card
    are registered twice. *)
Theorem C4_app_init_twice_sets_up_twice :
  let once := exec (App.init ;; App.runMicrotasks) Sample.page0 in
  let twice := exec (App.init ;; App.init ;; App.runMicrotasks) Sample.page0 in
  globalListeners (App.world once)
  = [ResizeDebounced 250; ScrollThrottled 16; MotionPreferenceChange]
  /\ globalListeners (App.world twice)
     = [ResizeDebounced 250; ScrollThrottled 16; MotionPreferenceChange;
        ResizeDebounced 250; ScrollThrottled 16; MotionPreferenceChange]
  /\ listeners <$> document (App.world once) !! 11%nat
     = Some [("mouseenter", OnCardHover 11 true); ("mouseleave", OnCardHover 11 false)]
  /\ listeners <$> document (App.world twice) !! 11%nat
     = Some [("mouseenter", OnCardHover 11 true); ("mouseleave", OnCardHover 11 false);
             ("mouseenter", OnCardHover 11 true); ("mouseleave", OnCardHover 11 false)]
  /\ List.length (observed (App.world once)) = 8%nat
  /\ List.length (observed (App.world twice)) = 16%nat
  /\ twice <> once.
Proof.
  vm_compute. repeat split; try reflexivity.
  intros Heq. discriminate Heq.
Qed.

(** * Further properties *)

(** ** main.js: [debounce], for any sequence of calls *)

Section SettledProofs.
Import Timing Settling.
Context {A : Type}.
Variable wait : Z.
Hypothesis wait_nonneg : 0 <= wait.

Lemma call_after (log : list (Z * A)) (s : State) (t : Z) (a : A) (t' : Z) (a' : A) :
  armed_with wait log s t a -> t <= t' ->
  armed_with wait (if t + wait <=? t' then log ++ [(t + wait, a)] else log)
    (executedFunction wait a' (advance t' s)) t' a'.
Proof.
  intros (i & Hp & Ht & Hi & Hn) Hle.
  destruct s as [n ni p to inv]. simpl in *. subst.
  unfold advance. simpl.
  destruct (t + wait <=? t') eqn:Hdue.
  - apply Z.leb_le in Hdue.
    unfold later, func, clearTimeout, executedFunction, setTimeout. simpl.
    rewrite !filter_same_id. simpl.
    exists ni. simpl. rewrite !Z.max_r by lia. auto.
  - apply Z.leb_gt in Hdue.
    unfold executedFunction, clearTimeout, setTimeout. simpl.
    rewrite filter_same_id. simpl.
    exists ni. simpl. rewrite !Z.max_r by lia. auto.
Qed.

Lemma armed_with_fires (log : list (Z * A)) (s : State) (t : Z) (a : A) (h : Z) :
  armed_with wait log s t a -> t + wait <= h ->
  invoked (advance h s) = log ++ [(t + wait, a)].
Proof.
  intros (i & Hp & Ht & Hi & Hn) Hh.
  destruct s as [n ni p to inv]. simpl in *. subst.
  unfold advance. simpl.
  assert (Hdue : (t + wait <=? h) = true) by (apply Z.leb_le; lia).
  rewrite Hdue. unfold later, func, clearTimeout. simpl.
  rewrite Z.max_r by lia. reflexivity.
Qed.

Lemma settled_run (l : list (Z * A)) :
  forall (log : list (Z * A)) (s : State) (t : Z) (a : A) (h : Z),
    armed_with wait log s t a -> ascending t l ->
    fst (final (t, a) l) + wait <= h ->
    invoked (advance h (calls wait l s)) = log ++ settled wait ((t, a) :: l).
Proof.
  induction l as [| [t' a'] l IH]; intros log s t a h Harmed Hasc Hh.
  - simpl. apply armed_with_fires; assumption.
  - destruct Hasc as [Hle Hasc].
    change (calls wait ((t', a') :: l) s)
      with (calls wait l (executedFunction wait a' (advance t' s))).
    rewrite (IH _ _ t' a' h (call_after log s t a t' a' Harmed Hle) Hasc Hh).
    change (settled wait ((t, a) :: (t', a') :: l))
      with (if t + wait <=? t' then (t + wait, a) :: settled wait ((t', a') :: l)
            else settled wait ((t', a') :: l)).
    destruct (t + wait <=? t'); [rewrite <- app_assoc |]; reflexivity.
Qed.

(** For calls made in the order of their times, once [wait] has passed after
    the last one, [func] has been called exactly for the calls that no other
    call followed within [wait], each time [wait] after that call and with
    its arguments. *)
Theorem debounce_settled (t1 : Z) (a1 : A) (rest : list (Z * A)) (h : Z) :
  0 <= t1 ->
  ascending t1 rest ->
  fst (final (t1, a1) rest) + wait <= h ->
  invoked (advance h (calls wait ((t1, a1) :: rest) start))
  = settled wait ((t1, a1) :: rest).
Proof.
  intros Ht1 Hasc Hh.
  change (calls wait ((t1, a1) :: rest) start)
    with (calls wait rest (executedFunction wait a1 (advance t1 start))).
  apply (settled_run rest [] _ t1 a1 h); [| exact Hasc | exact Hh].
  destruct (first_call_armed wait wait_nonneg t1 a1 Ht1) as (i & Hp & Ht & Hi & Hn).
  exists i. auto.
Qed.

End SettledProofs.

Lemma debounce_settled_witness :
  Timing.invoked
    (Timing.advance 2000
       (Timing.calls 250
          [(0, "a"); (100, "b"); (400, "c"); (1000, "d"); (1100, "e")]
          Timing.start))
  = [(350, "b"); (650, "c"); (1350, "e")].
Proof.
  apply (debounce_settled 250 ltac:(lia) 0 "a"
           [(100, "b"); (400, "c"); (1000, "d"); (1100, "e")] 2000).
  - lia.
  - simpl. lia.
  - simpl. lia.
Defined.

(** ** main.js: [throttle] *)

Section ThrottleProofs.
Import Throttling.
Context {A : Type}.
Variable limit : Z.
Hypothesis limit_nonneg : 0 <= limit.

Lemma throttled_step (s : State) (r t : Z) (a : A) :
  gate s r -> now s <= t ->
  let s' := throttled limit a (advance t s) in
  now s' = t
  /\ (if r <=? t
      then invoked s' = invoked s ++ [(t, a)] /\ gate s' (t + limit)
      else invoked s' = invoked s /\ gate s' r).
Proof.
  intros Hgate Hnow.
  destruct s as [n p th inv]. simpl in *.
  destruct Hgate as [[Hth Hp] | (Hth & Hp & Hr)]; simpl in *; subst.
  - unfold advance. simpl. rewrite Z.eqb_refl.
    destruct (r <=? t) eqn:Hdue.
    + apply Z.leb_le in Hdue. unfold throttled, setTimeout, func, gate. simpl.
      replace (Z.max (Z.max n r) t) with t by lia.
      replace (Z.max 0 limit) with limit by lia. auto.
    + apply Z.leb_gt in Hdue. unfold throttled, gate. simpl.
      replace (Z.max n t) with t by lia. auto.
  - unfold advance. simpl.
    assert (Hdue : (r <=? t) = true) by (apply Z.leb_le; lia).
    rewrite Hdue. unfold throttled, setTimeout, func, gate. simpl.
    replace (Z.max n t) with t by lia.
    replace (Z.max 0 limit) with limit by lia. auto.
Qed.

Lemma throttle_run (l : list (Z * A)) :
  forall (s : State) (r : Z),
    gate s r -> Settling.ascending (now s) l ->
    invoked (calls limit l s) = invoked s ++ passed limit r l.
Proof.
  induction l as [| [t a] l IH]; intros s r Hgate Hasc.
  - simpl. rewrite app_nil_r. reflexivity.
  - destruct Hasc as [Hle Hasc].
    change (calls limit ((t, a) :: l) s)
      with (calls limit l (throttled limit a (advance t s))).
    destruct (throttled_step s r t a Hgate Hle) as [Hnow Hstep].
    simpl passed. destruct (r <=? t).
    + destruct Hstep as [Hinv Hgate'].
      rewrite (IH _ (t + limit) Hgate') by (rewrite Hnow; exact Hasc).
      rewrite Hinv, <- app_assoc. reflexivity.
    + destruct Hstep as [Hinv Hgate'].
      rewrite (IH _ r Hgate') by (rewrite Hnow; exact Hasc).
      rewrite Hinv. reflexivity.
Qed.

Lemma throttle_run_passed (l : list (Z * A)) :
  Settling.ascending 0 l ->
  invoked (calls limit l start) = passed limit 0 l.
Proof.
  intros Hasc.
  rewrite (throttle_run l start 0); [reflexivity | | exact Hasc].
  right. simpl. repeat split; lia.
Qed.

(** For calls made in the order of their times, the throttled function
    passes on exactly the calls that come at least [limit] after the last
    call passed on, starting with the first; each one at once, with its own
    arguments.  (A timeout due at the time of a call fires before it.) *)
Theorem throttle_passes (l : list (Z * A)) :
  Settling.ascending 0 l ->
  invoked (calls limit l start) = passed limit 0 l.
Proof.
  exact (throttle_run_passed l).
Qed.

Lemma passed_from (l : list (Z * A)) :
  forall r t a, (t, a) ∈ passed limit r l -> r <= t.
Proof.
  induction l as [| [t' a'] l IH]; intros r t a Hin; simpl in Hin.
  - inversion Hin.
  - destruct (r <=? t') eqn:Hr.
    + apply Z.leb_le in Hr. apply elem_of_cons in Hin as [Heq | Hin].
      * inversion Heq; subst. exact Hr.
      * specialize (IH _ _ _ Hin). lia.
    + apply (IH _ _ _ Hin).
Qed.

Lemma passed_spaced (l : list (Z * A)) :
  forall r, spaced limit (passed limit r l).
Proof.
  induction l as [| [t a] l IH]; intros r; simpl; [exact I |].
  destruct (r <=? t); [| apply IH].
  simpl. split; [| apply IH].
  destruct (passed limit (t + limit) l) as [| [t' a'] l'] eqn:Hp; [exact I |].
  apply (passed_from l (t + limit) t' a'). rewrite Hp. left.
Qed.

Lemma passed_sublist (l : list (Z * A)) :
  forall r, sublist (passed limit r l) l.
Proof.
  induction l as [| [t a] l IH]; intros r; simpl; [constructor |].
  destruct (r <=? t).
  - apply sublist_skip. apply IH.
  - apply sublist_cons. apply IH.
Qed.

(** Whatever the calls: two consecutive calls of [func] are at least
    [limit] apart, every call of [func] is one of the calls made, at its
    time and with its arguments, in the same order, and the first call
    made is passed on. *)
Theorem throttle_spacing (t1 : Z) (a1 : A) (rest : list (Z * A)) :
  0 <= t1 ->
  Settling.ascending t1 rest ->
  spaced limit (invoked (calls limit ((t1, a1) :: rest) start))
  /\ sublist (invoked (calls limit ((t1, a1) :: rest) start)) ((t1, a1) :: rest)
  /\ head (invoked (calls limit ((t1, a1) :: rest) start)) = Some (t1, a1).
Proof.
  intros Ht1 Hasc.
  rewrite (throttle_run_passed ((t1, a1) :: rest)) by (split; assumption).
  split; [apply passed_spaced |]. split; [apply passed_sublist |].
  simpl. assert (Hr : (0 <=? t1) = true) by (apply Z.leb_le; lia).
  rewrite Hr. reflexivity.
Qed.

End ThrottleProofs.

Lemma throttle_passes_witness :
  Throttling.invoked
    (Throttling.calls 16 [(0, "a"); (5, "b"); (15, "c"); (16, "d"); (20, "e"); (40, "f")]
       Throttling.start)
  = [(0, "a"); (16, "d"); (40, "f")].
Proof.
  apply (throttle_passes 16 ltac:(lia)
           [(0, "a"); (5, "b"); (15, "c"); (16, "d"); (20, "e"); (40, "f")]).
  simpl. lia.
Defined.

Lemma throttle_spacing_witness :
  Throttling.spaced 16
    (Throttling.invoked
       (Throttling.calls 16 [(3, "a"); (5, "b"); (30, "c")] Throttling.start))
  /\ sublist
       (Throttling.invoked
          (Throttling.calls 16 [(3, "a"); (5, "b"); (30, "c")] Throttling.start))
       [(3, "a"); (5, "b"); (30, "c")]
  /\ head
       (Throttling.invoked
          (Throttling.calls 16 [(3, "a"); (5, "b"); (30, "c")] Throttling.start))
     = Some (3, "a").
Proof.
  apply (throttle_spacing 16 ltac:(lia) 3 "a" [(5, "b"); (30, "c")]).
  - lia.
  - simpl. lia.
Defined.

(** ** utils.js: [DOMUtils] *)

Import Notions.

Lemma matches_at_lookup (d : Document) (s : Selector) (n : nat) :
  matches_at d s n = true -> exists e, d !! n = Some e.
Proof.
  unfold matches_at, connected. destruct (d !! n) as [e |]; [eauto | discriminate].
Qed.

Lemma select_all_elem (d : Document) (s : Selector) (n : nat) :
  n ∈ select_all d s <-> matches_at d s n = true.
Proof.
  unfold select_all. rewrite list_elem_of_filter, elem_of_seq. split.
  - intros [H _]. exact H.
  - intros H. split; [exact H |].
    destruct (matches_at_lookup d s n H) as [e He].
    apply lookup_lt_Some in He. lia.
Qed.

(** [DOMUtils.querySelectorAll] never throws.  When the host accepts the
    selector, the result is exactly the nodes of the document that match,
    each one once, and the state is unchanged; when it rejects it, the
    result is empty and one warning is logged.  A class selector with a
    plain identifier is accepted by every host; one whose name is made of
    name characters but is no identifier, as in ".", is rejected by every
    host. *)
Theorem querySelectorAll_exact (s : Selector) (w : World) :
  (exists l w',
      DOMUtils.querySelectorAll s w = (Normal l, w')
      /\ w' = with_console (console w') w
      /\ NoDup l
      /\ (forall n, n ∈ l -> matches_at (document w) s n = true)
      /\ (selectorOk w s = true ->
          w' = w /\ forall n, matches_at (document w) s n = true -> n ∈ l)
      /\ (selectorOk w s = false ->
          l = [] /\ console w' = console w ++ [warning_all s]))
  /\ (forall c, is_ident c = true ->
      DOMUtils.querySelectorAll (ByClass c) w
      = (Normal (select_all (document w) (ByClass c)), w))
  /\ (forall c, is_ident c = false -> all_chars is_name_char c = true ->
      DOMUtils.querySelectorAll (ByClass c) w
      = (Normal [], with_console (console w ++ [warning_all (ByClass c)]) w))
  /\ DOMUtils.querySelectorAll (ByClass "") w
     = (Normal [], with_console (console w ++ ["Erro ao selecionar elementos: ."]) w).
Proof.
  split; [| split; [| split]].
  - rewrite querySelectorAll_cases. destruct (selectorOk w s) eqn:Hok.
    + exists (select_all (document w) s), w.
      split; [reflexivity |]. split; [destruct w; reflexivity |].
      split; [apply select_all_NoDup |].
      split; [intros n; apply select_all_elem |].
      split; [| discriminate].
      intros _. split; [reflexivity |]. intros n. apply select_all_elem.
    + eexists [], _. split; [reflexivity |]. split; [reflexivity |].
      split; [constructor |]. split; [intros n Hn; inversion Hn |].
      split; [discriminate |]. intros _. split; reflexivity.
  - intros c Hc. rewrite querySelectorAll_cases. simpl. unfold nameOk.
    rewrite Hc. reflexivity.
  - intros c Hc Hchars. rewrite querySelectorAll_cases. simpl. unfold nameOk.
    rewrite Hc, Hchars. reflexivity.
  - rewrite querySelectorAll_cases. reflexivity.
Qed.

(** [DOMUtils.querySelector] never throws, and its result is the first
    element of what [DOMUtils.querySelectorAll] returns for the same
    selector, [null] when that is empty.  When the host accepts the
    selector the state is unchanged, a node returned is one that matches and
    [null] means that no node matches; when the host rejects it the result
    is [null] and one warning is logged, as for the selector "." on every
    host. *)
Theorem querySelector_first (s : Selector) (w : World) :
  (exists r w',
      DOMUtils.querySelector s w = (Normal r, w')
      /\ w' = with_console (console w') w
      /\ (exists l, eval (DOMUtils.querySelectorAll s) w = Normal l /\ r = head l)
      /\ (forall n, r = Some n -> matches_at (document w) s n = true)
      /\ (selectorOk w s = true ->
          w' = w
          /\ (r = None -> forall n, matches_at (document w) s n = false))
      /\ (selectorOk w s = false ->
          r = None /\ console w' = console w ++ [warning s]))
  /\ DOMUtils.querySelector (ByClass "") w
     = (Normal None, with_console (console w ++ ["Erro ao selecionar elemento: ."]) w).
Proof.
  split.
  - rewrite querySelector_cases. unfold eval. rewrite querySelectorAll_cases.
    destruct (selectorOk w s) eqn:Hok.
    + exists (select_first (document w) s), w.
      split; [reflexivity |]. split; [destruct w; reflexivity |].
      split; [exists (select_all (document w) s); split; reflexivity |].
      split; [| split; [| discriminate]].
      * intros n Hn. unfold select_first in Hn.
        apply select_all_elem. apply head_Some_elem_of. exact Hn.
      * intros _. split; [reflexivity |]. intros Hnone n.
        destruct (matches_at (document w) s n) eqn:Hm; [| reflexivity].
        apply select_all_elem in Hm. unfold select_first in Hnone.
        destruct (select_all (document w) s); [inversion Hm | discriminate].
    + eexists None, _. split; [reflexivity |]. split; [reflexivity |].
      split; [exists []; split; reflexivity |].
      split; [intros n Hn; discriminate |].
      split; [discriminate |]. intros _. split; reflexivity.
  - rewrite querySelector_cases. reflexivity.
Qed.

Lemma truthy_nonempty (c : string) : c <> "" -> DOMUtils.truthy c = true.
Proof.
  intros Hc. unfold DOMUtils.truthy. destruct (String.eqb_spec c ""); [contradiction |].
  reflexivity.
Qed.

Lemma hasClass_run (n : nat) (c : string) (w : World) (e : Element) :
  document w !! n = Some e -> c <> "" ->
  DOMUtils.hasClass (Some n) c w = (Normal (string_in c (classList e)), w).
Proof.
  intros He Hc. unfold DOMUtils.hasClass, deref. rewrite (truthy_nonempty c Hc).
  js_unfold. rewrite He. reflexivity.
Qed.

Lemma string_in_snoc_other (c c' : string) (l : list string) :
  c' <> c -> string_in c' (l ++ [c]) = string_in c' l.
Proof.
  intros Hne. unfold string_in. rewrite existsb_app. simpl.
  destruct (String.eqb_spec c' c); [contradiction |].
  rewrite !orb_false_r. reflexivity.
Qed.

Lemma string_in_filter_other (c c' : string) (l : list string) :
  c' <> c -> string_in c' (filter (fun x => x <> c) l) = string_in c' l.
Proof.
  intros Hne.
  destruct (string_in c' l) eqn:Hin.
  - apply string_in_spec. apply string_in_spec in Hin.
    apply list_elem_of_filter. split; assumption.
  - destruct (string_in c' (filter _ l)) eqn:Hin'; [| reflexivity].
    apply string_in_spec in Hin'. apply list_elem_of_filter in Hin' as [_ Hin'].
    apply string_in_spec in Hin'. congruence.
Qed.

Lemma classList_add_twice (c : string) (e : Element) :
  add_token c (add_token c e) = add_token c e.
Proof.
  pose proof (classList_add_contains c e) as Hin.
  unfold classList_contains in Hin.
  unfold add_token at 1. rewrite Hin. reflexivity.
Qed.

(** [addClass] on a node of the document, with a class name that is not
    empty.  When the name holds no whitespace: afterwards [hasClass] answers
    true for that name and as before for every other name, no other node has
    changed, and adding the class again changes nothing.  When the name
    holds whitespace, [classList.add] throws an [InvalidCharacterError],
    which [addClass] does not catch, and nothing has changed. *)
Theorem addClass_then_hasClass (n : nat) (c : string) (w : World) (e : Element) :
  document w !! n = Some e ->
  c <> "" ->
  (has_whitespace c = false ->
   exists w',
     DOMUtils.addClass (Some n) c w = (Normal tt, w')
     /\ w' = with_document (document w') w
     /\ eval (DOMUtils.hasClass (Some n) c) w' = Normal true
     /\ (forall c', c' <> c -> c' <> "" ->
         eval (DOMUtils.hasClass (Some n) c') w' = eval (DOMUtils.hasClass (Some n) c') w)
     /\ (forall m, m <> n -> document w' !! m = document w !! m)
     /\ DOMUtils.addClass (Some n) c w' = (Normal tt, w'))
  /\ (has_whitespace c = true ->
      DOMUtils.addClass (Some n) c w
      = (Throw (DOMException "InvalidCharacterError"), w)).
Proof.
  intros He Hc. split; intros Hws.
  2:{ unfold DOMUtils.addClass. rewrite (truthy_nonempty c Hc).
      apply (classList_add_whitespace n c w e He Hc Hws). }
  assert (Hrun : DOMUtils.addClass (Some n) c w
                 = (Normal tt,
                    with_document (alter (add_token c) n (document w)) w)).
  { unfold DOMUtils.addClass. rewrite (truthy_nonempty c Hc).
    apply (classList_add_run n c w e He Hc Hws). }
  assert (He' : document (with_document (alter (add_token c) n (document w)) w) !! n
                = Some (add_token c e)).
  { simpl. rewrite list_lookup_alter_eq, He. reflexivity. }
  eexists. split; [exact Hrun |]. split; [reflexivity |]. split; [| split; [| split]].
  - unfold eval. rewrite (hasClass_run n c _ _ He' Hc). simpl.
    f_equal. apply classList_add_contains.
  - intros c' Hne Hc'. unfold eval.
    rewrite (hasClass_run n c' _ _ He' Hc'), (hasClass_run n c' w e He Hc'). simpl.
    f_equal. unfold add_token. destruct (string_in c (classList e)); [reflexivity |].
    simpl. apply string_in_snoc_other. exact Hne.
  - intros m Hm. simpl. apply list_lookup_alter_ne. congruence.
  - unfold DOMUtils.addClass. rewrite (truthy_nonempty c Hc).
    rewrite (classList_add_run n c _ _ He' Hc Hws).
    unfold with_document. simpl. f_equal. f_equal.
    rewrite list_alter_alter_eq. apply list_alter_ext; [| reflexivity].
    intros x _. simpl. apply classList_add_twice.
Qed.

Lemma addClass_then_hasClass_witness :
  (exists w',
      DOMUtils.addClass (Some 1%nat) "scrolled" Sample.world0 = (Normal tt, w')
      /\ eval (DOMUtils.hasClass (Some 1%nat) "scrolled") w' = Normal true
      /\ DOMUtils.addClass (Some 1%nat) "scrolled" w' = (Normal tt, w'))
  /\ DOMUtils.addClass (Some 1%nat) "a b" Sample.world0
     = (Throw (DOMException "InvalidCharacterError"), Sample.world0).
Proof.
  split.
  - destruct (proj1 (addClass_then_hasClass 1 "scrolled" Sample.world0
                       (Sample.node Sample.world0 1)
                       eq_refl ltac:(discriminate)) eq_refl)
      as (w' & Hrun & _ & Hhas & _ & _ & Hagain).
    exists w'. auto.
  - apply (proj2 (addClass_then_hasClass 1 "a b" Sample.world0
                    (Sample.node Sample.world0 1)
                    eq_refl ltac:(discriminate)) eq_refl).
Defined.

(** [removeClass] on a node of the document, with a class name that is not
    empty.  When the name holds no whitespace: afterwards [hasClass] answers
    false for that name and as before for every other name, and no other
    node has changed.  When the name holds whitespace, [classList.remove]
    throws an [InvalidCharacterError], which [removeClass] does not catch,
    and nothing has changed. *)
Theorem removeClass_then_hasClass (n : nat) (c : string) (w : World) (e : Element) :
  document w !! n = Some e ->
  c <> "" ->
  (has_whitespace c = false ->
   exists w',
     DOMUtils.removeClass (Some n) c w = (Normal tt, w')
     /\ w' = with_document (document w') w
     /\ eval (DOMUtils.hasClass (Some n) c) w' = Normal false
     /\ (forall c', c' <> c -> c' <> "" ->
         eval (DOMUtils.hasClass (Some n) c') w' = eval (DOMUtils.hasClass (Some n) c') w)
     /\ (forall m, m <> n -> document w' !! m = document w !! m))
  /\ (has_whitespace c = true ->
      DOMUtils.removeClass (Some n) c w
      = (Throw (DOMException "InvalidCharacterError"), w)).
Proof.
  intros He Hc. split; intros Hws.
  2:{ unfold DOMUtils.removeClass. rewrite (truthy_nonempty c Hc).
      apply (classList_remove_whitespace n c w e He Hc Hws). }
  assert (Hrun : DOMUtils.removeClass (Some n) c w
                 = (Normal tt,
                    with_document (alter (remove_token c) n (document w)) w)).
  { unfold DOMUtils.removeClass. rewrite (truthy_nonempty c Hc).
    apply (classList_remove_run n c w e He Hc Hws). }
  assert (He' : document (with_document (alter (remove_token c) n (document w)) w) !! n
                = Some (remove_token c e)).
  { simpl. rewrite list_lookup_alter_eq, He. reflexivity. }
  eexists. split; [exact Hrun |]. split; [reflexivity |]. split; [| split].
  - unfold eval. rewrite (hasClass_run n c _ _ He' Hc). simpl.
    f_equal. apply classList_remove_contains.
  - intros c' Hne Hc'. unfold eval.
    rewrite (hasClass_run n c' _ _ He' Hc'), (hasClass_run n c' w e He Hc'). simpl.
    f_equal. apply string_in_filter_other. exact Hne.
  - intros m Hm. simpl. apply list_lookup_alter_ne. congruence.
Qed.

Lemma removeClass_then_hasClass_witness :
  (exists w',
      DOMUtils.removeClass (Some 5%nat) "hero-content" Sample.world0 = (Normal tt, w')
      /\ eval (DOMUtils.hasClass (Some 5%nat) "hero-content") w' = Normal false)
  /\ DOMUtils.removeClass (Some 5%nat) "hero content" Sample.world0
     = (Throw (DOMException "InvalidCharacterError"), Sample.world0).
Proof.
  split.
  - destruct (proj1 (removeClass_then_hasClass 5 "hero-content" Sample.world0
                       (Sample.node Sample.world0 5)
                       eq_refl ltac:(discriminate)) eq_refl)
      as (w' & Hrun & _ & Hhas & _).
    exists w'. auto.
  - apply (proj2 (removeClass_then_hasClass 5 "hero content" Sample.world0
                    (Sample.node Sample.world0 5)
                    eq_refl ltac:(discriminate)) eq_refl).
Defined.

Lemma filter_all {X} (P : X -> Prop) `{!forall x, Decision (P x)} (l : list X) :
  (forall x, x ∈ l -> P x) -> filter P l = l.
Proof.
  induction l as [| x l IH]; intros Hall; [reflexivity |].
  rewrite filter_cons_True by (apply Hall; left).
  rewrite IH; [reflexivity |]. intros y Hy. apply Hall. right. exact Hy.
Qed.

Lemma classList_remove_add (c : string) (e : Element) :
  string_in c (classList e) = false -> remove_token c (add_token c e) = e.
Proof.
  intros Hout. unfold add_token. rewrite Hout.
  unfold remove_token. simpl. rewrite filter_app, filter_cons, filter_nil.
  destruct (decide (c <> c)); [congruence |]. rewrite app_nil_r.
  rewrite filter_all.
  - destruct e; reflexivity.
  - intros x Hx Heq. subst. apply string_in_spec in Hx. congruence.
Qed.

(** Adding a class a node does not have and removing it again restores the
    state exactly. *)
Theorem addClass_removeClass_round_trip (n : nat) (c : string) (w : World) :
  c <> "" ->
  eval (DOMUtils.hasClass (Some n) c) w = Normal false ->
  exec (DOMUtils.removeClass (Some n) c) (exec (DOMUtils.addClass (Some n) c) w) = w.
Proof.
  intros Hc Hhas.
  destruct (document w !! n) as [e |] eqn:He.
  - unfold eval in Hhas. rewrite (hasClass_run n c w e He Hc) in Hhas.
    simpl in Hhas. inversion Hhas as [Hout].
    assert (Hid : alter (remove_token c ∘ add_token c) n (document w)
                  = document w).
    { rewrite (list_alter_ext _ id (document w) (document w) n);
        [apply list_alter_id; reflexivity | | reflexivity].
      intros x Hx. rewrite He in Hx. inversion Hx; subst. simpl.
      apply classList_remove_add. exact Hout. }
    unfold exec, DOMUtils.addClass, DOMUtils.removeClass.
    rewrite (truthy_nonempty c Hc).
    destruct (has_whitespace c) eqn:Hws.
    + rewrite (classList_add_whitespace n c w e He Hc Hws). simpl.
      rewrite (classList_remove_whitespace n c w e He Hc Hws). reflexivity.
    + rewrite (classList_add_run n c w e He Hc Hws). simpl.
      erewrite classList_remove_run;
        [| simpl; rewrite list_lookup_alter_eq, He; reflexivity | exact Hc | exact Hws].
      simpl. rewrite list_alter_alter_eq, Hid. destruct w; reflexivity.
  - unfold eval, DOMUtils.hasClass, deref in Hhas. rewrite (truthy_nonempty c Hc) in Hhas.
    revert Hhas. js_unfold. rewrite He. discriminate.
Qed.

Lemma addClass_removeClass_round_trip_witness :
  exec (DOMUtils.removeClass (Some 1%nat) "scrolled")
    (exec (DOMUtils.addClass (Some 1%nat) "scrolled") Sample.world0)
  = Sample.world0.
Proof.
  apply (addClass_removeClass_round_trip 1 "scrolled" Sample.world0).
  - discriminate.
  - reflexivity.
Defined.

(** ** config.js: [updateAnimationConfig] *)

(** Updating the animation settings twice is updating them once with the
    later patch laid over the earlier one; the same patch twice is as good
    as once, the empty patch changes nothing, and no update touches the
    scroll settings or what [getSectionConfig] returns. *)
Theorem updateAnimationConfig_laws (this : Config.PortfolioConfig)
    (p q : Config.AnimationPatch) (sectionName : string) :
  Config.updateAnimationConfig (Config.updateAnimationConfig this p) q
  = Config.updateAnimationConfig this (patch_over q p)
  /\ Config.updateAnimationConfig (Config.updateAnimationConfig this p) p
     = Config.updateAnimationConfig this p
  /\ Config.updateAnimationConfig this
       {| Config.newEnabled := None; Config.newDuration := None;
          Config.newEasing := None |} = this
  /\ Config.getSectionConfig (Config.updateAnimationConfig this p) sectionName
     = Config.getSectionConfig this sectionName
  /\ Config.scroll (Config.updateAnimationConfig this p) = Config.scroll this.
Proof.
  destruct this as [[en du ea] sc th se].
  destruct p as [[pe |] [pd |] [pa |]], q as [[qe |] [qd |] [qa |]];
    repeat split; reflexivity.
Qed.

(** ** main.js: the reduced-motion listener *)

(** When the reduced-motion query changes to [matches], after the listener
    has run [areAnimationsEnabled()] is [!matches], whatever
    [animations.enabled] was before; the listener changes nothing but that
    flag. *)
Theorem motion_preference_decides (w : World) (matches : bool) :
  exists w',
    App.handleMotionPreferenceChange matches (with_reducedMotion matches w)
    = (Normal tt, w')
    /\ eval PortfolioConfig.areAnimationsEnabled w' = Normal (negb matches)
    /\ w' = with_config (portfolioConfig w') (with_reducedMotion matches w)
    /\ portfolioConfig w'
       = Config.updateAnimationConfig (portfolioConfig w)
           {| Config.newEnabled := Some (negb matches); Config.newDuration := None;
              Config.newEasing := None |}
    /\ Config.duration (Config.animations (portfolioConfig w'))
       = Config.duration (Config.animations (portfolioConfig w))
    /\ Config.easing (Config.animations (portfolioConfig w'))
       = Config.easing (Config.animations (portfolioConfig w)).
Proof.
  eexists. split; [reflexivity |]. split.
  - unfold eval. rewrite areAnimationsEnabled_run. simpl.
    destruct matches; reflexivity.
  - repeat split; reflexivity.
Qed.

(** ** sections.js: handlers when animations are off *)

(** With animations disabled, or with reduced motion, hovering a card and
    clicking the profile picture change nothing at all, a click on a skill
    tag only writes its log line, and no [setupAnimations] observes
    anything. *)
Theorem animations_off_inert (w : World) :
  animated w = false ->
  (forall card isHovering, handleCardHover card isHovering w = (Normal tt, w))
  /\ (forall profilePicture, handleProfileClick profilePicture w = (Normal tt, w))
  /\ (forall tag e, document w !! tag = Some e ->
      handleSkillClick tag w
      = (Normal tt,
         with_console
           (console w ++ ["Habilidade clicada: " +:+ textContent (document w) tag]) w))
  /\ (forall this, BaseSection_setupAnimations this w = (Normal tt, w))
  /\ (forall this, HeroSection_setupAnimations this w = (Normal tt, w))
  /\ (forall this, ProjectsSection_setupAnimations this w = (Normal tt, w))
  /\ (forall this, SkillsSection_setupAnimations this w = (Normal tt, w)).
Proof.
  intros Hoff.
  assert (Hbase : forall this, BaseSection_setupAnimations this w = (Normal tt, w)).
  { intros this. unfold BaseSection_setupAnimations, bind.
    rewrite areAnimationsEnabled_run. fold (animated w). rewrite Hoff. reflexivity. }
  split; [| split; [| split; [| split; [| split; [| split]]]]].
  - intros card b. unfold handleCardHover, bind.
    rewrite areAnimationsEnabled_run. fold (animated w). rewrite Hoff. reflexivity.
  - intros p. unfold handleProfileClick, bind.
    rewrite areAnimationsEnabled_run. fold (animated w). rewrite Hoff. reflexivity.
  - intros tag e He. unfold handleSkillClick, get_textContent, deref, console_log.
    js_unfold. rewrite He. simpl.
    rewrite areAnimationsEnabled_run. simpl. fold (animated w). rewrite Hoff.
    reflexivity.
  - exact Hbase.
  - intros this. unfold HeroSection_setupAnimations, bind. rewrite Hbase.
    rewrite areAnimationsEnabled_run. fold (animated w). rewrite Hoff. reflexivity.
  - intros this. unfold ProjectsSection_setupAnimations, bind. rewrite Hbase.
    rewrite areAnimationsEnabled_run. fold (animated w). rewrite Hoff. reflexivity.
  - intros this. unfold SkillsSection_setupAnimations, bind. rewrite Hbase.
    rewrite areAnimationsEnabled_run. fold (animated w). rewrite Hoff. reflexivity.
Qed.

Lemma animations_off_inert_witness :
  handleCardHover 11 true (with_reducedMotion true Sample.world0)
  = (Normal tt, with_reducedMotion true Sample.world0)
  /\ handleProfileClick (Some 4%nat) (with_reducedMotion true Sample.world0)
     = (Normal tt, with_reducedMotion true Sample.world0).
Proof.
  destruct (animations_off_inert (with_reducedMotion true Sample.world0) eq_refl)
    as (Hhover & Hclick & _).
  split; [apply Hhover | apply Hclick].
Defined.

(** ** Styles: what the timeouts leave behind *)

Lemma update_style (n : nat) (f : Element -> Element) (w : World) (e : Element) :
  document w !! n = Some e ->
  update n f w = (Normal tt, with_document (alter f n (document w)) w)
  /\ document (with_document (alter f n (document w)) w) !! n = Some (f e)
  /\ (forall m, m <> n ->
      document (with_document (alter f n (document w)) w) !! m = document w !! m).
Proof.
  intros He. split; [apply (update_found n f w e He) |]. simpl. split.
  - rewrite list_lookup_alter_eq, He. reflexivity.
  - intros m Hm. apply list_lookup_alter_ne. congruence.
Qed.

(** A click on a skill tag, with animations enabled: the tag's text is
    logged, the tag is scaled down and one timeout of 150ms is set; when
    that timeout runs the tag is back at [scale(1)].  Nothing of the tag but
    its transform has changed, and no other node has changed. *)
Theorem skill_click_feedback (tag : nat) (w : World) (e : Element) :
  document w !! tag = Some e ->
  animated w = true ->
  exists w1 w2,
    handleSkillClick tag w = (Normal tt, w1)
    /\ console w1
       = console w ++ ["Habilidade clicada: " +:+ textContent (document w) tag]
    /\ timers w1 = timers w ++ [(150, SetTransform tag "scale(1)")]
    /\ document w1 !! tag = Some (set_transform "scale(0.95)" e)
    /\ Run.runCallback (SetTransform tag "scale(1)") w1 = (Normal tt, w2)
    /\ document w2 !! tag = Some (set_transform "scale(1)" e)
    /\ (forall m, m <> tag -> document w2 !! m = document w !! m).
Proof.
  intros He Hon.
  set (w0 := with_console
               (console w ++ ["Habilidade clicada: " +:+ textContent (document w) tag])
               w).
  assert (He0 : document w0 !! tag = Some e) by exact He.
  destruct (update_style tag (set_transform "scale(0.95)") w0 e He0)
    as (Hrun1 & Hat1 & Hother1).
  set (w1 := with_timers (timers w ++ [(150, SetTransform tag "scale(1)")])
               (with_document (alter (set_transform "scale(0.95)") tag (document w0)) w0)).
  assert (Hat1' : document w1 !! tag = Some (set_transform "scale(0.95)" e)) by exact Hat1.
  destruct (update_style tag (set_transform "scale(1)") w1 _ Hat1')
    as (Hrun2 & Hat2 & Hother2).
  exists w1, (with_document (alter (set_transform "scale(1)") tag (document w1)) w1).
  split.
  { unfold handleSkillClick, get_textContent, deref, console_log, setTimeout.
    js_unfold. rewrite He. simpl. rewrite areAnimationsEnabled_run. simpl.
    fold (animated w). rewrite Hon. fold w0. rewrite Hrun1. reflexivity. }
  split; [reflexivity |]. split; [reflexivity |]. split; [exact Hat1' |].
  split; [exact Hrun2 |]. split; [exact Hat2 |].
  intros m Hm. rewrite (Hother2 m Hm). apply (Hother1 m Hm).
Qed.

Lemma skill_click_feedback_witness :
  exists w1 w2,
    handleSkillClick 17 Sample.world0 = (Normal tt, w1)
    /\ console w1 = ["Habilidade clicada: HTML"]
    /\ Run.runCallback (SetTransform 17 "scale(1)") w1 = (Normal tt, w2)
    /\ transform <$> document w2 !! 17%nat = Some "scale(1)".
Proof.
  destruct (skill_click_feedback 17 Sample.world0
              (Sample.node Sample.world0 17)
              eq_refl eq_refl)
    as (w1 & w2 & Hrun & Hlog & _ & _ & Hcb & Hat & _).
  exists w1, w2. split; [exact Hrun |]. split; [exact Hlog |].
  split; [exact Hcb |]. rewrite Hat. reflexivity.
Defined.

(** [fadeIn] on a node of the document sets one timeout with the given
    delay.  When the timeout runs the node is made transparent and shifted
    and one animation frame is requested; when the frame runs the node ends
    with opacity 1, no shift and the transition set.  Nothing of the node
    but these three styles has changed, and no other node has changed. *)
Theorem fadeIn_timeline (n : nat) (delay : Z) (w : World) (e : Element) :
  document w !! n = Some e ->
  exists w1 w2 w3 e2 e3,
    AnimationUtils.fadeIn (Some n) delay w = (Normal tt, w1)
    /\ w1 = with_timers (timers w ++ [(delay, FadeInStart n)]) w
    /\ Run.runCallback (FadeInStart n) w1 = (Normal tt, w2)
    /\ frames w2 = frames w ++ [FadeInEnd n]
    /\ document w2 !! n = Some e2
    /\ (opacity e2, transform e2) = ("0", "translateY(20px)")
    /\ Run.runCallback (FadeInEnd n) w2 = (Normal tt, w3)
    /\ document w3 !! n = Some e3
    /\ (opacity e3, transform e3, transition e3)
       = ("1", "translateY(0)", "opacity 0.6s ease, transform 0.6s ease")
    /\ unstyled e3 = unstyled e
    /\ (forall m, m <> n -> document w3 !! m = document w !! m).
Proof.
  intros He.
  set (w1 := with_timers (timers w ++ [(delay, FadeInStart n)]) w).
  assert (He1 : document w1 !! n = Some e) by exact He.
  destruct (update_style n (set_opacity "0") w1 e He1) as (Ha & Hat_a & Ho_a).
  set (wa := with_document (alter (set_opacity "0") n (document w1)) w1) in *.
  destruct (update_style n (set_transform "translateY(20px)") wa _ Hat_a)
    as (Hb & Hat_b & Ho_b).
  set (wb := with_document (alter (set_transform "translateY(20px)") n (document wa)) wa) in *.
  destruct (update_style n (set_transition "opacity 0.6s ease, transform 0.6s ease") wb _ Hat_b)
    as (Hc & Hat_c & Ho_c).
  set (wc := with_document
               (alter (set_transition "opacity 0.6s ease, transform 0.6s ease") n
                  (document wb)) wb) in *.
  set (w2 := with_frames (frames wc ++ [FadeInEnd n]) wc).
  assert (Hat_2 : document w2 !! n = Some _) by exact Hat_c.
  destruct (update_style n (set_opacity "1") w2 _ Hat_2) as (Hd & Hat_d & Ho_d).
  set (wd := with_document (alter (set_opacity "1") n (document w2)) w2) in *.
  destruct (update_style n (set_transform "translateY(0)") wd _ Hat_d)
    as (Hf & Hat_f & Ho_f).
  set (w3 := with_document (alter (set_transform "translateY(0)") n (document wd)) wd) in *.
  eexists w1, w2, w3, _, _.
  split; [reflexivity |]. split; [reflexivity |].
  split.
  { simpl. unfold AnimationUtils.fadeIn_start, requestAnimationFrame. js_unfold.
    rewrite Ha. fold wa. rewrite Hb. fold wb. rewrite Hc. reflexivity. }
  split; [reflexivity |]. split; [exact Hat_2 |]. split; [reflexivity |].
  split.
  { simpl. unfold AnimationUtils.fadeIn_end. js_unfold.
    rewrite Hd. fold wd. rewrite Hf. reflexivity. }
  split; [exact Hat_f |]. split; [reflexivity |]. split; [reflexivity |].
  intros m Hm.
  rewrite (Ho_f m Hm), (Ho_d m Hm).
  change (document w2 !! m) with (document wc !! m).
  rewrite (Ho_c m Hm), (Ho_b m Hm), (Ho_a m Hm). reflexivity.
Qed.

Lemma fadeIn_timeline_witness :
  exists w1 w2 w3 e3,
    AnimationUtils.fadeIn (Some 11%nat) 100 Sample.world0 = (Normal tt, w1)
    /\ Run.runCallback (FadeInStart 11) w1 = (Normal tt, w2)
    /\ Run.runCallback (FadeInEnd 11) w2 = (Normal tt, w3)
    /\ document w3 !! 11%nat = Some e3
    /\ (opacity e3, transform e3, transition e3)
       = ("1", "translateY(0)", "opacity 0.6s ease, transform 0.6s ease").
Proof.
  destruct (fadeIn_timeline 11 100 Sample.world0
              (Sample.node Sample.world0 11)
              eq_refl)
    as (w1 & w2 & w3 & e2 & e3 & H1 & _ & H2 & _ & _ & _ & H3 & Hat & Hst & _).
  exists w1, w2, w3, e3. auto.
Defined.

(** The profile picture, with animations enabled: a click scales it down
    and sets a timeout of 150ms, the observer's callback sets one of 500ms
    that scales it up and sets another of 200ms; in both cases the last
    timeout leaves the picture at [scale(1)], with nothing but the transform
    changed. *)
Theorem profile_picture_settles (p : nat) (w : World) (e : Element) :
  document w !! p = Some e ->
  animated w = true ->
  (exists w1 w2,
      handleProfileClick (Some p) w = (Normal tt, w1)
      /\ timers w1 = timers w ++ [(150, SetTransform p "scale(1)")]
      /\ document w1 !! p = Some (set_transform "scale(0.95)" e)
      /\ Run.runCallback (SetTransform p "scale(1)") w1 = (Normal tt, w2)
      /\ document w2 !! p = Some (set_transform "scale(1)" e))
  /\ (exists w1 w2 w3,
         Run.runObserverCallback ProfilePulse p w = (Normal tt, w1)
         /\ w1 = with_timers (timers w ++ [(500, PulseStart p)]) w
         /\ Run.runCallback (PulseStart p) w1 = (Normal tt, w2)
         /\ timers w2 = timers w1 ++ [(200, SetTransform p "scale(1)")]
         /\ document w2 !! p = Some (set_transform "scale(1.05)" e)
         /\ Run.runCallback (SetTransform p "scale(1)") w2 = (Normal tt, w3)
         /\ document w3 !! p = Some (set_transform "scale(1)" e)).
Proof.
  intros He Hon. split.
  - destruct (update_style p (set_transform "scale(0.95)") w e He) as (Hrun1 & Hat1 & _).
    set (w1 := with_timers (timers w ++ [(150, SetTransform p "scale(1)")])
                 (with_document (alter (set_transform "scale(0.95)") p (document w)) w)).
    assert (Hat1' : document w1 !! p = Some (set_transform "scale(0.95)" e)) by exact Hat1.
    destruct (update_style p (set_transform "scale(1)") w1 _ Hat1') as (Hrun2 & Hat2 & _).
    exists w1, (with_document (alter (set_transform "scale(1)") p (document w1)) w1).
    split.
    { unfold handleProfileClick, setTimeout. js_unfold.
      rewrite areAnimationsEnabled_run. fold (animated w). rewrite Hon.
      rewrite Hrun1. reflexivity. }
    split; [reflexivity |]. split; [exact Hat1' |]. split; [exact Hrun2 |]. exact Hat2.
  - set (w1 := with_timers (timers w ++ [(500, PulseStart p)]) w).
    assert (He1 : document w1 !! p = Some e) by exact He.
    destruct (update_style p (set_transform "scale(1.05)") w1 e He1) as (Hrun1 & Hat1 & _).
    set (w2 := with_timers (timers w1 ++ [(200, SetTransform p "scale(1)")])
                 (with_document (alter (set_transform "scale(1.05)") p (document w1)) w1)).
    assert (Hat1' : document w2 !! p = Some (set_transform "scale(1.05)" e)) by exact Hat1.
    destruct (update_style p (set_transform "scale(1)") w2 _ Hat1') as (Hrun2 & Hat2 & _).
    exists w1, w2, (with_document (alter (set_transform "scale(1)") p (document w2)) w2).
    split; [reflexivity |]. split; [reflexivity |].
    split.
    { simpl. unfold profilePulse_start, setTimeout. js_unfold. rewrite Hrun1. reflexivity. }
    split; [reflexivity |]. split; [exact Hat1' |]. split; [exact Hrun2 |]. exact Hat2.
Qed.

Lemma profile_picture_settles_witness :
  exists w1 w2,
    handleProfileClick (Some 4%nat) Sample.world0 = (Normal tt, w1)
    /\ Run.runCallback (SetTransform 4 "scale(1)") w1 = (Normal tt, w2)
    /\ transform <$> document w2 !! 4%nat = Some "scale(1)".
Proof.
  destruct (profile_picture_settles 4 Sample.world0
              (Sample.node Sample.world0 4)
              eq_refl eq_refl)
    as ((w1 & w2 & Hrun & _ & _ & Hcb & Hat) & _).
  exists w1, w2. split; [exact Hrun |]. split; [exact Hcb |].
  rewrite Hat. reflexivity.
Defined.

(** ** utils.js: the observer of [observeElements] fires once *)

Lemma runObserverCallback_run (cb : ObserverCallback) (element : nat) (w : World) :
  exists delay k,
    Run.runObserverCallback cb element w
    = (Normal tt, with_timers (timers w ++ [(delay, k)]) w).
Proof.
  destruct cb; simpl;
    unfold fadeInSection, profilePulse, fadeInCard, fadeInSkill,
      AnimationUtils.fadeIn, setTimeout, modify; eauto.
Qed.

Lemma forEach_callbacks (element : nat) (l : list (nat * ObserverCallback)) :
  forall i w,
    exists w',
      forEach_from i l (fun o _ => Run.runObserverCallback (snd o) element) w
      = (Normal tt, w')
      /\ w' = with_timers (timers w') w
      /\ List.length (timers w') = (List.length (timers w) + List.length l)%nat.
Proof.
  induction l as [| o l IH]; intros i w; simpl.
  - exists w. js_unfold. split; [reflexivity |]. split; [destruct w; reflexivity | lia].
  - destruct (runObserverCallback_run (snd o) element w) as (d & k & Hrun).
    unfold bind. rewrite Hrun.
    destruct (IH (S i) (with_timers (timers w ++ [(d, k)]) w)) as (w' & Hrest & Heq & Hlen).
    exists w'. split; [exact Hrest |]. split.
    + rewrite Heq. reflexivity.
    + rewrite Hlen. simpl. rewrite length_app. simpl. lia.
Qed.

(** When an observed element becomes visible, every observer watching it
    calls back once (one timeout each) and stops watching it: afterwards the
    element is not observed, the other observations are as before, and the
    element becoming visible again changes nothing.  Nothing throws. *)
Theorem observer_fires_once (element : nat) (w : World) :
  exists w',
    Run.intersect element w = (Normal tt, w')
    /\ w' = with_observed (observed w') (with_timers (timers w') w)
    /\ observed w' = filter (fun o => fst o <> element) (observed w)
    /\ (forall cb, (element, cb) ∉ observed w')
    /\ List.length (timers w')
       = (List.length (timers w)
          + List.length (filter (fun o => fst o = element) (observed w)))%nat
    /\ Run.intersect element w' = (Normal tt, w').
Proof.
  destruct (forEach_callbacks element
              (filter (fun o => fst o = element) (observed w)) 0 w)
    as (w1 & Hrun & Heq & Hlen).
  set (w' := with_observed (filter (fun o => fst o <> element) (observed w1)) w1).
  assert (Hobs1 : observed w1 = observed w) by (rewrite Heq; reflexivity).
  assert (Hnone : forall cb, (element, cb) ∉ observed w').
  { intros cb Hin. simpl in Hin. apply list_elem_of_filter in Hin as [Hne _].
    apply Hne. reflexivity. }
  exists w'. split.
  { unfold Run.intersect, forEach. js_unfold. rewrite Hrun. reflexivity. }
  split; [unfold w'; rewrite Heq; reflexivity |].
  split; [simpl; rewrite Hobs1; reflexivity |].
  split; [exact Hnone |]. split; [exact Hlen |].
  unfold Run.intersect, forEach. js_unfold.
  assert (Hhits : filter (fun o => fst o = element) (observed w') = []).
  { destruct (filter (fun o => fst o = element) (observed w')) as [| [e cb] l] eqn:Hf;
      [reflexivity |].
    assert (Hin : (e, cb) ∈ filter (fun o => fst o = element) (observed w'))
      by (rewrite Hf; left).
    apply list_elem_of_filter in Hin as [He Hin]. simpl in He. subst e.
    destruct (Hnone cb Hin). }
  rewrite Hhits. simpl.
  rewrite (filter_all (fun o => fst o <> element) (observed w')).
  - destruct w1; reflexivity.
  - intros o Ho. simpl in Ho. apply list_elem_of_filter in Ho as [Hne _]. exact Hne.
Qed.

(** ** sections.js: the skills section *)

Lemma forEach_skill_listeners (l : list nat) :
  NoDup l ->
  forall (i : nat) (w : World),
    Forall (fun n => exists e, document w !! n = Some e) l ->
    exists w',
      forEach_from i l
        (fun tag _ => addEventListener tag "click" (OnSkillClick tag)) w
      = (Normal tt, w')
      /\ w' = with_document (document w') w
      /\ List.length (document w') = List.length (document w)
      /\ forall n,
           document w' !! n
           = if decide (n ∈ l)
             then add_listener "click" (OnSkillClick n) <$> document w !! n
             else document w !! n.
Proof.
  induction l as [| x l IH]; intros Hnd i w Hin.
  - exists w. simpl. js_unfold. split; [reflexivity |].
    split; [destruct w; reflexivity |]. split; [reflexivity |].
    intros n. destruct (decide (n ∈ [])) as [Hn | _]; [inversion Hn | reflexivity].
  - apply NoDup_cons in Hnd as [Hx Hnd].
    inversion Hin as [| ? ? [e He] Hin']; subst.
    simpl. unfold bind, addEventListener at 1.
    rewrite (update_found x _ w e He).
    set (w1 := with_document (alter (add_listener "click" (OnSkillClick x)) x (document w)) w).
    assert (Hin1 : Forall (fun n => exists e, document w1 !! n = Some e) l).
    { apply Forall_forall. intros n Hn. rewrite Forall_forall in Hin'.
      destruct (Hin' n Hn) as [e' He']. apply lookup_lt_is_Some.
      simpl. rewrite length_alter. apply lookup_lt_is_Some. eauto. }
    destruct (IH Hnd (S i) w1 Hin1) as (w' & Hrun & Heq & Hlen & Hat).
    exists w'. split; [exact Hrun |]. split; [rewrite Heq; reflexivity |].
    split; [rewrite Hlen; simpl; apply length_alter |].
    intros n. rewrite Hat. simpl.
    destruct (decide (n = x)) as [-> | Hne].
    + destruct (decide (x ∈ l)) as [Hxl | _]; [contradiction |].
      destruct (decide (x ∈ x :: l)) as [_ | Hout]; [| exfalso; apply Hout; left].
      apply list_lookup_alter_eq.
    + rewrite list_lookup_alter_ne by congruence.
      destruct (decide (n ∈ l)) as [Hnl | Hnl].
      * destruct (decide (n ∈ x :: l)) as [_ | Hout]; [reflexivity |].
        exfalso. apply Hout. right. exact Hnl.
      * destruct (decide (n ∈ x :: l)) as [Hin2 | _]; [| reflexivity].
        apply elem_of_cons in Hin2 as [? | ?]; contradiction.
Qed.

(** With the skills section in the page, constructing the controller and
    calling [init()] returns normally with [isInitialized] true, and changes
    the document in one way only: every element of class [skill-tag] has one
    more listener, the click listener for itself.  All other nodes are as
    they were. *)
Theorem skills_init_wiring (w : World) (r : nat) :
  identOk w "skills" = true ->
  select_first (document w) (ById "skills") = Some r ->
  exists this this' w',
    SkillsSection_constructor w = (Normal this, w)
    /\ init this w = (Normal this', w')
    /\ isInitialized (skills_base this') = true
    /\ forall n,
         document w' !! n
         = if matches_at (document w) (ByClass "skill-tag") n
           then add_listener "click" (OnSkillClick n) <$> document w !! n
           else document w !! n.
Proof.
  intros Hok Hr.
  pose proof (SkillsSection_constructor_run w Hok) as Hctor.
  set (this := {| skills_base := _; skillTags := _ |}) in Hctor.
  destruct (forEach_skill_listeners (skillTags this) (select_all_NoDup _ _) 0 w
              (select_all_in_document _ _)) as (w1 & Hrun1 & Heq1 & _ & Hat).
  destruct (setupAnimations_then_observe (skills_base this)
              (ByClass "skill-tag") (FadeInSkill (skillTags this)) w1)
    as (w2 & Hrun2 & Heq2 & _).
  eexists this, _, w2. split; [exact Hctor |]. split.
  { unfold init.
    replace (element (base this)) with (Some r) by (symmetry; exact Hr).
    change (isInitialized (base this)) with false. cbv iota.
    unfold bind at 1.
    change (setupEventListeners this w)
      with (forEach_from 0 (skillTags this)
              (fun tag _ => addEventListener tag "click" (OnSkillClick tag)) w).
    rewrite Hrun1. unfold bind at 1.
    change (setupAnimations this w1)
      with ((BaseSection_setupAnimations (skills_base this) ;;
             let* on := PortfolioConfig.areAnimationsEnabled in
             if on then AnimationUtils.observeElements (ByClass "skill-tag")
                          (FadeInSkill (skillTags this))
             else ret tt) w1).
    rewrite Hrun2. reflexivity. }
  split; [reflexivity |].
  intros n. rewrite Heq2.
  change (document (with_console (console w2) (with_observed (observed w2) w1)) !! n)
    with (document w1 !! n).
  rewrite Hat.
  change (skillTags this) with (select_all (document w) (ByClass "skill-tag")).
  destruct (matches_at (document w) (ByClass "skill-tag") n) eqn:Hm.
  - destruct (decide (n ∈ select_all (document w) (ByClass "skill-tag"))) as [_ | Hout];
      [reflexivity |].
    exfalso. apply Hout. apply select_all_elem. exact Hm.
  - destruct (decide (n ∈ select_all (document w) (ByClass "skill-tag"))) as [Hin | _];
      [| reflexivity].
    apply select_all_elem in Hin. congruence.
Qed.

Lemma skills_init_wiring_witness :
  exists this this' w',
    SkillsSection_constructor Sample.world0 = (Normal this, Sample.world0)
    /\ init this Sample.world0 = (Normal this', w')
    /\ listeners <$> document w' !! 17%nat = Some [("click", OnSkillClick 17)]
    /\ listeners <$> document w' !! 16%nat = Some [].
Proof.
  destruct (skills_init_wiring Sample.world0 15 eq_refl eq_refl)
    as (this & this' & w' & Hctor & Hinit & _ & Hat).
  exists this, this', w'. split; [exact Hctor |]. split; [exact Hinit |].
  rewrite !Hat. split; reflexivity.
Defined.

Lemma children_none (d : Document) (n : nat) :
  (List.length d <= S n)%nat -> children d n = [].
Proof.
  intros Hlen. destruct (children d n) as [| m l] eqn:Hc; [reflexivity |].
  exfalso. assert (Hm : m ∈ children d n) by (rewrite Hc; left).
  apply children_elem in Hm as [Hlt Hp].
  destruct (d !! m) as [e |] eqn:He; [| discriminate].
  apply lookup_lt_Some in He. lia.
Qed.

(** A node just appended has no children: its text is the text it holds. *)
Lemma textContent_appended (d : Document) (e : Element) :
  textContent (d ++ [e]) (List.length d) = data e.
Proof.
  unfold textContent.
  rewrite (subtree_leaf (d ++ [e]) (List.length d) e).
  - simpl. rewrite (list_lookup_middle d [] e (List.length d) eq_refl). reflexivity.
  - apply list_lookup_middle. reflexivity.
  - apply children_none. rewrite length_app. simpl. lia.
Qed.

(** [addSkill], with a skills grid in the page, returns normally and changes
    the document only by appending one node: a [span] of class [skill-tag]
    below the grid, with the given name as text and with the click listener
    for itself, which is the listener [init()] gives the tags of the page.
    There is then exactly one more [skill-tag], and a click on the new tag
    logs the given name. *)
Theorem addSkill_appends_wired (skillName : string) (w : World) (grid : nat) :
  select_first (document w) (ByClass "skills-grid") = Some grid ->
  exists w',
    addSkill skillName w = (Normal tt, w')
    /\ w' = with_document
              (document w ++ [appended_tag grid (List.length (document w)) skillName]) w
    /\ select_all (document w') (ByClass "skill-tag")
       = select_all (document w) (ByClass "skill-tag") ++ [List.length (document w)]
    /\ forall e,
         console (exec (Run.runHandler (OnSkillClick (List.length (document w))) e) w')
         = console w ++ ["Habilidade clicada: " +:+ skillName].
Proof.
  intros Hgrid. destruct (select_first_lookup _ _ _ Hgrid) as [g Hg].
  set (c := List.length (document w)).
  assert (Hrun : addSkill skillName w
                 = (Normal tt,
                    with_document (document w ++ [appended_tag grid c skillName]) w)).
  { unfold addSkill. unfold bind at 1. rewrite querySelector_cases. simpl.
    rewrite Hgrid. unfold appendChild, deref, setupSkillTag, addEventListener.
    js_unfold. rewrite Hg. simpl. fold c.
    rewrite (select_first_connected _ _ _ _ Hgrid Hg).
    erewrite update_found by (simpl; apply list_lookup_middle; reflexivity).
    simpl. rewrite alter_app_r_alt by (unfold c; lia).
    unfold c. rewrite Nat.sub_diag. reflexivity. }
  eexists. split; [exact Hrun |]. split; [reflexivity |]. split.
  - simpl. rewrite select_all_class_snoc. reflexivity.
  - intros e. simpl.
    unfold exec, handleSkillClick, get_textContent, deref, console_log. js_unfold.
    simpl. rewrite (list_lookup_middle (document w) [] _ c eq_refl). simpl.
    unfold c. rewrite textContent_appended. fold c.
    change (data (appended_tag grid c skillName)) with skillName.
    destruct (PortfolioConfig.areAnimationsEnabled _) as [[[] | err] w1] eqn:Hen;
      rewrite areAnimationsEnabled_run in Hen; inversion Hen; subst; simpl.
    + unfold setTimeout, modify.
      erewrite update_found by (simpl; apply list_lookup_middle; reflexivity).
      reflexivity.
    + reflexivity.
Qed.

Lemma addSkill_appends_wired_witness :
  exists w',
    addSkill "Vue.js" Sample.world0 = (Normal tt, w')
    /\ select_all (document w') (ByClass "skill-tag") = [17; 18; 19]%nat
    /\ listeners <$> document w' !! 19%nat = Some [("click", OnSkillClick 19)].
Proof.
  destruct (addSkill_appends_wired "Vue.js" Sample.world0 16 eq_refl)
    as (w' & Hrun & Heq & Hsel & _).
  exists w'. split; [exact Hrun |]. split; [exact Hsel |].
  rewrite Heq. reflexivity.
Defined.

(** ** sections.js: the projects section *)

Lemma add_listeners_nil (e : Element) : add_listeners [] e = e.
Proof. destruct e. unfold add_listeners. simpl. rewrite app_nil_r. reflexivity. Qed.

Lemma add_listeners_app (l1 l2 : list (string * Handler)) (e : Element) :
  add_listeners l2 (add_listeners l1 e) = add_listeners (l1 ++ l2) e.
Proof. unfold add_listeners. simpl. rewrite app_assoc. reflexivity. Qed.

Lemma grown_refl (w : World) : grown w w.
Proof. intros n e He. exists []. rewrite add_listeners_nil. exact He. Qed.

Lemma grown_trans (w1 w2 w3 : World) : grown w1 w2 -> grown w2 w3 -> grown w1 w3.
Proof.
  intros H12 H23 n e1 He1.
  destruct (H12 n e1 He1) as (l2 & He2).
  destruct (H23 n _ He2) as (l3 & He3).
  exists (l2 ++ l3). rewrite He3, add_listeners_app. reflexivity.
Qed.

Lemma grown_same_document (w1 w2 : World) :
  document w2 = document w1 -> grown w1 w2.
Proof.
  intros Hd n e He. exists []. rewrite add_listeners_nil, Hd. exact He.
Qed.

Lemma listens_grown (w1 w2 : World) (n : nat) (ty : string) (h : Handler) :
  grown w1 w2 -> listens w1 n ty h -> listens w2 n ty h.
Proof.
  intros Hg (e1 & He1 & Hin). destruct (Hg n e1 He1) as (more & He2).
  eexists. split; [exact He2 |]. simpl. apply elem_of_app. left. exact Hin.
Qed.

Lemma addEventListener_grows (w0 w : World) (n : nat) (ty : string) (h : Handler) :
  listeners_only w0 w ->
  (exists e, document w0 !! n = Some e) ->
  exists w',
    addEventListener n ty h w = (Normal tt, w')
    /\ listeners_only w0 w'
    /\ grown w w'
    /\ listens w' n ty h.
Proof.
  intros Hw Hn. destruct (listeners_only_lookup w0 w n Hw Hn) as [e He].
  destruct (addEventListener_run w0 w n ty h Hw Hn) as (w' & Hrun & Hw').
  exists w'. split; [exact Hrun |]. split; [exact Hw' |].
  unfold addEventListener in Hrun. rewrite (update_found n _ w e He) in Hrun.
  inversion Hrun; subst w'. split.
  - intros m e1 He1. simpl. destruct (decide (n = m)) as [-> | Hne].
    + rewrite list_lookup_alter_eq, He1. simpl. exists [(ty, h)]. reflexivity.
    + rewrite list_lookup_alter_ne by exact Hne. exists [].
      rewrite add_listeners_nil. exact He1.
  - exists (add_listener ty h e). simpl. rewrite list_lookup_alter_eq, He.
    split; [reflexivity |]. apply elem_of_app. right. left.
Qed.

Lemma select_within_shapes (d d' : Document) (root : nat) (s : Selector) :
  same_shapes d d' -> select_within d root s = select_within d' root s.
Proof.
  intros H. unfold select_within.
  assert (Hsame : filter (fun n => matches_shape d s n = true) (seq 0 (List.length d))
                  = filter (fun n => matches_shape d' s n = true)
                      (seq 0 (List.length d'))).
  { rewrite (same_shapes_length d d' H). apply list_filter_iff. intros n.
    rewrite (matches_shape_shapes d d' s H n). reflexivity. }
  rewrite Hsame. f_equal. apply list_filter_iff. intros n.
  rewrite (ancestors_shapes d d' n H). reflexivity.
Qed.

(** One card of [ProjectsSection.setupEventListeners]. *)
Lemma project_card_step (w0 w : World) (card i : nat) :
  listeners_only w0 w ->
  (exists e, document w0 !! card = Some e) ->
  exists w',
    (addEventListener card "mouseenter" (OnCardHover card true) ;;
     addEventListener card "mouseleave" (OnCardHover card false) ;;
     let* link := element_querySelector card (ByClass "project-link") in
     match link with
     | Some l => addEventListener l "click" (OnProjectClick i)
     | None => ret tt
     end) w = (Normal tt, w')
    /\ listeners_only w0 w'
    /\ grown w w'
    /\ listens w' card "mouseenter" (OnCardHover card true)
    /\ listens w' card "mouseleave" (OnCardHover card false)
    /\ forall l, select_within (document w0) card (ByClass "project-link") = Some l ->
                 listens w' l "click" (OnProjectClick i).
Proof.
  intros Hw Hcard.
  destruct (addEventListener_grows w0 w card "mouseenter" (OnCardHover card true) Hw Hcard)
    as (w1 & Hrun1 & Hw1 & Hg1 & Hl1).
  destruct (addEventListener_grows w0 w1 card "mouseleave" (OnCardHover card false) Hw1 Hcard)
    as (w2 & Hrun2 & Hw2 & Hg2 & Hl2).
  unfold bind. rewrite Hrun1, Hrun2.
  unfold element_querySelector. simpl.
  destruct Hw2 as [Heq2 Hs2].
  rewrite (select_within_shapes _ _ card (ByClass "project-link") Hs2).
  destruct (select_within (document w0) card (ByClass "project-link")) as [l |] eqn:Hl.
  - destruct (addEventListener_grows w0 w2 l "click" (OnProjectClick i)
                (conj Heq2 Hs2) (select_within_lookup _ _ _ _ Hl))
      as (w3 & Hrun3 & Hw3 & Hg3 & Hl3).
    exists w3. split; [exact Hrun3 |]. split; [exact Hw3 |].
    split; [exact (grown_trans _ _ _ Hg1 (grown_trans _ _ _ Hg2 Hg3)) |].
    split; [exact (listens_grown _ _ _ _ _ (grown_trans _ _ _ Hg2 Hg3) Hl1) |].
    split; [exact (listens_grown _ _ _ _ _ Hg3 Hl2) |].
    intros l' Hl'. inversion Hl'; subst. exact Hl3.
  - exists w2. split; [reflexivity |]. split; [exact (conj Heq2 Hs2) |].
    split; [exact (grown_trans _ _ _ Hg1 Hg2) |].
    split; [exact (listens_grown _ _ _ _ _ Hg2 Hl1) |].
    split; [exact Hl2 |]. intros l' Hl'. discriminate.
Qed.

Lemma forEach_project_cards (w0 : World) (l : list nat) :
  forall (i : nat) (w : World),
    listeners_only w0 w ->
    Forall (fun n => exists e, document w0 !! n = Some e) l ->
    exists w',
      forEach_from i l (fun card index =>
        addEventListener card "mouseenter" (OnCardHover card true) ;;
        addEventListener card "mouseleave" (OnCardHover card false) ;;
        let* link := element_querySelector card (ByClass "project-link") in
        match link with
        | Some l => addEventListener l "click" (OnProjectClick index)
        | None => ret tt
        end) w = (Normal tt, w')
      /\ listeners_only w0 w'
      /\ grown w w'
      /\ forall j card,
           l !! j = Some card ->
           listens w' card "mouseenter" (OnCardHover card true)
           /\ listens w' card "mouseleave" (OnCardHover card false)
           /\ forall k, select_within (document w0) card (ByClass "project-link") = Some k ->
                        listens w' k "click" (OnProjectClick (i + j)).
Proof.
  induction l as [| x l IH]; intros i w Hw Hin.
  - exists w. simpl. js_unfold. split; [reflexivity |]. split; [exact Hw |].
    split; [apply grown_refl |]. intros j card Hj. discriminate.
  - inversion Hin as [| ? ? Hx Hin']; subst.
    destruct (project_card_step w0 w x i Hw Hx)
      as (w1 & Hrun1 & Hw1 & Hg1 & Hen & Hlv & Hck).
    destruct (IH (S i) w1 Hw1 Hin') as (w' & Hrun & Hw' & Hg & Hall).
    exists w'. split.
    { simpl. unfold bind at 1. rewrite Hrun1. exact Hrun. }
    split; [exact Hw' |]. split; [exact (grown_trans _ _ _ Hg1 Hg) |].
    intros j card Hj. destruct j as [| j]; simpl in Hj.
    + inversion Hj; subst card. rewrite Nat.add_0_r.
      split; [exact (listens_grown _ _ _ _ _ Hg Hen) |].
      split; [exact (listens_grown _ _ _ _ _ Hg Hlv) |].
      intros k Hk. exact (listens_grown _ _ _ _ _ Hg (Hck k Hk)).
    + replace (i + S j)%nat with (S i + j)%nat by lia. apply (Hall j card Hj).
Qed.

(** With the projects section in the page, constructing the controller and
    calling [init()] returns normally with [isInitialized] true; no node
    loses a listener or changes in what selectors read; and for the card at
    every position [i], the card has the two hover listeners and its first
    [.project-link] descendant has the click listener with index [i]. *)
Theorem projects_init_wiring (w : World) (r : nat) :
  identOk w "projects" = true ->
  select_first (document w) (ById "projects") = Some r ->
  exists this this' w',
    ProjectsSection_constructor w = (Normal this, w)
    /\ init this w = (Normal this', w')
    /\ isInitialized (projects_base this') = true
    /\ same_shapes (document w') (document w)
    /\ grown w w'
    /\ forall i card,
         select_all (document w) (ByClass "project-card") !! i = Some card ->
         listens w' card "mouseenter" (OnCardHover card true)
         /\ listens w' card "mouseleave" (OnCardHover card false)
         /\ forall k, select_within (document w) card (ByClass "project-link") = Some k ->
                      listens w' k "click" (OnProjectClick i).
Proof.
  intros Hok Hr.
  pose proof (ProjectsSection_constructor_run w Hok) as Hctor.
  set (this := {| projects_base := _; projectCards := _ |}) in Hctor.
  destruct (forEach_project_cards w (projectCards this) 0 w (listeners_only_refl w)
              (select_all_in_document _ _)) as (w1 & Hrun1 & [Heq1 Hs1] & Hg1 & Hall).
  destruct (setupAnimations_then_observe (projects_base this)
              (ByClass "project-card") (FadeInCard (projectCards this)) w1)
    as (w2 & Hrun2 & Heq2 & _).
  assert (Hdoc : document w2 = document w1) by (rewrite Heq2; reflexivity).
  eexists this, _, w2. split; [exact Hctor |]. split.
  { unfold init.
    replace (element (base this)) with (Some r) by (symmetry; exact Hr).
    change (isInitialized (base this)) with false. cbv iota.
    unfold bind at 1.
    change (setupEventListeners this w)
      with (ProjectsSection_setupEventListeners this w).
    unfold ProjectsSection_setupEventListeners, forEach. rewrite Hrun1.
    unfold bind at 1.
    change (setupAnimations this w1)
      with ((BaseSection_setupAnimations (projects_base this) ;;
             let* on := PortfolioConfig.areAnimationsEnabled in
             if on then AnimationUtils.observeElements (ByClass "project-card")
                          (FadeInCard (projectCards this))
             else ret tt) w1).
    rewrite Hrun2. reflexivity. }
  split; [reflexivity |]. split; [rewrite Hdoc; exact Hs1 |].
  assert (Hg2 : grown w1 w2).
  { apply grown_same_document. exact Hdoc. }
  split; [exact (grown_trans _ _ _ Hg1 Hg2) |].
  intros i card Hi. destruct (Hall i card Hi) as (Hen & Hlv & Hck).
  split; [exact (listens_grown _ _ _ _ _ Hg2 Hen) |].
  split; [exact (listens_grown _ _ _ _ _ Hg2 Hlv) |].
  intros k Hk. exact (listens_grown _ _ _ _ _ Hg2 (Hck k Hk)).
Qed.

Lemma projects_init_wiring_witness :
  exists this this' w',
    ProjectsSection_constructor Sample.world0 = (Normal this, Sample.world0)
    /\ init this Sample.world0 = (Normal this', w')
    /\ listens w' 13 "mouseenter" (OnCardHover 13 true)
    /\ listens w' 14 "click" (OnProjectClick 1).
Proof.
  destruct (projects_init_wiring Sample.world0 9 eq_refl eq_refl)
    as (this & this' & w' & Hctor & Hinit & _ & _ & _ & Hall).
  destruct (Hall 1%nat 13%nat eq_refl) as (Hen & _ & Hck).
  exists this, this', w'. split; [exact Hctor |]. split; [exact Hinit |].
  split; [exact Hen |]. apply Hck. reflexivity.
Defined.

(** ** main.js: [initializeSections] and [init] *)

Lemma wired_only_refl (w : World) : wired_only w w.
Proof.
  split; [destruct w; reflexivity |]. split; [reflexivity |].
  split; [apply grown_refl |].
  split; exists []; rewrite app_nil_r; reflexivity.
Qed.

Lemma wired_only_trans (w1 w2 w3 : World) :
  wired_only w1 w2 -> wired_only w2 w3 -> wired_only w1 w3.
Proof.
  intros (Heq2 & Hs2 & Hg2 & [o2 Ho2] & [c2 Hc2])
    (Heq3 & Hs3 & Hg3 & [o3 Ho3] & [c3 Hc3]).
  split; [| split; [| split; [| split]]].
  - rewrite Heq3. rewrite Heq2. reflexivity.
  - unfold same_shapes in *. congruence.
  - exact (grown_trans _ _ _ Hg2 Hg3).
  - exists (o2 ++ o3). rewrite Ho3, Ho2, app_assoc. reflexivity.
  - exists (c2 ++ c3). rewrite Hc3, Hc2, app_assoc. reflexivity.
Qed.

Lemma wired_only_console (w w' : World) :
  w' = with_console (console w') w ->
  (exists lines, console w' = console w ++ lines) ->
  wired_only w w'.
Proof.
  intros Heq Hc. split; [rewrite Heq; reflexivity |].
  split; [rewrite Heq; reflexivity |].
  split; [apply grown_same_document; rewrite Heq; reflexivity |].
  split; [exists []; rewrite Heq, app_nil_r; reflexivity | exact Hc].
Qed.

Lemma listeners_only_wired (w w' : World) :
  listeners_only w w' -> grown w w' -> wired_only w w'.
Proof.
  intros [Heq Hs] Hg. split; [rewrite Heq; reflexivity |].
  split; [exact Hs |]. split; [exact Hg |].
  split; exists []; rewrite Heq, app_nil_r; reflexivity.
Qed.

Lemma animations_wired (w w' : World) :
  w' = with_console (console w') (with_observed (observed w') w) ->
  (exists more, observed w' = observed w ++ more) ->
  (exists lines, console w' = console w ++ lines) ->
  wired_only w w'.
Proof.
  intros Heq Ho Hc. split; [rewrite Heq; reflexivity |].
  split; [rewrite Heq; reflexivity |].
  split; [apply grown_same_document; rewrite Heq; reflexivity |].
  split; assumption.
Qed.

Lemma construct_total (c : App.SectionClass) (w : World) :
  exists section w',
    App.construct c w = (Normal section, w')
    /\ w' = with_console (console w') w
    /\ kind section = c
    /\ isInitialized (App.section_base section) = false
    /\ holds_nodes w' section
    /\ exists lines, console w' = console w ++ lines.
Proof.
  assert (Hbase : forall i, exists b w',
             BaseSection_constructor i w = (Normal b, w')
             /\ w' = with_console (console w') w
             /\ isInitialized b = false
             /\ exists lines, console w' = console w ++ lines).
  { intros i. unfold BaseSection_constructor, PortfolioConfig.getSectionConfig, bind.
    rewrite querySelector_cases. destruct (selectorOk w (ById i)).
    - eexists _, w. js_unfold. split; [reflexivity |].
      split; [destruct w; reflexivity |]. split; [reflexivity |].
      exists []. rewrite app_nil_r. reflexivity.
    - eexists _, _. js_unfold. split; [reflexivity |]. split; [reflexivity |].
      split; [reflexivity |]. eexists. reflexivity. }
  destruct c; unfold App.construct.
  - destruct (Hbase "hero") as (b & w' & Hrun & Heq & Hb & Hcon).
    unfold HeroSection_constructor, bind. rewrite Hrun, querySelector_cases. simpl.
    js_unfold. eexists _, w'. split; [reflexivity |]. split; [exact Heq |].
    split; [reflexivity |]. split; [exact Hb |]. split; [| exact Hcon].
    simpl. intros p Hp. apply (select_first_lookup _ _ _ Hp).
  - destruct (Hbase "projects") as (b & w' & Hrun & Heq & Hb & Hcon).
    unfold ProjectsSection_constructor, bind. rewrite Hrun, querySelectorAll_cases. simpl.
    js_unfold. eexists _, w'. split; [reflexivity |]. split; [exact Heq |].
    split; [reflexivity |]. split; [exact Hb |]. split; [| exact Hcon].
    simpl. apply select_all_in_document.
  - destruct (Hbase "skills") as (b & w' & Hrun & Heq & Hb & Hcon).
    unfold SkillsSection_constructor, bind. rewrite Hrun, querySelectorAll_cases. simpl.
    js_unfold. eexists _, w'. split; [reflexivity |]. split; [exact Heq |].
    split; [reflexivity |]. split; [exact Hb |]. split; [| exact Hcon].
    simpl. apply select_all_in_document.
Qed.

Lemma forEach_skill_listeners_grown (l : list nat) :
  forall (i : nat) (w0 w : World),
    listeners_only w0 w ->
    Forall (fun n => exists e, document w0 !! n = Some e) l ->
    exists w',
      forEach_from i l
        (fun tag _ => addEventListener tag "click" (OnSkillClick tag)) w
      = (Normal tt, w')
      /\ listeners_only w0 w' /\ grown w w'.
Proof.
  induction l as [| x l IH]; intros i w0 w Hw Hin.
  - exists w. simpl. js_unfold. split; [reflexivity |]. split; [exact Hw |].
    apply grown_refl.
  - inversion Hin as [| ? ? Hx Hin']; subst.
    destruct (addEventListener_grows w0 w x "click" (OnSkillClick x) Hw Hx)
      as (w1 & Hrun1 & Hw1 & Hg1 & _).
    destruct (IH (S i) w0 w1 Hw1 Hin') as (w' & Hrun & Hw' & Hg).
    exists w'. split; [simpl; unfold bind at 1; rewrite Hrun1; exact Hrun |].
    split; [exact Hw' |]. exact (grown_trans _ _ _ Hg1 Hg).
Qed.

(** [init()] of a section object whose nodes are in the document returns
    normally and only adds listeners and observations. *)
Lemma section_init_total (section : App.AnySection) (w : World) :
  holds_nodes w section ->
  exists section' w',
    App.section_init section w = (Normal section', w')
    /\ kind section' = kind section
    /\ wired_only w w'
    /\ timers w' = timers w
    /\ globalListeners w' = globalListeners w.
Proof.
  intros Hnodes.
  assert (Hwired_fields : forall w', wired_only w w' ->
             timers w' = timers w /\ globalListeners w' = globalListeners w).
  { intros w' (Heq & _ & _). rewrite Heq. split; reflexivity. }
  destruct section as [s | s | s]; simpl in Hnodes; simpl App.section_init;
    unfold init, bind;
    change (base s) with (hero_base s) || change (base s) with (projects_base s)
    || change (base s) with (skills_base s).
  - destruct (element (hero_base s)) as [r |] eqn:Hel;
      [| js_unfold; eexists _, w; split; [reflexivity |];
         split; [reflexivity |]; split; [apply wired_only_refl |]; split; reflexivity].
    destruct (isInitialized (hero_base s)) eqn:Hi;
      [js_unfold; eexists _, w; split; [reflexivity |];
       split; [reflexivity |]; split; [apply wired_only_refl |]; split; reflexivity |].
    assert (Hlisten : exists w1,
               HeroSection_setupEventListeners s w = (Normal tt, w1)
               /\ wired_only w w1).
    { unfold HeroSection_setupEventListeners.
      destruct (profilePicture s) as [p |] eqn:Hp.
      - destruct (addEventListener_grows w w p "click" (OnProfileClick (Some p))
                    (listeners_only_refl w) (Hnodes p eq_refl))
          as (w1 & Hrun & Hw1 & Hg & _).
        exists w1. split; [exact Hrun |]. apply listeners_only_wired; assumption.
      - exists w. split; [reflexivity | apply wired_only_refl]. }
    destruct Hlisten as (w1 & Hrun1 & Hw1).
    change (setupEventListeners s w) with (HeroSection_setupEventListeners s w).
    rewrite Hrun1.
    destruct (setupAnimations_then_observe (hero_base s)
                (ByClass "profile-picture-container") ProfilePulse w1)
      as (w2 & Hrun2 & Heq2 & Hobs2 & Hcon2).
    change (setupAnimations s w1)
      with ((BaseSection_setupAnimations (hero_base s) ;;
             let* on := PortfolioConfig.areAnimationsEnabled in
             if on then AnimationUtils.observeElements
                          (ByClass "profile-picture-container") ProfilePulse
             else ret tt) w1).
    rewrite Hrun2. js_unfold.
    pose proof (wired_only_trans _ _ _ Hw1 (animations_wired _ _ Heq2 (ex_intro _ _ Hobs2) Hcon2)) as Hw2.
    eexists _, w2. split; [reflexivity |]. split; [reflexivity |].
    split; [exact Hw2 |]. apply Hwired_fields. exact Hw2.
  - destruct (element (projects_base s)) as [r |] eqn:Hel;
      [| js_unfold; eexists _, w; split; [reflexivity |];
         split; [reflexivity |]; split; [apply wired_only_refl |]; split; reflexivity].
    destruct (isInitialized (projects_base s)) eqn:Hi;
      [js_unfold; eexists _, w; split; [reflexivity |];
       split; [reflexivity |]; split; [apply wired_only_refl |]; split; reflexivity |].
    destruct (forEach_project_cards w (projectCards s) 0 w (listeners_only_refl w) Hnodes)
      as (w1 & Hrun1 & Hlo1 & Hg1 & _).
    change (setupEventListeners s w) with (ProjectsSection_setupEventListeners s w).
    unfold ProjectsSection_setupEventListeners, forEach. rewrite Hrun1.
    destruct (setupAnimations_then_observe (projects_base s)
                (ByClass "project-card") (FadeInCard (projectCards s)) w1)
      as (w2 & Hrun2 & Heq2 & Hobs2 & Hcon2).
    change (setupAnimations s w1)
      with ((BaseSection_setupAnimations (projects_base s) ;;
             let* on := PortfolioConfig.areAnimationsEnabled in
             if on then AnimationUtils.observeElements (ByClass "project-card")
                          (FadeInCard (projectCards s))
             else ret tt) w1).
    rewrite Hrun2. js_unfold.
    pose proof (wired_only_trans _ _ _ (listeners_only_wired _ _ Hlo1 Hg1)
                  (animations_wired _ _ Heq2 (ex_intro _ _ Hobs2) Hcon2)) as Hw2.
    eexists _, w2. split; [reflexivity |]. split; [reflexivity |].
    split; [exact Hw2 |]. apply Hwired_fields. exact Hw2.
  - destruct (element (skills_base s)) as [r |] eqn:Hel;
      [| js_unfold; eexists _, w; split; [reflexivity |];
         split; [reflexivity |]; split; [apply wired_only_refl |]; split; reflexivity].
    destruct (isInitialized (skills_base s)) eqn:Hi;
      [js_unfold; eexists _, w; split; [reflexivity |];
       split; [reflexivity |]; split; [apply wired_only_refl |]; split; reflexivity |].
    destruct (forEach_skill_listeners_grown (skillTags s) 0 w w
                (listeners_only_refl w) Hnodes)
      as (w1 & Hrun1 & Hlo1 & Hg1).
    change (setupEventListeners s w) with (SkillsSection_setupEventListeners s w).
    unfold SkillsSection_setupEventListeners, forEach. rewrite Hrun1.
    destruct (setupAnimations_then_observe (skills_base s)
                (ByClass "skill-tag") (FadeInSkill (skillTags s)) w1)
      as (w2 & Hrun2 & Heq2 & Hobs2 & Hcon2).
    change (setupAnimations s w1)
      with ((BaseSection_setupAnimations (skills_base s) ;;
             let* on := PortfolioConfig.areAnimationsEnabled in
             if on then AnimationUtils.observeElements (ByClass "skill-tag")
                          (FadeInSkill (skillTags s))
             else ret tt) w1).
    rewrite Hrun2. js_unfold.
    pose proof (wired_only_trans _ _ _ (listeners_only_wired _ _ Hlo1 Hg1)
                  (animations_wired _ _ Heq2 (ex_intro _ _ Hobs2) Hcon2)) as Hw2.
    eexists _, w2. split; [reflexivity |]. split; [reflexivity |].
    split; [exact Hw2 |]. apply Hwired_fields. exact Hw2.
Qed.

Lemma bind_normal {St X Y} (m : M St X) (k : X -> M St Y) (s s' : St) (x : X) :
  m s = (Normal x, s') -> bind m k s = k x s'.
Proof. intros H. unfold bind. rewrite H. reflexivity. Qed.

Lemma lift_run {X} (m : Js X) (p : App.Page) (r : Completion X) (w' : World) :
  m (App.world p) = (r, w') -> App.lift m p = (r, App.with_world w' p).
Proof. intros H. unfold App.lift. rewrite H. reflexivity. Qed.

(** One round of the loop of [initializeSections]. *)
Lemma register_step (name : string) (c : App.SectionClass) (p : App.Page) :
  exists section w',
    try_catch
      (let* section := App.lift (App.construct c) in
       let* section := App.lift (App.section_init section) in
       App.sections_set name section)
      (fun error => App.lift (console_warn ("Erro ao inicializar seção " +:+ name))) p
    = (Normal tt,
       App.with_app
         {| App.sections := <[name := section]> (App.sections (App.app p));
            App.isInitialized := App.isInitialized (App.app p) |}
         (App.with_world w' p))
    /\ kind section = c
    /\ wired_only (App.world p) w'
    /\ timers w' = timers (App.world p)
    /\ globalListeners w' = globalListeners (App.world p).
Proof.
  destruct (construct_total c (App.world p))
    as (s & w1 & Hctor & Heq1 & Hkind & _ & Hnodes & Hcon1).
  destruct (section_init_total s w1 Hnodes) as (s' & w2 & Hinit & Hkind' & Hw2 & Ht & Hg).
  exists s', w2. split.
  - unfold try_catch, bind.
    rewrite (lift_run _ p _ _ Hctor).
    rewrite (lift_run _ (App.with_world w1 p) _ w2 Hinit). reflexivity.
  - split; [congruence |]. split; [| split].
    + apply (wired_only_trans _ w1); [| exact Hw2].
      apply wired_only_console; assumption.
    + rewrite Ht, Heq1. reflexivity.
    + rewrite Hg, Heq1. reflexivity.
Qed.

Lemma initializeSections_run (p : App.Page) :
  exists p',
    App.initializeSections p = (Normal tt, p')
    /\ (exists s, App.sections (App.app p') !! "hero" = Some (App.IsHero s))
    /\ (exists s, App.sections (App.app p') !! "projects" = Some (App.IsProjects s))
    /\ (exists s, App.sections (App.app p') !! "skills" = Some (App.IsSkills s))
    /\ App.isInitialized (App.app p') = App.isInitialized (App.app p)
    /\ p' = App.with_app (App.app p') (App.with_world (App.world p') p)
    /\ wired_only (App.world p) (App.world p')
    /\ timers (App.world p') = timers (App.world p)
    /\ globalListeners (App.world p') = globalListeners (App.world p).
Proof.
  destruct (register_step "hero" App.HeroClass p) as (s1 & w1 & Hrun1 & Hk1 & Hw1 & Ht1 & Hg1).
  set (p1 := App.with_app _ (App.with_world w1 p)) in Hrun1.
  destruct (register_step "projects" App.ProjectsClass p1)
    as (s2 & w2 & Hrun2 & Hk2 & Hw2 & Ht2 & Hg2).
  set (p2 := App.with_app _ (App.with_world w2 p1)) in Hrun2.
  destruct (register_step "skills" App.SkillsClass p2)
    as (s3 & w3 & Hrun3 & Hk3 & Hw3 & Ht3 & Hg3).
  set (p3 := App.with_app _ (App.with_world w3 p2)) in Hrun3.
  exists p3. split.
  { unfold App.initializeSections, forEach.
    cbn beta iota zeta delta [forEach_from fst snd].
    rewrite (bind_normal _ _ _ _ _ Hrun1), (bind_normal _ _ _ _ _ Hrun2),
      (bind_normal _ _ _ _ _ Hrun3).
    reflexivity. }
  destruct s1 as [h1 | |]; try discriminate.
  destruct s2 as [| c2 |]; try discriminate.
  destruct s3 as [| | k3]; try discriminate.
  split; [exists h1; simpl; rewrite lookup_insert_ne by discriminate;
          rewrite lookup_insert_ne by discriminate; apply lookup_insert_eq |].
  split; [exists c2; simpl; rewrite lookup_insert_ne by discriminate;
          apply lookup_insert_eq |].
  split; [exists k3; simpl; apply lookup_insert_eq |].
  split; [reflexivity |]. split; [reflexivity |].
  simpl in Hw2, Hw3, Ht2, Ht3, Hg2, Hg3.
  split; [exact (wired_only_trans _ _ _ Hw1 (wired_only_trans _ _ _ Hw2 Hw3)) |].
  split; simpl; congruence.
Qed.

(** [initializeSections] returns normally whatever the page, and leaves a
    controller of the right class registered under each of "hero",
    "projects" and "skills", also for a section that is not in the page.
    On the way only listeners and observations are added, and possibly
    warnings logged: the document has the same nodes, each as it was but
    for listeners added after those it had; the observations and the
    console have grown at their ends; nothing else has changed. *)
Theorem initializeSections_registers_all (p : App.Page) :
  exists p',
    App.initializeSections p = (Normal tt, p')
    /\ (exists s, App.sections (App.app p') !! "hero" = Some (App.IsHero s))
    /\ (exists s, App.sections (App.app p') !! "projects" = Some (App.IsProjects s))
    /\ (exists s, App.sections (App.app p') !! "skills" = Some (App.IsSkills s))
    /\ App.isInitialized (App.app p') = App.isInitialized (App.app p)
    /\ wired_only (App.world p) (App.world p').
Proof.
  destruct (initializeSections_run p)
    as (p' & Hrun & Hh & Hc & Hk & Hi & _ & Hw & _).
  exists p'. split; [exact Hrun |]. split; [exact Hh |]. split; [exact Hc |].
  split; [exact Hk |]. split; [exact Hi | exact Hw].
Qed.

Lemma forEach_listeners (ty : string) (mk : nat -> Handler) (l : list nat) :
  forall (i : nat) (w0 w : World),
    listeners_only w0 w ->
    Forall (fun n => exists e, document w0 !! n = Some e) l ->
    exists w',
      forEach_from i l (fun n _ => addEventListener n ty (mk n)) w = (Normal tt, w')
      /\ listeners_only w0 w' /\ grown w w'
      /\ forall n, n ∈ l -> listens w' n ty (mk n).
Proof.
  induction l as [| x l IH]; intros i w0 w Hw Hin.
  - exists w. simpl. js_unfold. split; [reflexivity |]. split; [exact Hw |].
    split; [apply grown_refl |]. intros n Hn. inversion Hn.
  - inversion Hin as [| ? ? Hx Hin']; subst.
    destruct (addEventListener_grows w0 w x ty (mk x) Hw Hx)
      as (w1 & Hrun1 & Hw1 & Hg1 & Hl1).
    destruct (IH (S i) w0 w1 Hw1 Hin') as (w' & Hrun & Hw' & Hg & Hall).
    exists w'. split; [simpl; unfold bind at 1; rewrite Hrun1; exact Hrun |].
    split; [exact Hw' |]. split; [exact (grown_trans _ _ _ Hg1 Hg) |].
    intros n Hn. apply elem_of_cons in Hn as [-> | Hn].
    + exact (listens_grown _ _ _ _ _ Hg Hl1).
    + apply Hall. exact Hn.
Qed.

Lemma setupScrollBehavior_run (w : World) :
  exists w',
    App.setupScrollBehavior w = (Normal tt, w')
    /\ wired_only w w'
    /\ observed w' = observed w /\ console w' = console w
    /\ (Config.smooth (Config.scroll (portfolioConfig w)) = true ->
        forall link, matches_at (document w) (TagHrefPrefix "a" "#") link = true ->
                     listens w' link "click" (OnAnchorClick link))
    /\ (Config.smooth (Config.scroll (portfolioConfig w)) = false -> w' = w).
Proof.
  unfold App.setupScrollBehavior. unfold bind at 1. unfold get.
  destruct (Config.smooth (Config.scroll (portfolioConfig w))) eqn:Hs.
  - unfold bind. rewrite querySelectorAll_cases. simpl selectorOk. cbv iota.
    destruct (forEach_listeners "click" OnAnchorClick
                (select_all (document w) (TagHrefPrefix "a" "#")) 0 w w
                (listeners_only_refl w) (select_all_in_document _ _))
      as (w' & Hrun & Hlo & Hg & Hall).
    exists w'. unfold forEach. split; [exact Hrun |].
    split; [apply listeners_only_wired; assumption |].
    destruct Hlo as [Heq _].
    split; [rewrite Heq; reflexivity |]. split; [rewrite Heq; reflexivity |].
    split; [| discriminate].
    intros _ link Hm. apply Hall. apply select_all_elem. exact Hm.
  - exists w. split; [reflexivity |]. split; [apply wired_only_refl |].
    split; [reflexivity |]. split; [reflexivity |]. split; [discriminate | reflexivity].
Qed.

Lemma forEach_listeners_exact (ty : string) (mk : nat -> Handler) (l : list nat) :
  NoDup l ->
  forall (i : nat) (w : World),
    Forall (fun n => exists e, document w !! n = Some e) l ->
    exists w',
      forEach_from i l (fun n _ => addEventListener n ty (mk n)) w = (Normal tt, w')
      /\ w' = with_document (document w') w
      /\ List.length (document w') = List.length (document w)
      /\ forall n,
           document w' !! n
           = if decide (n ∈ l) then add_listener ty (mk n) <$> document w !! n
             else document w !! n.
Proof.
  induction l as [| x l IH]; intros Hnd i w Hin.
  - exists w. simpl. js_unfold. split; [reflexivity |].
    split; [destruct w; reflexivity |]. split; [reflexivity |].
    intros n. destruct (decide (n ∈ [])) as [Hn | _]; [inversion Hn | reflexivity].
  - apply NoDup_cons in Hnd as [Hx Hnd].
    inversion Hin as [| ? ? [e He] Hin']; subst.
    simpl. unfold bind, addEventListener at 1.
    rewrite (update_found x _ w e He).
    set (w1 := with_document (alter (add_listener ty (mk x)) x (document w)) w).
    assert (Hin1 : Forall (fun n => exists e, document w1 !! n = Some e) l).
    { apply Forall_forall. intros n Hn. rewrite Forall_forall in Hin'.
      destruct (Hin' n Hn) as [e' He']. apply lookup_lt_is_Some.
      simpl. rewrite length_alter. apply lookup_lt_is_Some. eauto. }
    destruct (IH Hnd (S i) w1 Hin1) as (w' & Hrun & Heq & Hlen & Hat).
    exists w'. split; [exact Hrun |]. split; [rewrite Heq; reflexivity |].
    split; [rewrite Hlen; simpl; apply length_alter |].
    intros n. rewrite Hat. simpl.
    destruct (decide (n = x)) as [-> | Hne].
    + destruct (decide (x ∈ l)) as [Hxl | _]; [contradiction |].
      destruct (decide (x ∈ x :: l)) as [_ | Hout]; [| exfalso; apply Hout; left].
      apply list_lookup_alter_eq.
    + rewrite list_lookup_alter_ne by congruence.
      destruct (decide (n ∈ l)) as [Hnl | Hnl].
      * destruct (decide (n ∈ x :: l)) as [_ | Hout]; [reflexivity |].
        exfalso. apply Hout. right. exact Hnl.
      * destruct (decide (n ∈ x :: l)) as [Hin2 | _]; [| reflexivity].
        apply elem_of_cons in Hin2 as [? | ?]; contradiction.
Qed.

(** [setupScrollBehavior] returns normally and changes nothing but the
    document.  With smooth scrolling enabled the document changes in one
    way only: every link of the page whose [href] starts with "#" has one
    more listener, the click listener for in-page scrolling; all other
    nodes are as they were.  With smooth scrolling disabled nothing
    changes. *)
Theorem setupScrollBehavior_links (w : World) :
  exists w',
    App.setupScrollBehavior w = (Normal tt, w')
    /\ w' = with_document (document w') w
    /\ (Config.smooth (Config.scroll (portfolioConfig w)) = true ->
        forall n,
          document w' !! n
          = if matches_at (document w) (TagHrefPrefix "a" "#") n
            then add_listener "click" (OnAnchorClick n) <$> document w !! n
            else document w !! n)
    /\ (Config.smooth (Config.scroll (portfolioConfig w)) = false -> w' = w).
Proof.
  unfold App.setupScrollBehavior. unfold bind at 1. unfold get.
  destruct (Config.smooth (Config.scroll (portfolioConfig w))) eqn:Hs.
  - unfold bind. rewrite querySelectorAll_cases. simpl selectorOk. cbv iota.
    destruct (forEach_listeners_exact "click" OnAnchorClick
                (select_all (document w) (TagHrefPrefix "a" "#"))
                (select_all_NoDup _ _) 0 w (select_all_in_document _ _))
      as (w' & Hrun & Heq & _ & Hat).
    exists w'. unfold forEach. split; [exact Hrun |]. split; [exact Heq |].
    split; [| discriminate].
    intros _ n. rewrite Hat.
    destruct (decide (n ∈ select_all (document w) (TagHrefPrefix "a" "#")))
      as [Hin | Hout].
    + apply select_all_elem in Hin. rewrite Hin. reflexivity.
    + destruct (matches_at (document w) (TagHrefPrefix "a" "#") n) eqn:Hm;
        [| reflexivity].
      exfalso. apply Hout. apply select_all_elem. exact Hm.
  - exists w. split; [reflexivity |]. split; [destruct w; reflexivity |].
    split; [discriminate | reflexivity].
Qed.

(** The rest of [init()] after its [await]: it returns normally and sets
    the application up, whatever the page. *)
Lemma init_resume_completes (p0 : App.Page) :
  exists p',
    App.init_resume p0 = (Normal tt, p')
    /\ App.isInitialized (App.app p') = true
    /\ (exists h c k,
           App.sections (App.app p') !! "hero" = Some (App.IsHero h)
           /\ App.sections (App.app p') !! "projects" = Some (App.IsProjects c)
           /\ App.sections (App.app p') !! "skills" = Some (App.IsSkills k))
    /\ globalListeners (App.world p')
       = globalListeners (App.world p0)
         ++ [ResizeDebounced 250; ScrollThrottled 16; MotionPreferenceChange]
    /\ same_shapes (document (App.world p')) (document (App.world p0))
    /\ p' = App.with_app (App.app p') (App.with_world (App.world p') p0)
    /\ (Config.smooth (Config.scroll (portfolioConfig (App.world p0))) = true ->
        forall link,
          matches_at (document (App.world p0)) (TagHrefPrefix "a" "#") link = true ->
          listens (App.world p') link "click" (OnAnchorClick link))
    /\ grown (App.world p0) (App.world p')
    /\ last (console (App.world p')) = Some "Portfólio inicializado com sucesso!".
Proof.
  destruct (initializeSections_run p0)
    as (p1 & Hrun1 & Hh & Hc & Hk & Hi1 & Heq1 & Hw1 & _ & Hg1).
  set (w2 := with_globalListeners
               (globalListeners (App.world p1)
                ++ [ResizeDebounced 250; ScrollThrottled 16; MotionPreferenceChange])
               (App.world p1)).
  assert (Hrun2 : App.setupGlobalEventListeners (App.world p1) = (Normal tt, w2)).
  { unfold App.setupGlobalEventListeners, App.addGlobalListener. js_unfold.
    unfold w2. simpl. rewrite <- !app_assoc. reflexivity. }
  destruct (setupScrollBehavior_run w2) as (w3 & Hrun3 & Hw3 & _ & Hcon3 & Hanchors & _).
  set (p' := App.with_world
               (with_console (console w3 ++ ["Portfólio inicializado com sucesso!"]) w3)
               (App.with_app {| App.sections := App.sections (App.app p1);
                                App.isInitialized := true |}
                  (App.with_world w3 (App.with_world w2 p1)))).
  exists p'. split.
  { unfold App.init_resume, try_catch.
    rewrite (bind_normal _ _ _ _ _ Hrun1).
    rewrite (bind_normal _ _ _ _ _ (lift_run _ p1 _ _ Hrun2)).
    rewrite (bind_normal _ _ _ _ _ (lift_run _ (App.with_world w2 p1) _ w3 Hrun3)).
    reflexivity. }
  split; [reflexivity |].
  split.
  { destruct Hh as [h Hh], Hc as [c Hc], Hk as [k Hk]. exists h, c, k. auto. }
  pose proof Hw1 as Hw1'.
  destruct Hw3 as (Heq3 & Hs3 & Hgr3 & _). destruct Hw1 as (_ & Hs1 & Hgr1 & _).
  split; [simpl; rewrite Heq3; simpl; rewrite Hg1; reflexivity |].
  split; [simpl; unfold same_shapes in *; rewrite Hs3; exact Hs1 |].
  split; [unfold p'; rewrite Heq1; reflexivity |].
  split; [| split; [| simpl; apply last_snoc]].
  2:{ apply (grown_trans _ (App.world p1)); [exact Hgr1 |].
      intros n e He. apply (Hgr3 n e). exact He. }
  intros Hsmooth link Hm.
  assert (Hcfg : portfolioConfig w2 = portfolioConfig (App.world p0)).
  { destruct Hw1' as (Heqw & _ & _). unfold w2. simpl. rewrite Heqw. reflexivity. }
  assert (Hm2 : matches_at (document w2) (TagHrefPrefix "a" "#") link = true).
  { change (document w2) with (document (App.world p1)).
    rewrite (matches_at_shapes _ _ (TagHrefPrefix "a" "#") Hs1 link). exact Hm. }
  rewrite <- Hcfg in Hsmooth.
  destruct (Hanchors Hsmooth link Hm2) as (e & He & Hin).
  exists e. split; [exact He | exact Hin].
Qed.

Lemma init_then_microtasks (p : App.Page) :
  App.isInitialized (App.app p) = false ->
  App.readyState p <> App.Loading ->
  App.microtasks p = [] ->
  (App.init ;; App.runMicrotasks) p = App.init_resume (App.with_microtasks [] p).
Proof.
  intros Hflag Hready Hq.
  unfold App.init, App.waitForDOM, App.runMicrotasks. js_unfold. rewrite Hflag.
  destruct (App.readyState p) eqn:Hr; [contradiction | |]; simpl;
    rewrite Hq; simpl;
    change (App.with_microtasks [] (App.with_microtasks [App.InitAfterWait] p))
      with (App.with_microtasks [] p);
    unfold forEach; cbn [forEach_from App.resume]; unfold bind;
    destruct (App.init_resume (App.with_microtasks [] p)) as [[[] | err] q];
    reflexivity.
Qed.

(** On a page that has finished loading, [init()] followed by the pending
    microtasks returns normally and leaves the application initialized: the
    three controllers are registered, the three global listeners (resize
    debounced by 250ms, scroll throttled by 16ms, motion preference) are
    added once, and the success line is the last of the console.  The
    document has the same nodes, and every node is as it was but for
    listeners added after those it had: its text, styles, classes and
    position are unchanged.  A further [init()] then leaves the page exactly
    as it is. *)
Theorem app_init_completes (p : App.Page) :
  App.isInitialized (App.app p) = false ->
  App.readyState p <> App.Loading ->
  App.microtasks p = [] ->
  exists p',
    (App.init ;; App.runMicrotasks) p = (Normal tt, p')
    /\ App.isInitialized (App.app p') = true
    /\ (exists h c k,
           App.sections (App.app p') !! "hero" = Some (App.IsHero h)
           /\ App.sections (App.app p') !! "projects" = Some (App.IsProjects c)
           /\ App.sections (App.app p') !! "skills" = Some (App.IsSkills k))
    /\ globalListeners (App.world p')
       = globalListeners (App.world p)
         ++ [ResizeDebounced 250; ScrollThrottled 16; MotionPreferenceChange]
    /\ last (console (App.world p')) = Some "Portfólio inicializado com sucesso!"
    /\ same_shapes (document (App.world p')) (document (App.world p))
    /\ grown (App.world p) (App.world p')
    /\ App.microtasks p' = []
    /\ (App.init ;; App.runMicrotasks) p' = (Normal tt, p').
Proof.
  intros Hflag Hready Hq.
  destruct (init_resume_completes (App.with_microtasks [] p))
    as (p' & Hrun & Hflag' & Hsec & Hgl & Hs & Heq & _ & Hgr & Hlast).
  assert (Hq' : App.microtasks p' = []).
  { rewrite Heq. reflexivity. }
  exists p'. split.
  { rewrite (init_then_microtasks p Hflag Hready Hq). exact Hrun. }
  split; [exact Hflag' |]. split; [exact Hsec |]. split; [exact Hgl |].
  split; [exact Hlast |]. split; [exact Hs |]. split; [exact Hgr |].
  split; [exact Hq' |].
  clear Hrun Heq. unfold App.init, App.runMicrotasks. js_unfold.
  rewrite Hflag'. rewrite Hq'.
  destruct p' as [pw pa pr pd pm]. simpl in Hq'. subst pm. reflexivity.
Qed.

Lemma app_init_completes_witness :
  exists p',
    (App.init ;; App.runMicrotasks) Sample.page0 = (Normal tt, p')
    /\ App.isInitialized (App.app p') = true
    /\ globalListeners (App.world p')
       = [ResizeDebounced 250; ScrollThrottled 16; MotionPreferenceChange]
    /\ (App.init ;; App.runMicrotasks) p' = (Normal tt, p').
Proof.
  destruct (app_init_completes Sample.page0 eq_refl ltac:(discriminate) eq_refl)
    as (p' & Hrun & Hflag & _ & Hgl & _ & _ & _ & _ & Hagain).
  exists p'. split; [exact Hrun |]. split; [exact Hflag |].
  split; [exact Hgl | exact Hagain].
Defined.

(** While the document is loading, [init()] sets nothing up: it only waits
    for [DOMContentLoaded].  When the event comes, the application is set up
    as on a loaded page. *)
Theorem app_init_waits_for_DOM (p : App.Page) :
  App.isInitialized (App.app p) = false ->
  App.readyState p = App.Loading ->
  App.microtasks p = [] ->
  App.domContentLoaded p = [] ->
  (App.init ;; App.runMicrotasks) p
  = (Normal tt, App.with_domContentLoaded [App.InitAfterWait] p)
  /\ exists p',
       (App.init ;; App.runMicrotasks ;; App.fireDOMContentLoaded) p = (Normal tt, p')
       /\ App.isInitialized (App.app p') = true
       /\ App.readyState p' = App.Interactive
       /\ App.domContentLoaded p' = [] /\ App.microtasks p' = []
       /\ globalListeners (App.world p')
          = globalListeners (App.world p)
            ++ [ResizeDebounced 250; ScrollThrottled 16; MotionPreferenceChange].
Proof.
  intros Hflag Hready Hq Hd.
  assert (Hfirst : (App.init ;; App.runMicrotasks) p
                   = (Normal tt, App.with_domContentLoaded [App.InitAfterWait] p)).
  { unfold App.init, App.waitForDOM, App.runMicrotasks. js_unfold.
    rewrite Hflag, Hready. simpl. rewrite Hq, Hd. simpl.
    destruct p as [pw pa pr pd pm]. simpl in *. subst. reflexivity. }
  split; [exact Hfirst |].
  set (p0 := App.with_microtasks []
               (App.with_domContentLoaded [] (App.with_readyState App.Interactive p))).
  destruct (init_resume_completes p0) as (p' & Hrun & Hflag' & _ & Hgl & _ & Heq & _).
  exists p'. split.
  { unfold App.init, App.waitForDOM, App.runMicrotasks, App.fireDOMContentLoaded.
    js_unfold. rewrite Hflag, Hready. simpl. rewrite Hq, Hd. simpl.
    unfold App.runMicrotasks. js_unfold. simpl App.microtasks.
    unfold forEach. cbn [forEach_from App.resume]. unfold bind.
    match goal with
    | |- context [App.init_resume ?q] => change q with p0
    end.
    rewrite Hrun. reflexivity. }
  split; [exact Hflag' |].
  rewrite Heq. simpl. repeat split. exact Hgl.
Qed.

Lemma app_init_waits_for_DOM_witness :
  exists p',
    (App.init ;; App.runMicrotasks ;; App.fireDOMContentLoaded)
      (App.with_readyState App.Loading Sample.page0) = (Normal tt, p')
    /\ App.isInitialized (App.app p') = true
    /\ App.readyState p' = App.Interactive.
Proof.
  destruct (app_init_waits_for_DOM (App.with_readyState App.Loading Sample.page0)
              eq_refl eq_refl eq_refl eq_refl)
    as (_ & p' & Hrun & Hflag & Hready & _).
  exists p'. auto.
Defined.

(** The three entry points of the application.  Before any controller is
    registered each call does nothing at all; once the three controllers are
    registered, a call with an argument that is not falsy does exactly what
    the method of the section's controller does, and a call with a falsy
    argument still does nothing. *)
Theorem app_api_dispatch (p : App.Page) :
  (App.sections (App.app p) = ∅ ->
   forall userData projectData skillName,
     App.updateUserData userData p = (Normal tt, p)
     /\ App.addProject projectData p = (Normal tt, p)
     /\ App.addSkill skillName p = (Normal tt, p))
  /\ (forall h c k,
        App.sections (App.app p) !! "hero" = Some (App.IsHero h) ->
        App.sections (App.app p) !! "projects" = Some (App.IsProjects c) ->
        App.sections (App.app p) !! "skills" = Some (App.IsSkills k) ->
        (forall u, App.updateUserData (Some u) p = App.lift (updateUserInfo u) p)
        /\ (forall d, App.addProject (Some d) p = App.lift (addProject d) p)
        /\ (forall n, n <> "" -> App.addSkill n p = App.lift (addSkill n) p)
        /\ App.updateUserData None p = (Normal tt, p)
        /\ App.addProject None p = (Normal tt, p)
        /\ App.addSkill "" p = (Normal tt, p)).
Proof.
  split.
  - intros Hempty u d n.
    unfold App.updateUserData, App.addProject, App.addSkill, App.getSection.
    js_unfold. rewrite Hempty, !lookup_empty. repeat split; reflexivity.
  - intros h c k Hh Hc Hk.
    unfold App.updateUserData, App.addProject, App.addSkill, App.getSection.
    js_unfold. rewrite Hh, Hc, Hk.
    split; [reflexivity |]. split; [reflexivity |].
    split; [intros n Hn; rewrite (truthy_nonempty n Hn); reflexivity |].
    repeat split; reflexivity.
Qed.

(** ** main.js: the click listener of in-page links *)



(** ** Dispatching events *)

Lemma same_shapes_trans (d1 d2 d3 : Document) :
  same_shapes d1 d2 -> same_shapes d2 d3 -> same_shapes d1 d3.
Proof. unfold same_shapes. congruence. Qed.

Lemma tame_ret {X} (x : X) : tame (ret x).
Proof. intros w. reflexivity. Qed.

Lemma tame_throw {X} (err : JsError) : tame (@throw World X err).
Proof. intros w. reflexivity. Qed.

Lemma tame_get : tame get.
Proof. intros w. reflexivity. Qed.

Lemma tame_bind {X Y} (m : Js X) (k : X -> Js Y) :
  tame m -> (forall x, tame (k x)) -> tame (bind m k).
Proof.
  intros Hm Hk w. unfold bind. specialize (Hm w).
  destruct (m w) as [[x | err] w1]; simpl in *; [| exact Hm].
  exact (same_shapes_trans _ _ _ (Hk x w1) Hm).
Qed.

Lemma tame_try_catch {X} (m : Js X) (h : JsError -> Js X) :
  tame m -> (forall err, tame (h err)) -> tame (try_catch m h).
Proof.
  intros Hm Hh w. unfold try_catch. specialize (Hm w).
  destruct (m w) as [[x | err] w1]; simpl in *; [exact Hm |].
  exact (same_shapes_trans _ _ _ (Hh err w1) Hm).
Qed.

Lemma tame_modify (f : World -> World) :
  (forall w, document (f w) = document w) -> tame (modify f).
Proof. intros Hf w. simpl. rewrite Hf. reflexivity. Qed.

Lemma tame_deref (n : nat) : tame (deref n).
Proof. intros w. unfold deref. destruct (document w !! n); reflexivity. Qed.

Lemma tame_update (n : nat) (f : Element -> Element) :
  (forall e, shape (f e) = shape e) -> tame (update n f).
Proof.
  intros Hf w. destruct (document w !! n) as [e |] eqn:He.
  - rewrite (update_found n f w e He). simpl. apply alter_same_shapes. exact Hf.
  - rewrite (update_missing n f w He). reflexivity.
Qed.

Lemma tame_areAnimationsEnabled : tame PortfolioConfig.areAnimationsEnabled.
Proof. intros w. rewrite areAnimationsEnabled_run. reflexivity. Qed.

Lemma tame_querySelector (s : Selector) : tame (DOMUtils.querySelector s).
Proof.
  intros w. rewrite querySelector_cases. destruct (selectorOk w s); reflexivity.
Qed.

Ltac tame_step :=
  first
    [ apply tame_ret | apply tame_throw | apply tame_get
    | apply tame_areAnimationsEnabled | apply tame_querySelector
    | apply tame_deref
    | apply tame_update; reflexivity
    | apply tame_modify; reflexivity
    | apply tame_bind; [| intros ?]
    | match goal with
      | |- tame (match ?x with _ => _ end) => destruct x
      end ].

Lemma tame_runHandler (h : Handler) (e : Event) : tame (Run.runHandler h e).
Proof.
  destruct h; simpl;
    unfold handleProfileClick, handleCardHover, handleProjectClick, handleSkillClick,
      App.anchorClick, ScrollUtils.smoothScrollTo, getAttribute_href, console_log,
      setTimeout, window_scrollTo;
    repeat tame_step.
Qed.

Lemma returns_ret {X} (x : X) (Q : X -> Prop) : Q x -> returns (ret x) Q.
Proof. intros HQ w x' w' H. inversion H; subst. exact HQ. Qed.

Lemma returns_bind {X Y} (m : Js X) (k : X -> Js Y) (Q : Y -> Prop) :
  (forall x, returns (k x) Q) -> returns (bind m k) Q.
Proof.
  intros Hk w y w' H. unfold bind in H.
  destruct (m w) as [[x | err] w1]; [| discriminate].
  exact (Hk x w1 y w' H).
Qed.

Lemma returns_throw {X} (err : JsError) (Q : X -> Prop) : returns (throw err) Q.
Proof. intros w x w' H. discriminate. Qed.

Lemma later_event_refl (e : Event) : later_event e e.
Proof. repeat split; auto. Qed.

Lemma later_event_prevent (e : Event) : later_event e (preventDefault e).
Proof. repeat split; auto. Qed.

Lemma later_event_trans (e1 e2 e3 : Event) :
  later_event e1 e2 -> later_event e2 e3 -> later_event e1 e3.
Proof.
  intros (Ht1 & Hg1 & Hp1) (Ht2 & Hg2 & Hp2).
  split; [congruence |]. split; [congruence | auto].
Qed.

Ltac returns_step :=
  first
    [ apply returns_ret; first [apply later_event_refl | apply later_event_prevent]
    | apply returns_throw
    | apply returns_bind; intros ?
    | match goal with
      | |- returns (match ?x with _ => _ end) _ => destruct x
      end ].

Lemma returns_runHandler (h : Handler) (e : Event) :
  returns (Run.runHandler h e) (later_event e).
Proof.
  destruct h; simpl;
    unfold handleProjectClick, App.anchorClick; repeat returns_step.
Qed.

(** One listener under the host's guard: it always ends normally, with the
    event as it was or prevented, and with the shapes of the nodes kept. *)
Lemma guarded_listener (h : Handler) (e : Event) (w : World) :
  exists e' w',
    try_catch (Run.runHandler h e)
      (fun error => console_log "Uncaught exception in listener" ;; ret e) w
    = (Normal e', w')
    /\ later_event e e'
    /\ same_shapes (document w') (document w).
Proof.
  pose proof (tame_runHandler h e w) as Hshape.
  pose proof (returns_runHandler h e) as Hret.
  unfold returns in Hret. specialize (Hret w).
  unfold try_catch.
  destruct (Run.runHandler h e w) as [[e1 | err] w1] eqn:Hrun; simpl in Hshape.
  - exists e1, w1. split; [reflexivity |]. split; [| exact Hshape].
    exact (Hret e1 w1 eq_refl).
  - eexists e, _. unfold console_log. js_unfold. split; [reflexivity |].
    split; [apply later_event_refl | exact Hshape].
Qed.

Lemma invoke_run (hs : list (string * Handler)) :
  forall (e : Event) (w : World),
    exists e' w',
      Run.invoke hs e w = (Normal e', w')
      /\ later_event e e'
      /\ same_shapes (document w') (document w).
Proof.
  induction hs as [| [ty h] hs IH]; intros e w.
  - exists e, w. split; [reflexivity |]. split; [apply later_event_refl | reflexivity].
  - simpl. destruct (String.eqb ty (type e)).
    + destruct (guarded_listener h e w) as (e1 & w1 & Hrun1 & Hl1 & Hs1).
      destruct (IH e1 w1) as (e2 & w2 & Hrun2 & Hl2 & Hs2).
      exists e2, w2. split; [rewrite (bind_normal _ _ _ _ _ Hrun1); exact Hrun2 |].
      split; [exact (later_event_trans _ _ _ Hl1 Hl2) |].
      exact (same_shapes_trans _ _ _ Hs2 Hs1).
    + apply IH.
Qed.

Lemma same_shapes_href (d d' : Document) (n : nat) (el : Element) :
  same_shapes d' d -> d !! n = Some el ->
  exists el', d' !! n = Some el' /\ href el' = href el.
Proof.
  intros Hs He. pose proof (same_shapes_lookup d' d n Hs) as Hn.
  rewrite He in Hn. destruct (d' !! n) as [el' |]; [| discriminate].
  exists el'. split; [reflexivity |]. simpl in Hn. inversion Hn. reflexivity.
Qed.

Lemma anchorClick_prevents (link : nat) (e : Event) (w : World) (el : Element) (h : string) :
  document w !! link = Some el -> href el = Some h ->
  exists w', App.anchorClick link e w = (Normal (preventDefault e), w').
Proof.
  intros Hlink Hhref.
  unfold App.anchorClick, getAttribute_href, deref. js_unfold.
  rewrite Hlink. simpl. rewrite Hhref.
  unfold ScrollUtils.smoothScrollTo, bind. rewrite querySelector_cases.
  destruct (selectorOk w _).
  - destruct (select_first (document w) _) as [t |] eqn:Ht; [| eexists; reflexivity].
    destruct (select_first_lookup _ _ _ Ht) as [et Het].
    unfold deref. rewrite Het. eexists. reflexivity.
  - eexists. reflexivity.
Qed.

Lemma invoke_anchor (link : nat) (hs : list (string * Handler)) :
  forall (e : Event) (w : World) (el : Element) (h : string),
    ("click", OnAnchorClick link) ∈ hs ->
    type e = "click" ->
    document w !! link = Some el -> href el = Some h ->
    forall e' w', Run.invoke hs e w = (Normal e', w') -> defaultPrevented e' = true.
Proof.
  induction hs as [| [ty hd] hs IH]; intros e w el h Hin Hty Hlink Hhref e' w' Hrun.
  - inversion Hin.
  - simpl in Hrun. apply elem_of_cons in Hin as [Heq | Hin].
    + inversion Heq; subst ty hd. rewrite Hty in Hrun. simpl in Hrun.
      destruct (anchorClick_prevents link e w el h Hlink Hhref) as (w1 & Hclick).
      unfold bind, try_catch in Hrun. simpl Run.runHandler in Hrun.
      rewrite Hclick in Hrun.
      destruct (invoke_run hs (preventDefault e) w1) as (e2 & w2 & Hrest & (_ & _ & Hp) & _).
      rewrite Hrest in Hrun. inversion Hrun; subst. apply Hp. reflexivity.
    + destruct (String.eqb ty (type e)).
      * destruct (guarded_listener hd e w) as (e1 & w1 & Hrun1 & (Ht1 & _ & _) & Hs1).
        rewrite (bind_normal _ _ _ _ _ Hrun1) in Hrun.
        destruct (same_shapes_href _ _ link el Hs1 Hlink) as (el1 & Hlink1 & Hhref1).
        assert (Hty1 : type e1 = "click") by congruence.
        assert (Hhref1' : href el1 = Some h) by congruence.
        exact (IH e1 w1 el1 h Hin Hty1 Hlink1 Hhref1' e' w' Hrun).
      * apply (IH e w el h Hin Hty Hlink Hhref e' w' Hrun).
Qed.

Lemma propagate_run (path : list nat) :
  forall (e : Event) (w : World),
    exists e' w',
      Run.propagate path e w = (Normal e', w')
      /\ later_event e e'
      /\ same_shapes (document w') (document w).
Proof.
  induction path as [| n path IH]; intros e w.
  - exists e, w. split; [reflexivity |]. split; [apply later_event_refl | reflexivity].
  - simpl. unfold bind at 1. unfold get.
    destruct (invoke_run (match document w !! n with
                          | Some el => listeners el
                          | None => []
                          end) e w) as (e1 & w1 & Hrun1 & Hl1 & Hs1).
    destruct (IH e1 w1) as (e2 & w2 & Hrun2 & Hl2 & Hs2).
    exists e2, w2. split; [rewrite (bind_normal _ _ _ _ _ Hrun1); exact Hrun2 |].
    split; [exact (later_event_trans _ _ _ Hl1 Hl2) |].
    exact (same_shapes_trans _ _ _ Hs2 Hs1).
Qed.

(** A click dispatched on a link that has the in-page listener and an
    [href]: the dispatch ends normally and the default action is prevented,
    whatever other listeners the link and its ancestors have; no listener
    changes what selectors read of any node. *)
Lemma click_on_anchor (w : World) (link : nat) (el : Element) (h : string) :
  document w !! link = Some el ->
  ("click", OnAnchorClick link) ∈ listeners el ->
  href el = Some h ->
  exists e' w',
    Run.dispatchEvent "click" link w = (Normal e', w')
    /\ defaultPrevented e' = true
    /\ same_shapes (document w') (document w).
Proof.
  intros Hlink Hin Hhref.
  unfold Run.dispatchEvent. unfold bind at 1. unfold get.
  set (e := {| type := "click"; target := link; defaultPrevented := false |}).
  cbn [Run.propagate]. unfold bind at 1. unfold get. rewrite Hlink.
  destruct (invoke_run (listeners el) e w) as (e1 & w1 & Hrun1 & Hl1 & Hs1).
  pose proof (invoke_anchor link (listeners el) e w el h Hin eq_refl Hlink Hhref
                e1 w1 Hrun1) as Hprev.
  rewrite (bind_normal _ _ _ _ _ Hrun1).
  destruct (propagate_run (if Run.bubbles "click" then ancestors (document w) link else [])
              e1 w1) as (e2 & w2 & Hrun2 & (_ & _ & Hp2) & Hs2).
  exists e2, w2. split; [exact Hrun2 |]. split; [apply Hp2; exact Hprev |].
  exact (same_shapes_trans _ _ _ Hs2 Hs1).
Qed.

(** After [init()] on a loaded page with smooth scrolling enabled, a click
    on any link of the page whose [href] starts with "#" has its default
    action prevented, whatever else listens on the link or on its
    ancestors. *)
Theorem in_page_links_never_navigate (p : App.Page) (link : nat) :
  App.isInitialized (App.app p) = false ->
  App.readyState p <> App.Loading ->
  App.microtasks p = [] ->
  Config.smooth (Config.scroll (portfolioConfig (App.world p))) = true ->
  matches_at (document (App.world p)) (TagHrefPrefix "a" "#") link = true ->
  exists p' e' w',
    (App.init ;; App.runMicrotasks) p = (Normal tt, p')
    /\ Run.dispatchEvent "click" link (App.world p') = (Normal e', w')
    /\ defaultPrevented e' = true.
Proof.
  intros Hflag Hready Hq Hsmooth Hm.
  destruct (init_resume_completes (App.with_microtasks [] p))
    as (p' & Hrun & _ & _ & _ & Hs & _ & Hanchors & _).
  destruct (Hanchors Hsmooth link Hm) as (el' & Hlink' & Hin).
  assert (Hhref : exists h, href el' = Some h).
  { pose proof (same_shapes_lookup _ _ link Hs) as Hn. simpl in Hn.
    rewrite Hlink' in Hn. unfold matches_at, connected in Hm. simpl in Hm.
    destruct (document (App.world p) !! link) as [el |]; [| discriminate].
    simpl in Hn. inversion Hn as [[Ht Hi Hc Hh Hp Hconn]].
    apply andb_true_iff in Hm as [_ Hm].
    destruct (href el) as [h |]; [| rewrite andb_false_r in Hm; discriminate].
    exists h. exact Hh. }
  destruct Hhref as [h Hhref].
  destruct (click_on_anchor (App.world p') link el' h Hlink' Hin Hhref)
    as (e' & w' & Hclick & Hprev & _).
  exists p', e', w'. split; [| split; assumption].
  rewrite (init_then_microtasks p Hflag Hready Hq). exact Hrun.
Qed.

Lemma in_page_links_never_navigate_witness :
  exists p' e' w',
    (App.init ;; App.runMicrotasks) Sample.page0 = (Normal tt, p')
    /\ Run.dispatchEvent "click" 12 (App.world p') = (Normal e', w')
    /\ defaultPrevented e' = true.
Proof.
  apply (in_page_links_never_navigate Sample.page0 12 eq_refl
           ltac:(discriminate) eq_refl eq_refl eq_refl).
Defined.
